(** * Embedded-Bootloader: the update protocol of [bootloader.c]

    A shallow embedding of [src/bootloader/src/bootloader.c]: the UART
    helpers, the two verifiers ([sha_hmac], [gcm_decrypt_and_verify]), the
    update routine [load_firmware] and the flash writer [program_flash].

    The C code runs on an LM3S6965 (Cortex-M3).  Its state is threaded
    explicitly: the pending input and the output of each UART, the flash
    contents together with a log of the driver calls, and the two global
    buffers [data] and [fw_release_message]. *)

From Stdlib Require Import ZArith QArith Qround Lia Bool String Ascii List.
From stdpp Require Import base list.
Import ListNotations.
Open Scope Z_scope.

(** ** Constants of [bootloader.c] *)

Definition METADATA_BASE : Z := 0xFC00.
Definition RELEASE_BASE : Z := 0xF800.
Definition FW_BASE : Z := 0x10000.
Definition FR_METADATA_SIZE : Z := 6.
Definition FW_METADATA_SIZE : Z := 6.
Definition FW_MAX_SIZE : Z := 0x7800.
Definition RELEASE_MAX_SIZE : Z := 0x400.
Definition DATA_SIZE : Z := FW_MAX_SIZE + FW_METADATA_SIZE + RELEASE_MAX_SIZE.

Definition FLASH_PAGESIZE : Z := 1024.
Definition FLASH_WRITESIZE : Z := 4.

Definition HMAC_SIZE : Z := 32.
Definition TAG_SIZE : Z := 16.
Definition AESKEY_SIZE : Z := 16.
Definition IV_SIZE : Z := 16.

Definition OK : Z := 0x00.
Definition ERROR : Z := 0x01.

(** The three serial ports ([main]: 0 reset, 1 host connection, 2 debug)
    and the blocking flag of [uart.h]. *)
Inductive uart_id : Type := UART0 | UART1 | UART2.
Definition BLOCKING : Z := 1.

(** ** C integer types

    Plain [char] is unsigned on the ARM EABI, so a byte is a [Z] in
    [0, 256); the fixed-width types wrap. *)

Definition to_char (x : Z) : Z := x mod 256.
Definition to_u8 (x : Z) : Z := x mod 256.
Definition to_u16 (x : Z) : Z := x mod 65536.
Definition to_u32 (x : Z) : Z := x mod 4294967296.

Definition is_byte (x : Z) : Prop := 0 <= x < 256.

(** [a[k]] for a buffer held as a list. *)
Definition at_ (a : list Z) (k : Z) : Z := nth (Z.to_nat k) a 0.

(** ** Machine state *)

(** One serial port: what the peer has sent and is still unread, each byte
    with the status [uart_read] will report for it, and what the
    bootloader has written so far. *)
Record port : Type := mkPort {
  rx : list (Z * bool);
  tx : list Z
}.

(** A call of the flash driver, as seen on the bus. *)
Inductive flash_op : Type :=
| Erase (addr : Z)
| Program (addr : Z) (bytes : list Z) (status : Z).

Record state : Type := mkState {
  uart0 : port;
  uart1 : port;
  uart2 : port;
  flash : Z -> Z;                  (* byte at each flash address *)
  flash_status : list Z;           (* what the next FlashProgram calls return *)
  flash_log : list flash_op;       (* driver calls made so far *)
  data : list Z;                   (* unsigned char data[DATA_SIZE] *)
  fw_release_message : list Z      (* unsigned char fw_release_message[RELEASE_MAX_SIZE] *)
}.

Definition get_port (u : uart_id) (s : state) : port :=
  match u with UART0 => uart0 s | UART1 => uart1 s | UART2 => uart2 s end.

Definition set_port (u : uart_id) (p : port) (s : state) : state :=
  match u with
  | UART0 => mkState p (uart1 s) (uart2 s) (flash s) (flash_status s)
               (flash_log s) (data s) (fw_release_message s)
  | UART1 => mkState (uart0 s) p (uart2 s) (flash s) (flash_status s)
               (flash_log s) (data s) (fw_release_message s)
  | UART2 => mkState (uart0 s) (uart1 s) p (flash s) (flash_status s)
               (flash_log s) (data s) (fw_release_message s)
  end.

Definition set_flash (f : Z -> Z) (st : list Z) (lg : list flash_op)
    (s : state) : state :=
  mkState (uart0 s) (uart1 s) (uart2 s) f st lg (data s) (fw_release_message s).

Definition set_data (d : list Z) (s : state) : state :=
  mkState (uart0 s) (uart1 s) (uart2 s) (flash s) (flash_status s)
    (flash_log s) d (fw_release_message s).

Definition set_fw_release_message (m : list Z) (s : state) : state :=
  mkState (uart0 s) (uart1 s) (uart2 s) (flash s) (flash_status s)
    (flash_log s) (data s) m.

(** ** Outcomes and the monad of the embedding

    A C function either returns, or the run stops: [send_err] resets the
    chip ([Reset]), a blocking read waits for a byte that never comes
    ([Blocked]), or a store leaves its array, which is undefined in C
    ([Fault]).  [Returned] is a [return;] of [load_firmware] taken inside
    a nested block; [OutOfFuel] is a loop of the model that used up its
    iteration budget. *)
Inductive exit : Type := Returned | Reset | Blocked | Fault | OutOfFuel.

Inductive result (A : Type) : Type :=
| Ok (a : A) (s : state)
| Stop (e : exit) (s : state).
Arguments Ok {A} a s.
Arguments Stop {A} e s.

Definition final {A} (r : result A) : state :=
  match r with Ok _ s | Stop _ s => s end.

Definition M (A : Type) : Type := state -> result A.

Definition ret {A} (a : A) : M A := fun s => Ok a s.

Definition bind {A B} (m : M A) (f : A -> M B) : M B := fun s =>
  match m s with
  | Ok a s' => f a s'
  | Stop e s' => Stop e s'
  end.

Definition stop {A} (e : exit) : M A := fun s => Stop e s.

Notation "x <- c1 ;; c2" := (bind c1 (fun x => c2))
  (at level 100, c1 at next level, right associativity).
Notation "c1 ;; c2" := (bind c1 (fun _ => c2))
  (at level 100, right associativity).

(** [return;] of the enclosing void function, from inside a block. *)
Definition return_ {A} : M A := stop Returned.

(** The body of a void function: an early [return;] is a normal return. *)
Definition void_fn (body : M unit) : M unit := fun s =>
  match body s with
  | Stop Returned s' => Ok tt s'
  | r => r
  end.

Definition get_data : M (list Z) := fun s => Ok (data s) s.
Definition get_fw_release_message : M (list Z) :=
  fun s => Ok (fw_release_message s) s.

(** [for (i = i0; ...; i++) body(i)] with a known number [n] of rounds. *)
Fixpoint for_range (n : nat) (i : Z) (body : Z -> M unit) : M unit :=
  match n with
  | O => ret tt
  | S n' => body i ;; for_range n' (i + 1) body
  end.

(** ** Serial ports ([uart.h], not part of the sources) *)

(** Modelled from the spec: [uart_read], the byte read of section 4.1,
    [read_byte(channel) -> (byte, ok)].  It blocks until a byte arrives and
    reports in [read] whether the transport delivered it without error. *)
Definition uart_read (uart : uart_id) (blocking : Z) : M (Z * Z) := fun s =>
  match rx (get_port uart s) with
  | [] => Stop Blocked s
  | (b, ok) :: rest =>
      Ok (to_u32 b, if ok then 1 else 0)
         (set_port uart (mkPort rest (tx (get_port uart s))) s)
  end.

(** Modelled from the spec: [uart_write], the blocking byte write of
    section 4.1, which has no error path. *)
Definition uart_write (uart : uart_id) (b : Z) : M unit := fun s =>
  Ok tt (set_port uart
           (mkPort (rx (get_port uart s)) (tx (get_port uart s) ++ [to_u8 b])) s).

Fixpoint uart_write_str (uart : uart_id) (str : string) : M unit :=
  match str with
  | EmptyString => ret tt
  | String c rest =>
      uart_write uart (Z.of_nat (nat_of_ascii c)) ;; uart_write_str uart rest
  end.

(** Modelled from the spec: [SysCtlReset], the chip-reset primitive.  The
    device restarts; the call does not return. *)
Definition SysCtlReset : M unit := stop Reset.

Definition LF : string := String (ascii_of_nat 10) EmptyString.

Definition bolt : list string :=
  [ (LF ++ LF ++ "                      :LMW            " ++ LF)%string;
    ("                  =ld#@@@!            " ++ LF)%string;
    ("                 v@@@@@@M             " ++ LF)%string;
    ("                `#@@@@@@_             " ++ LF)%string;
    ("                l@@@@@@s              " ++ LF)%string;
    ("               '#@@@@@#'_v`           " ++ LF)%string;
    ("               I@@@@@@#B#^            " ++ LF)%string;
    ("              -@@B@@@@@B'             " ++ LF)%string;
    ("              :|-*@@@@$.              " ++ LF)%string;
    ("                 Q@@@5`               " ++ LF)%string;
    ("                v@@@V                 " ++ LF)%string;
    ("               `#@#*                  " ++ LF)%string;
    ("               u@#:                   " ++ LF)%string;
    ("              .#8-                    " ++ LF)%string;
    ("              sO.                     " ++ LF)%string;
    ("             ,8I                      " ++ LF)%string;
    ("                                      " ++ LF)%string;
    (LF ++ LF ++ "COPYRIGHT © 2021 struct by_lightning{};" ++ LF ++ LF)%string ].

(** [print_bolt]: the logo, line by line, on UART2. *)
Definition print_bolt : M unit :=
  fold_right (fun line k => uart_write_str UART2 line ;; k) (ret tt) bolt.

(** [send_err]: the error path.  A fixed line on UART2, the [ERROR] byte
    on UART1, then the chip reset. *)
Definition send_err : M unit :=
  uart_write_str UART2 ("Nice try, kid. Be more original." ++ LF)%string ;;
  uart_write UART1 ERROR ;;
  SysCtlReset ;;
  ret tt.

(** [check_read]: [if(!(read)) send_err(); return !(read);] *)
Definition check_read (read : Z) : M Z :=
  (if read =? 0 then send_err else ret tt) ;;
  ret (if read =? 0 then 1 else 0).

(** The loop of [uart_read_variable].  The byte is read from [UART1]
    whatever [uart] is: the parameter is not used by the body. *)
Fixpoint uart_read_variable_loop (n : nat) (i : Z) (da : list Z) : M (list Z) :=
  match n with
  | O => ret da
  | S n' =>
      br <- uart_read UART1 BLOCKING ;;
      let da' := <[Z.to_nat i := to_char (fst br)]> da in
      r <- check_read (snd br) ;;
      if negb (r =? 0) then ret da'
      else uart_read_variable_loop n' (i + 1) da'
  end.

(** [uart_read_variable(uart, blocking, da, length)]: at most
    [FLASH_PAGESIZE] bytes into [da], which is returned updated. *)
Definition uart_read_variable (uart : uart_id) (blocking : Z) (da : list Z)
    (len : Z) : M (list Z) :=
  uart_read_variable_loop (Z.to_nat (Z.min len FLASH_PAGESIZE)) 0 da.

(** ** What the bootloader links against

    BearSSL with the two keys of [secrets.h] built in, and the one
    conversion of [load_firmware] that C leaves open: a negative [double]
    assigned to a [uint16_t]. *)
Record Extern : Type := mkExtern {
  (* br_hmac_* with br_sha256_vtable and hmac_key: the 32-byte MAC *)
  hmac_sha256 : list Z -> list Z;
  (* br_gcm_run after br_gcm_flip, under aes_key: iv, ciphertext -> plaintext *)
  gcm_run : list Z -> list Z -> list Z;
  (* the tag br_gcm_check_tag compares with: iv, ciphertext -> 16 bytes *)
  gcm_tag : list Z -> list Z -> list Z;
  (* (uint16_t) of a negative double *)
  u16_of_negative : Z;
  hmac_sha256_length : forall m, length (hmac_sha256 m) = 32%nat;
  hmac_sha256_bytes : forall m, Forall is_byte (hmac_sha256 m);
  gcm_run_length : forall iv ct, length (gcm_run iv ct) = length ct;
  gcm_run_bytes : forall iv ct, Forall is_byte (gcm_run iv ct);
  gcm_tag_length : forall iv ct, length (gcm_tag iv ct) = 16%nat;
  gcm_tag_bytes : forall iv ct, Forall is_byte (gcm_tag iv ct);
  u16_of_negative_range : 0 <= u16_of_negative < 65536
}.

(** The comparison loop of [sha_hmac],
    [for(int i = 0; i < HMAC_SIZE; i++) check |= hmac[i] ^ out[i];]
    together with the positions it has read. *)
Fixpoint hmac_compare_loop (n : nat) (i : Z) (hmac out : list Z)
    (check : Z) (seen : list Z) : Z * list Z :=
  match n with
  | O => (check, seen)
  | S n' =>
      hmac_compare_loop n' (i + 1) hmac out
        (Z.lor check (Z.lxor (at_ hmac i) (at_ out i))) (seen ++ [i])
  end.

Definition hmac_compare (hmac out : list Z) : Z * list Z :=
  hmac_compare_loop (Z.to_nat HMAC_SIZE) 0 hmac out 0 [].

(** ** Flash driver ([driverlib/flash.h], not part of the sources) *)

(** Modelled from the spec: [FlashErase], the page erase of section 4.2.
    All bytes of the 1 KiB page at [addr] become [0xFF]. *)
Definition FlashErase (addr : Z) : M Z := fun s =>
  Ok 0 (set_flash
          (fun a => if (addr <=? a) && (a <? addr + FLASH_PAGESIZE)
                    then 0xFF else flash s a)
          (flash_status s) (flash_log s ++ [Erase addr]) s).

(** Modelled from the spec: [FlashProgram], the word-aligned program of
    section 4.2.  It programs the [count] bytes found at [src];
    programming only clears bits; the call reports a status, non-zero on
    failure, taken here from [flash_status].  The spec does not say what a
    failed call leaves in the bytes it was to program; here it leaves
    them as they were. *)
Definition FlashProgram (src : list Z) (addr count : Z) : M Z := fun s =>
  let status := hd 0 (flash_status s) in
  let bytes := map to_u8 (take (Z.to_nat count) src) in
  Ok status
     (set_flash
        (if status =? 0
         then fun a => if (addr <=? a) && (a <? addr + Z.of_nat (length bytes))
                       then Z.land (flash s a) (at_ bytes (a - addr))
                       else flash s a
         else flash s)
        (tl (flash_status s)) (flash_log s ++ [Program addr bytes status]) s).

(** A [uint8_t] read of the flash at [addr]. *)
Definition flash_read8 (addr : Z) : M Z := fun s => Ok (to_u8 (flash s addr)) s.

(** The four bytes of a [uint32_t] in memory (little-endian). *)
Definition word_bytes (w : Z) : list Z :=
  [ Z.land w 0xFF; Z.land (Z.shiftr w 8) 0xFF;
    Z.land (Z.shiftr w 16) 0xFF; Z.land (Z.shiftr w 24) 0xFF ].

(** [for (i = 0; i < rem; i++)
       word = (word >> 8) | (data[num_full_bytes+i] << 24);] *)
Fixpoint last_word_shift (n : nat) (i : Z) (data : list Z)
    (num_full_bytes word : Z) : Z :=
  match n with
  | O => word
  | S n' =>
      last_word_shift n' (i + 1) data num_full_bytes
        (to_u32 (Z.lor (Z.shiftr word 8)
                       (Z.shiftl (to_u8 (at_ data (num_full_bytes + i))) 24)))
  end.

(** [for (i = i; i < 4; i++) word = (word >> 8) | 0xFF000000;] *)
Fixpoint last_word_fill (n : nat) (word : Z) : Z :=
  match n with
  | O => word
  | S n' => last_word_fill n' (to_u32 (Z.lor (Z.shiftr word 8) 0xFF000000))
  end.

(** [program_flash(page_addr, data, data_len)] *)
Definition program_flash (page_addr : Z) (data : list Z) (data_len : Z) : M Z :=
  let word := 0 in
  FlashErase page_addr ;;
  if negb (data_len mod FLASH_WRITESIZE =? 0) then
    let rem := data_len mod FLASH_WRITESIZE in
    let num_full_bytes := data_len - rem in
    r <- FlashProgram data page_addr num_full_bytes ;;
    if negb (r =? 0) then ret r
    else
      let word := last_word_shift (Z.to_nat rem) 0 data num_full_bytes word in
      let word := last_word_fill (Z.to_nat (4 - rem)) word in
      FlashProgram (word_bytes word) (page_addr + num_full_bytes) 4
  else
    FlashProgram data page_addr data_len.

(** [data[k] = v] on the staging buffer.  A store outside
    [data[0..DATA_SIZE)] is undefined in C: the run ends in [Fault]. *)
Definition data_store (k v : Z) : M unit := fun s =>
  if (0 <=? k) && (k <? DATA_SIZE)
  then Ok tt (set_data (<[Z.to_nat k := to_u8 v]> (data s)) s)
  else Stop Fault s.

(** A little-endian [uint16_t] field:
    [(uint16_t) b[k] | (uint16_t) b[k+1] << 8]. *)
Definition le16 (b : list Z) (k : Z) : Z :=
  to_u16 (Z.lor (to_u16 (at_ b k)) (Z.shiftl (to_u16 (at_ b (k + 1))) 8)).

Section WithExtern.
Context (X : Extern).

(** [sha_hmac(data, len)]: read the MAC, compute the HMAC of
    [data[0..len)], compare. *)
Definition sha_hmac (data : list Z) (len : Z) : M Z :=
  hmac <- uart_read_variable UART2 BLOCKING (replicate 32 0) HMAC_SIZE ;;
  let out := hmac_sha256 X (take (Z.to_nat len) data) in
  let check := fst (hmac_compare hmac out) in
  if negb (check =? 0) then send_err ;; ret 0
  else ret 32.

(** [br_gcm_check_tag]: 1 when the tag is the computed one. *)
Definition br_gcm_check_tag (iv ct tag : list Z) : Z :=
  if decide (gcm_tag X iv ct = tag) then 1 else 0.

(** [gcm_decrypt_and_verify(ct, ct_len)], called with [ct = data]: the
    first [ct_len] bytes of the staging buffer are decrypted in place. *)
Definition gcm_decrypt_and_verify (ct_len : Z) : M Z :=
  iv <- uart_read_variable UART2 BLOCKING (replicate 16 0) IV_SIZE ;;
  tag <- uart_read_variable UART2 BLOCKING (replicate 16 0) TAG_SIZE ;;
  ct <- get_data ;;
  let c := take (Z.to_nat ct_len) ct in
  (fun s => Ok tt (set_data (gcm_run X iv c ++ drop (Z.to_nat ct_len) ct) s)) ;;
  if br_gcm_check_tag iv c tag =? 0 then send_err ;; ret 0
  else ret 1.

(** [(uint16_t) x] for the [double] value [x] of
    [ceil((float) size / FLASH_PAGESIZE) - 1].  The quotient of a 16-bit
    size by 1024 is exact in [float], so the value is an integer, at
    least -1. *)
Definition double_to_u16 (x : Z) : Z :=
  if x <? 0 then u16_of_negative X else to_u16 x.

(** The frame body loop of [load_firmware]:
    [for(i = 0; i < frame_length && i < FLASH_PAGESIZE; i++)].
    Returns [i] and [bytes_recieved] as the loop leaves them. *)
Fixpoint read_frame_loop (n : nat) (i index size bytes_recieved : Z)
    : M (Z * Z) :=
  match n with
  | O => ret (i, bytes_recieved)
  | S n' =>
      br <- uart_read UART1 BLOCKING ;;
      data_store (FLASH_PAGESIZE * index + i) (fst br) ;;
      let bytes_recieved := to_u32 (bytes_recieved + 1) in
      r <- check_read (snd br) ;;
      if negb (r =? 0) then return_
      else if bytes_recieved >? size then send_err ;; return_
      else read_frame_loop n' (i + 1) index size bytes_recieved
  end.

(** The second half of a round of the frame loop, from "Read in frame" to
    "Acknowledge the frame": the payload into the staging buffer, the
    header appended behind it, the MAC over both.  Returns
    [bytes_recieved]. *)
Definition frame_payload (fr_metadata : list Z)
    (index frame_length size bytes_recieved : Z) : M Z :=
  ib <- read_frame_loop (Z.to_nat (Z.min frame_length FLASH_PAGESIZE)) 0
          index size bytes_recieved ;;
  let i := fst ib in
  let bytes_recieved := snd ib in
  for_range 6 0 (fun j =>
    data_store (FLASH_PAGESIZE * index + i + j) (at_ fr_metadata j)) ;;
  d <- get_data ;;
  r <- sha_hmac (drop (Z.to_nat (FLASH_PAGESIZE * index)) d)
         (frame_length + FR_METADATA_SIZE) ;;
  if r =? 0 then return_ else
  uart_write UART1 OK ;;
  ret bytes_recieved.

(** The [while (1)] loop over the frames: header, payload, then the
    counter and the exit test.  Returns [bytes_recieved]. *)
Fixpoint frames_loop (fuel : nat)
    (version size frame_number index_check bytes_recieved : Z) : M Z :=
  match fuel with
  | O => stop OutOfFuel
  | S fuel' =>
      fr_metadata <- uart_read_variable UART2 BLOCKING (replicate 6 0)
                       FR_METADATA_SIZE ;;
      r <- sha_hmac fr_metadata FR_METADATA_SIZE ;;
      if r =? 0 then return_ else
      let index := le16 fr_metadata 0 in
      let frame_length := le16 fr_metadata 2 in
      let frame_version := le16 fr_metadata 4 in
      if negb (index =? index_check) || (index >? frame_number)
      then send_err ;; return_ else
      if frame_length >? FLASH_PAGESIZE then send_err ;; return_ else
      if negb (version =? frame_version) || (frame_version =? 1)
      then send_err ;; return_ else
      bytes_recieved <- frame_payload fr_metadata index frame_length size
                          bytes_recieved ;;
      let index_check := to_u16 (index_check + 1) in
      if index =? frame_number then ret bytes_recieved
      else frames_loop fuel' version size frame_number index_check
             bytes_recieved
  end.

(** [fw_release_message[k] = v].  The loop below keeps [k] under
    [FLASH_PAGESIZE], the size of the buffer. *)
Definition message_store (k v : Z) : M unit := fun s =>
  Ok tt (set_fw_release_message
           (<[Z.to_nat k := to_char v]> (fw_release_message s)) s).

(** The loop of [uart_read_variable] when [da] is the global
    [fw_release_message]: each byte is in the buffer as soon as it is
    read, also when the run stops in a later round. *)
Fixpoint read_release_loop (n : nat) (i : Z) : M unit :=
  match n with
  | O => ret tt
  | S n' =>
      br <- uart_read UART1 BLOCKING ;;
      message_store i (fst br) ;;
      r <- check_read (snd br) ;;
      if negb (r =? 0) then ret tt
      else read_release_loop n' (i + 1)
  end.

(** [uart_read_variable(UART2, BLOCKING, fw_release_message, r_msg_size)]:
    the bytes land in the global buffer, whose new contents are returned. *)
Definition read_release_message (r_msg_size : Z) : M (list Z) :=
  read_release_loop (Z.to_nat (Z.min r_msg_size FLASH_PAGESIZE)) 0 ;;
  get_fw_release_message.

(** [frame_number]: [ceil((float) size / FLASH_PAGESIZE) - 1] as a
    [uint16_t]. *)
Definition frame_number_of (size : Z) : Z :=
  double_to_u16 (Qceiling (inject_Z size / inject_Z FLASH_PAGESIZE)%Q - 1).

(** [old_version]: the version stored at [METADATA_BASE]. *)
Definition stored_version (s : state) : Z :=
  to_u16 (Z.lor (Z.shiftl (to_u8 (flash s (METADATA_BASE + 1))) 8)
                (to_u8 (flash s METADATA_BASE))).

(** Step 1 of [load_firmware]: the firmware metadata, read, verified and
    checked, up to "Acknowledge the metadata".  Returns [metadata],
    [version], [size], [r_msg_size] and [frame_number]. *)
Definition load_firmware_metadata : M (list Z * Z * Z * Z * Z) :=
  print_bolt ;;
  metadata <- uart_read_variable UART1 BLOCKING (replicate 6 0)
                FW_METADATA_SIZE ;;
  r <- sha_hmac metadata FW_METADATA_SIZE ;;
  if r =? 0 then return_ else
  let version := le16 metadata 0 in
  let size := le16 metadata 2 in
  let r_msg_size := le16 metadata 4 in
  let frame_number := frame_number_of size in
  hi <- flash_read8 (METADATA_BASE + 1) ;;
  lo <- flash_read8 METADATA_BASE ;;
  let old_version := to_u16 (Z.lor (Z.shiftl hi 8) lo) in
  if negb (version =? 0) && (version <? old_version)
  then send_err ;; return_ else
  if size >? FW_MAX_SIZE then send_err ;; return_ else
  if r_msg_size >? RELEASE_MAX_SIZE then send_err ;; return_ else
  uart_write UART1 OK ;;
  ret (metadata, version, size, r_msg_size, frame_number).

(** Steps 2 to 7 of [load_firmware], up to "Decryption was successful":
    the frames, the release message, the three further HMAC checks and the
    decryption, all in RAM. *)
Definition load_firmware_receive (c : list Z * Z * Z * Z * Z)
    : M (list Z * Z * Z * Z) :=
  let '(metadata, version, size, r_msg_size, frame_number) := c in
  let bytes_recieved := 0 in
  bytes_recieved <- frames_loop (S (Z.to_nat frame_number)) version size
                      frame_number 0 bytes_recieved ;;
  if negb (size =? bytes_recieved) then send_err ;; return_ else
  d <- get_data ;;
  r <- sha_hmac d size ;;
  if r =? 0 then return_ else
  uart_write UART1 OK ;;
  m <- read_release_message r_msg_size ;;
  r <- sha_hmac m r_msg_size ;;
  if r =? 0 then return_ else
  uart_write UART1 OK ;;
  for_range 6 0 (fun i => data_store (size + i) (at_ metadata i)) ;;
  for_range (Z.to_nat (Z.min r_msg_size RELEASE_MAX_SIZE)) 0 (fun i =>
    m <- get_fw_release_message ;;
    data_store (size + FW_METADATA_SIZE + i) (at_ m i)) ;;
  d <- get_data ;;
  r <- sha_hmac d (size + FW_METADATA_SIZE + r_msg_size) ;;
  if r =? 0 then return_ else
  for_range (Z.to_nat (Z.min (FW_METADATA_SIZE + r_msg_size)
                             (FW_METADATA_SIZE + RELEASE_MAX_SIZE))) 0
    (fun i => data_store (size + i) 0x00) ;;
  uart_write UART1 OK ;;
  r <- gcm_decrypt_and_verify size ;;
  if r =? 0 then return_ else
  uart_write UART1 OK ;;
  ret (metadata, version, size, r_msg_size).

(** [for(int i = 0; i < size; i += FLASH_PAGESIZE)]: the firmware pages. *)
Fixpoint flash_firmware_loop (fuel : nat) (i page_addr size : Z) : M unit :=
  match fuel with
  | O => stop OutOfFuel
  | S fuel' =>
      if i <? size then
        let frame_length := to_u16 (size - i) in
        let frame_length :=
          if frame_length >? FLASH_PAGESIZE then FLASH_PAGESIZE
          else frame_length in
        d <- get_data ;;
        r <- program_flash page_addr (drop (Z.to_nat i) d) frame_length ;;
        if negb (r =? 0) then send_err ;; return_ else
        flash_firmware_loop fuel' (i + FLASH_PAGESIZE)
          (to_u32 (page_addr + FLASH_PAGESIZE)) size
      else ret tt
  end.

(** Steps 8 and 9 of [load_firmware]: the flash writes. *)
Definition load_firmware_flash (c : list Z * Z * Z * Z) : M unit :=
  let '(metadata, version, size, r_msg_size) := c in
  let page_addr := FW_BASE in
  flash_firmware_loop (S (Z.to_nat size)) 0 page_addr size ;;
  metadata <-
    (if version =? 0 then
       b0 <- flash_read8 METADATA_BASE ;;
       b1 <- flash_read8 (METADATA_BASE + 1) ;;
       ret (<[1%nat := to_char b1]> (<[0%nat := to_char b0]> metadata))
     else ret metadata) ;;
  r <- program_flash METADATA_BASE metadata FW_METADATA_SIZE ;;
  if negb (r =? 0) then send_err ;; return_ else
  m <- get_fw_release_message ;;
  r <- program_flash RELEASE_BASE m r_msg_size ;;
  if negb (r =? 0) then send_err ;; return_ else
  ret tt.

(** [load_firmware] *)
Definition load_firmware : M unit :=
  void_fn (c <- load_firmware_metadata ;;
           c <- load_firmware_receive c ;;
           load_firmware_flash c).

End WithExtern.

(** ** A stand-in for the linked libraries

    Simple byte functions in place of HMAC-SHA256 and AES-128-GCM, used to
    run the model on concrete transcripts.  [arm] converts a negative
    [double] to 0, as the soft-float conversion of the Cortex-M3 tool chain
    does; [wrapping] gives 65535. *)

Definition byte_sum (l : list Z) : Z := fold_right Z.add 0 l.

Definition stub_hmac (m : list Z) : list Z :=
  map (fun i => (byte_sum m + 7 * Z.of_nat i) mod 256) (seq 0 32).

Definition stub_gcm_run (iv ct : list Z) : list Z :=
  map (fun b => (b + byte_sum iv) mod 256) ct.

Definition stub_gcm_tag (iv ct : list Z) : list Z :=
  map (fun i => (byte_sum iv + byte_sum ct + Z.of_nat i) mod 256) (seq 0 16).

Lemma Forall_map_mod256 {A} (f : A -> Z) (l : list A) :
  Forall is_byte (map (fun a => f a mod 256) l).
Proof.
  induction l as [|a l IH]; simpl; constructor; auto.
  unfold is_byte. apply Z.mod_pos_bound. lia.
Qed.

Definition stub_extern (neg : Z) (Hneg : 0 <= neg < 65536) : Extern.
Proof.
  refine (mkExtern stub_hmac stub_gcm_run stub_gcm_tag neg _ _ _ _ _ _ Hneg).
  - intros m. reflexivity.
  - intros m. apply Forall_map_mod256.
  - intros iv ct. unfold stub_gcm_run. apply length_map.
  - intros iv ct. apply Forall_map_mod256.
  - intros iv ct. reflexivity.
  - intros iv ct. apply Forall_map_mod256.
Defined.

Definition arm : Extern := stub_extern 0 ltac:(lia).
Definition wrapping : Extern := stub_extern 65535 ltac:(lia).

(** Bytes on the wire, all delivered without transport error. *)
Definition sent (bs : list Z) : list (Z * bool) := map (fun b => (b, true)) bs.

Definition idle_port : port := mkPort [] [].

(** A device whose flash holds metadata {5, 4, 2}, with empty buffers. *)
Definition device (host debug : list (Z * bool)) (status : list Z) : state :=
  mkState idle_port (mkPort host []) (mkPort debug [])
    (fun a => if a =? METADATA_BASE then 5
              else if a =? METADATA_BASE + 2 then 4
              else if a =? METADATA_BASE + 4 then 2
              else if (METADATA_BASE <=? a) && (a <? METADATA_BASE + 6) then 0
              else 0xFF)
    status [] (replicate (Z.to_nat DATA_SIZE) 0)
    (replicate (Z.to_nat RELEASE_MAX_SIZE) 0).

(** What a host sends on UART1 for an update of one frame, with the
    authenticators of [stub_extern]: the metadata, the frame header, the
    frame, the message, each followed by its MAC, the MAC of the frame
    alone, the MAC of all that is staged, and the IV with the GCM tag. *)
Definition one_frame_upload (meta frm ct msg iv : list Z) : list Z :=
  meta ++ stub_hmac meta ++ frm ++ stub_hmac frm ++
  ct ++ stub_hmac (ct ++ frm) ++ stub_hmac ct ++
  msg ++ stub_hmac msg ++ stub_hmac (ct ++ meta ++ msg) ++
  iv ++ stub_gcm_tag iv ct.

(** A debug upload: version 0, five bytes of firmware, a message of three. *)
Definition debug_upload : list Z :=
  one_frame_upload [0; 0; 5; 0; 3; 0] [0; 0; 5; 0; 0; 0] [10; 20; 30; 40; 50]
    [104; 105; 33] (replicate 16 1).

(** An upload of version 7 with no firmware at all: size 0, one frame of
    length 0, a message of three bytes. *)
Definition empty_upload : list Z :=
  one_frame_upload [7; 0; 0; 0; 3; 0] [0; 0; 0; 0; 7; 0] []
    [104; 105; 33] (replicate 16 1).

(** Metadata of version 7 and size 0, then [n] frames of length 0 with
    indices 0 to [n - 1], each header followed by its MAC twice (the
    second one for the header as staged after its empty frame). *)
Definition empty_frame (i : Z) : list Z :=
  let frm := [i; 0; 0; 0; 7; 0] in frm ++ stub_hmac frm ++ stub_hmac frm.

Definition empty_frames (n : Z) : list Z :=
  let meta := [7; 0; 0; 0; 3; 0] in
  meta ++ stub_hmac meta ++ concat (map empty_frame (seqZ 0 n)).

(** * Properties *)

(** ** Outcomes of a computation *)

(** [post m s Q E]: run from [s], [m] returns a value and a state in [Q],
    or stops with an exit and a state in [E]. *)
Definition post {A} (m : M A) (s : state) (Q : A -> state -> Prop)
    (E : exit -> state -> Prop) : Prop :=
  match m s with
  | Ok a s' => Q a s'
  | Stop e s' => E e s'
  end.

Lemma post_ret {A} (a : A) s (Q : A -> state -> Prop) E :
  Q a s -> post (ret a) s Q E.
Proof. intros H. exact H. Qed.

Lemma post_stop {A} e s (Q : A -> state -> Prop) (E : exit -> state -> Prop) :
  E e s -> post (stop e) s Q E.
Proof. intros H. exact H. Qed.

Lemma post_bind {A B} (m : M A) (f : A -> M B) s Q E :
  post m s (fun a s' => post (f a) s' Q E) E -> post (bind m f) s Q E.
Proof.
  unfold post, bind. destruct (m s) as [a s'|e s']; auto.
Qed.

Lemma post_weaken {A} (m : M A) s (Q Q' : A -> state -> Prop)
    (E E' : exit -> state -> Prop) :
  post m s Q E ->
  (forall a s', Q a s' -> Q' a s') ->
  (forall e s', E e s' -> E' e s') ->
  post m s Q' E'.
Proof.
  unfold post. destruct (m s); auto.
Qed.

Lemma bind_Ok_inv {A B} (m : M A) (f : A -> M B) s b s' :
  bind m f s = Ok b s' ->
  exists a s1, m s = Ok a s1 /\ f a s1 = Ok b s'.
Proof.
  unfold bind. destruct (m s) as [a s1|e s1]; [eauto | discriminate].
Qed.

Lemma bind_Ok {A B} (m : M A) (f : A -> M B) s a s1 :
  m s = Ok a s1 -> bind m f s = f a s1.
Proof. unfold bind. intros ->. reflexivity. Qed.

Lemma bind_Stop {A B} (m : M A) (f : A -> M B) s e s1 :
  m s = Stop e s1 -> bind m f s = Stop e s1.
Proof. unfold bind. intros ->. reflexivity. Qed.

(** ** The error path and the banner *)

Definition str_bytes (str : string) : list Z :=
  map (fun c => Z.of_nat (nat_of_ascii c)) (list_ascii_of_string str).

(** [bytes] appended to what has been written on [uart]. *)
Definition emit (uart : uart_id) (bytes : list Z) (s : state) : state :=
  set_port uart
    (mkPort (rx (get_port uart s)) (tx (get_port uart s) ++ bytes)) s.

Lemma emit_emit u l1 l2 s : emit u l2 (emit u l1 s) = emit u (l1 ++ l2) s.
Proof.
  unfold emit. destruct u; simpl; rewrite <- app_assoc; reflexivity.
Qed.

Lemma emit_nil u s : emit u [] s = s.
Proof.
  unfold emit. destruct s as [[r0 t0] [r1 t1] [r2 t2] f st lg d m].
  destruct u; simpl; rewrite app_nil_r; reflexivity.
Qed.

Lemma uart_write_emit u b s : uart_write u b s = Ok tt (emit u [to_u8 b] s).
Proof. reflexivity. Qed.

Lemma uart_write_str_emit u str s :
  uart_write_str u str s =
  Ok tt (emit u (map to_u8 (str_bytes str)) s).
Proof.
  revert s. induction str as [|c str IH]; intros s.
  - cbn [uart_write_str]. unfold ret.
    rewrite <- (emit_nil u s) at 1. reflexivity.
  - cbn [uart_write_str]. unfold bind. rewrite uart_write_emit, IH, emit_emit.
    reflexivity.
Qed.

(** The state [send_err] leaves at the reset. *)
Definition error_exit (s : state) : state :=
  emit UART1 [ERROR]
    (emit UART2
       (map to_u8 (str_bytes ("Nice try, kid. Be more original." ++ LF))) s).

(** The state after [print_bolt]. *)
Definition bolt_printed (s : state) : state :=
  emit UART2 (concat (map (fun l => map to_u8 (str_bytes l)) bolt)) s.

Lemma send_err_stop s : send_err s = Stop Reset (error_exit s).
Proof.
  unfold send_err, bind. rewrite uart_write_str_emit, uart_write_emit.
  reflexivity.
Qed.

Lemma print_bolt_ok s : print_bolt s = Ok tt (bolt_printed s).
Proof.
  unfold print_bolt, bolt_printed. generalize bolt. intros l. revert s.
  induction l as [|x l IH]; intros s; cbn [fold_right map concat].
  - unfold ret. rewrite <- (emit_nil UART2 s) at 1. reflexivity.
  - unfold bind. rewrite uart_write_str_emit, IH, emit_emit. reflexivity.
Qed.

Lemma error_exit_uart1 s :
  uart1 (error_exit s) = mkPort (rx (uart1 s)) (tx (uart1 s) ++ [ERROR]).
Proof. reflexivity. Qed.

Lemma error_exit_rx2 s : rx (uart2 (error_exit s)) = rx (uart2 s).
Proof. reflexivity. Qed.

Lemma error_exit_flash s :
  flash (error_exit s) = flash s /\
  flash_log (error_exit s) = flash_log s /\
  flash_status (error_exit s) = flash_status s.
Proof. repeat split. Qed.

Lemma error_exit_buffers s :
  data (error_exit s) = data s /\
  fw_release_message (error_exit s) = fw_release_message s.
Proof. split; reflexivity. Qed.

Lemma bolt_printed_uart1 s : uart1 (bolt_printed s) = uart1 s.
Proof. reflexivity. Qed.

Lemma bolt_printed_rx2 s : rx (uart2 (bolt_printed s)) = rx (uart2 s).
Proof. reflexivity. Qed.

Lemma bolt_printed_flash s :
  flash (bolt_printed s) = flash s /\
  flash_log (bolt_printed s) = flash_log s /\
  flash_status (bolt_printed s) = flash_status s.
Proof. repeat split. Qed.

Lemma bolt_printed_buffers s :
  data (bolt_printed s) = data s /\
  fw_release_message (bolt_printed s) = fw_release_message s.
Proof. split; reflexivity. Qed.

Lemma error_exit_set_fw_release_message m s :
  error_exit (set_fw_release_message m s) =
  set_fw_release_message m (error_exit s).
Proof. reflexivity. Qed.

Global Opaque error_exit bolt_printed.

(** ** Reading from the host port *)

(** [s] with the pending input of UART1 replaced. *)
Definition with_rx1 (r : list (Z * bool)) (s : state) : state :=
  set_port UART1 (mkPort r (tx (uart1 s))) s.

(** Only input of UART1 has been consumed between [s] and [s']. *)
Definition reads (s s' : state) : Prop :=
  exists k, s' = with_rx1 (drop k (rx (uart1 s))) s.

(** How a read-only step stops: blocked on UART1, or through [send_err]. *)
Definition halts (s : state) (e : exit) (s' : state) : Prop :=
  (e = Blocked /\ reads s s') \/
  (e = Reset /\ exists s1, reads s s1 /\ s' = error_exit s1).

Lemma with_rx1_id s : with_rx1 (rx (uart1 s)) s = s.
Proof. destruct s as [p0 [r1 t1] p2 f st lg d m]. reflexivity. Qed.

Lemma with_rx1_twice r r' s : with_rx1 r' (with_rx1 r s) = with_rx1 r' s.
Proof. reflexivity. Qed.

Lemma reads_refl s : reads s s.
Proof. exists 0%nat. rewrite drop_0, with_rx1_id. reflexivity. Qed.

Lemma reads_trans s1 s2 s3 : reads s1 s2 -> reads s2 s3 -> reads s1 s3.
Proof.
  intros [k ->] [k' ->]. exists (k + k')%nat.
  cbn [with_rx1 set_port uart1 rx]. rewrite drop_drop. reflexivity.
Qed.

Lemma reads_with_rx1 s l rest :
  rx (uart1 s) = l ++ rest -> reads s (with_rx1 rest s).
Proof.
  intros H. exists (length l). rewrite H, drop_app_length. reflexivity.
Qed.

Lemma halts_trans s1 s2 e s3 : reads s1 s2 -> halts s2 e s3 -> halts s1 e s3.
Proof.
  intros H12 [[-> H]|[-> (s & H & ->)]].
  - left. eauto using reads_trans.
  - right. split; [reflexivity|]. exists s. eauto using reads_trans.
Qed.

Lemma to_char_to_u32 b : to_char (to_u32 b) = to_char b.
Proof.
  unfold to_char, to_u32. apply Z.mod_mod_divide.
  exists 16777216. lia.
Qed.

Lemma to_char_byte b : is_byte (to_char b).
Proof. unfold is_byte, to_char. apply Z.mod_pos_bound. lia. Qed.

Lemma to_char_id b : is_byte b -> to_char b = b.
Proof. unfold is_byte, to_char. intros H. apply Z.mod_small. lia. Qed.

Lemma uart_read_cons b ok rest bl s :
  rx (uart1 s) = (b, ok) :: rest ->
  uart_read UART1 bl s = Ok (to_u32 b, if ok then 1 else 0) (with_rx1 rest s).
Proof. unfold uart_read. cbn [get_port]. intros ->. reflexivity. Qed.

Lemma uart_read_nil bl s :
  rx (uart1 s) = [] -> uart_read UART1 bl s = Stop Blocked s.
Proof. unfold uart_read. cbn [get_port]. intros ->. reflexivity. Qed.

Lemma check_read_1 s : check_read 1 s = Ok 0 s.
Proof. reflexivity. Qed.

Lemma check_read_0 s : check_read 0 s = Stop Reset (error_exit s).
Proof. unfold check_read, bind. cbn [Z.eqb]. rewrite send_err_stop. reflexivity. Qed.

Lemma list_inserts_0_prefix {A} (l1 l2 : list A) :
  (length l1 <= length l2)%nat ->
  list_inserts 0 l1 l2 = l1 ++ drop (length l1) l2.
Proof.
  intros H. rewrite <- (take_drop (length l1) l2) at 1.
  apply list_inserts_0_r. rewrite length_take. lia.
Qed.

Lemma list_inserts_0_full {A} (l1 l2 : list A) :
  length l1 = length l2 -> list_inserts 0 l1 l2 = l1.
Proof.
  intros H. rewrite list_inserts_0_prefix by lia.
  rewrite H, drop_all. apply app_nil_r.
Qed.

(** With [bs] pending and delivered without error, the loop stores them
    from position [k] on and consumes exactly them. *)
Lemma uart_read_variable_loop_sent bs : forall k da rest s,
  rx (uart1 s) = sent bs ++ rest ->
  uart_read_variable_loop (length bs) (Z.of_nat k) da s =
  Ok (list_inserts k (map to_char bs) da) (with_rx1 rest s).
Proof.
  induction bs as [|b bs IH]; intros k da rest s Hrx.
  - simpl in *. unfold ret. rewrite <- Hrx, with_rx1_id. reflexivity.
  - cbn [length uart_read_variable_loop]. unfold bind at 1.
    rewrite (uart_read_cons b true (sent bs ++ rest)) by exact Hrx.
    unfold bind at 1. rewrite check_read_1. cbn [negb Z.eqb snd fst].
    replace (Z.of_nat k + 1) with (Z.of_nat (S k)) by lia.
    rewrite (IH (S k) _ rest) by reflexivity.
    rewrite with_rx1_twice, Nat2Z.id, to_char_to_u32.
    cbn [map list_inserts]. rewrite list_insert_inserts_lt by lia.
    reflexivity.
Qed.

Lemma uart_read_variable_sent u bl da len bs rest s :
  rx (uart1 s) = sent bs ++ rest ->
  Z.of_nat (length bs) = len -> len <= FLASH_PAGESIZE ->
  uart_read_variable u bl da len s =
  Ok (list_inserts 0 (map to_char bs) da) (with_rx1 rest s).
Proof.
  intros Hrx Hlen Hle. unfold uart_read_variable.
  rewrite Z.min_l by lia. rewrite <- Hlen, Nat2Z.id.
  apply (uart_read_variable_loop_sent bs 0%nat). exact Hrx.
Qed.

(** Whatever is pending, the loop returns after reading, blocks, or takes
    the error path; it touches nothing but the input of UART1. *)
Lemma uart_read_variable_loop_post n : forall i da s,
  post (uart_read_variable_loop n i da) s
    (fun da' s' => reads s s' /\ length da' = length da) (halts s).
Proof.
  induction n as [|n IH]; intros i da s.
  - apply post_ret. split; [apply reads_refl | reflexivity].
  - cbn [uart_read_variable_loop]. unfold post, bind at 1.
    destruct (rx (uart1 s)) as [|[b ok] rest] eqn:Hrx.
    + rewrite uart_read_nil by exact Hrx. left. split; [reflexivity | apply reads_refl].
    + rewrite (uart_read_cons b ok rest) by exact Hrx.
      assert (Hr : reads s (with_rx1 rest s))
        by (apply (reads_with_rx1 s [(b, ok)]); exact Hrx).
      destruct ok; cbn [snd fst].
      * unfold bind at 1. rewrite check_read_1. cbn [negb Z.eqb].
        specialize (IH (i + 1) (<[Z.to_nat i:=to_char (to_u32 b)]> da)
                      (with_rx1 rest s)).
        unfold post in IH.
        destruct (uart_read_variable_loop n _ _ _) as [da' s'|e s'].
        -- destruct IH as [H1 H2]. split; [eauto using reads_trans|].
           rewrite H2. apply length_insert.
        -- eauto using halts_trans.
      * unfold bind at 1. rewrite check_read_0. right.
        split; [reflexivity|]. eauto.
Qed.

Lemma uart_read_variable_post u bl da len s :
  post (uart_read_variable u bl da len) s
    (fun da' s' => reads s s' /\ length da' = length da) (halts s).
Proof. apply uart_read_variable_loop_post. Qed.

(** The port argument plays no part. *)
Lemma uart_read_variable_any_port u u' bl bl' da len :
  uart_read_variable u bl da len = uart_read_variable u' bl' da len.
Proof. reflexivity. Qed.

Lemma uart_read_variable_loop_step n i da s :
  uart_read_variable_loop (S n) i da s =
  match rx (uart1 s) with
  | [] => Stop Blocked s
  | (b, true) :: rest =>
      uart_read_variable_loop n (i + 1)
        (<[Z.to_nat i := to_char (to_u32 b)]> da) (with_rx1 rest s)
  | (b, false) :: rest => Stop Reset (error_exit (with_rx1 rest s))
  end.
Proof.
  cbn [uart_read_variable_loop]. unfold bind at 1.
  destruct (rx (uart1 s)) as [|[b ok] rest] eqn:Hrx.
  - rewrite uart_read_nil by exact Hrx. reflexivity.
  - rewrite (uart_read_cons b ok rest) by exact Hrx. cbn [fst snd].
    unfold bind at 1. destruct ok.
    + rewrite check_read_1. reflexivity.
    + rewrite check_read_0. reflexivity.
Qed.

Lemma read_release_loop_step n i s :
  read_release_loop (S n) i s =
  match rx (uart1 s) with
  | [] => Stop Blocked s
  | (b, ok) :: rest =>
      let s' := set_fw_release_message
                  (<[Z.to_nat i := to_char (to_u32 b)]> (fw_release_message s))
                  (with_rx1 rest s) in
      if ok then read_release_loop n (i + 1) s'
      else Stop Reset (error_exit s')
  end.
Proof.
  cbn [read_release_loop]. unfold bind at 1.
  destruct (rx (uart1 s)) as [|[b ok] rest] eqn:Hrx.
  - rewrite uart_read_nil by exact Hrx. reflexivity.
  - rewrite (uart_read_cons b ok rest) by exact Hrx. cbn [fst snd].
    unfold bind at 1, message_store at 1. unfold bind at 1. destruct ok.
    + rewrite check_read_1. reflexivity.
    + rewrite check_read_0. reflexivity.
Qed.

(** [read_release_loop] is the loop of [uart_read_variable] run on the
    message buffer: the same bytes are consumed and the same exit is
    taken, and what the one returns is what the other has put in the
    buffer. *)
Lemma read_release_loop_agrees n : forall i m s,
  match uart_read_variable_loop n i m s with
  | Ok m' s' =>
      read_release_loop n i (set_fw_release_message m s) =
      Ok tt (set_fw_release_message m' s')
  | Stop e s' =>
      exists m',
        read_release_loop n i (set_fw_release_message m s) =
        Stop e (set_fw_release_message m' s')
  end.
Proof.
  induction n as [|n IH]; intros i m s.
  - reflexivity.
  - rewrite uart_read_variable_loop_step, read_release_loop_step.
    change (rx (uart1 (set_fw_release_message m s))) with (rx (uart1 s)).
    destruct (rx (uart1 s)) as [|[b [|]] rest].
    + exists m. reflexivity.
    + exact (IH (i + 1) (<[Z.to_nat i:=to_char (to_u32 b)]> m)
               (with_rx1 rest s)).
    + eexists. cbv zeta. rewrite error_exit_set_fw_release_message.
      reflexivity.
Qed.

Lemma set_fw_release_message_id s :
  set_fw_release_message (fw_release_message s) s = s.
Proof. destruct s. reflexivity. Qed.

(** So [read_release_message] is [uart_read_variable] on the buffer, with
    the bytes read so far left in it when the run stops. *)
Lemma read_release_message_agrees len s :
  match uart_read_variable UART2 BLOCKING (fw_release_message s) len s with
  | Ok m' s' =>
      read_release_message len s = Ok m' (set_fw_release_message m' s')
  | Stop e s' =>
      exists m',
        read_release_message len s = Stop e (set_fw_release_message m' s')
  end.
Proof.
  unfold read_release_message, uart_read_variable.
  pose proof (read_release_loop_agrees
                (Z.to_nat (Z.min len FLASH_PAGESIZE)) 0
                (fw_release_message s) s) as H.
  rewrite set_fw_release_message_id in H.
  destruct (uart_read_variable_loop _ 0 (fw_release_message s) s)
    as [m' s'|e s'].
  - rewrite (bind_Ok _ _ _ _ _ H). reflexivity.
  - destruct H as [m' H]. exists m'. apply bind_Stop. exact H.
Qed.

(** ** The frame of the receive phase *)

(** What no step before the flash writes changes: the flash and its
    driver, the pending input of UART2, and the sizes of the buffers. *)
Definition frame (s s' : state) : Prop :=
  flash s' = flash s /\
  flash_log s' = flash_log s /\
  flash_status s' = flash_status s /\
  rx (uart2 s') = rx (uart2 s) /\
  length (data s') = length (data s) /\
  length (fw_release_message s') = length (fw_release_message s).

Lemma frame_refl s : frame s s.
Proof. repeat split. Qed.

Lemma frame_trans s1 s2 s3 : frame s1 s2 -> frame s2 s3 -> frame s1 s3.
Proof.
  unfold frame. intros (a1 & a2 & a3 & a4 & a5 & a6) (b1 & b2 & b3 & b4 & b5 & b6).
  repeat split; congruence.
Qed.

Lemma reads_frame s s' : reads s s' -> frame s s'.
Proof. intros [k ->]. repeat split. Qed.

Lemma error_exit_frame s : frame s (error_exit s).
Proof. repeat split. Qed.

Lemma emit_frame u l s : frame s (emit u l s).
Proof. destruct u; repeat split. Qed.

Lemma halts_frame s e s' :
  halts s e s' -> frame s s' /\ (e = Reset \/ e = Blocked).
Proof.
  intros [[-> H]|[-> (s1 & H & ->)]].
  - split; [apply reads_frame, H | auto].
  - split; [|auto].
    eapply frame_trans; [apply reads_frame, H | apply error_exit_frame].
Qed.

(** ** [sha_hmac] *)

Lemma hmac_compare_loop_seen n : forall i hmac out check seen,
  snd (hmac_compare_loop n i hmac out check seen) = seen ++ seqZ i (Z.of_nat n).
Proof.
  induction n as [|n IH]; intros i hmac out check seen.
  - simpl. rewrite app_nil_r. reflexivity.
  - cbn [hmac_compare_loop]. rewrite IH, <- app_assoc.
    rewrite (seqZ_cons i (Z.of_nat (S n))) by lia.
    replace (Z.pred (Z.of_nat (S n))) with (Z.of_nat n) by lia.
    replace (Z.succ i) with (i + 1) by lia. reflexivity.
Qed.

Lemma hmac_compare_loop_zero n : forall i hmac out check seen,
  fst (hmac_compare_loop n i hmac out check seen) = 0 <->
  check = 0 /\ forall j, i <= j < i + Z.of_nat n -> at_ hmac j = at_ out j.
Proof.
  induction n as [|n IH]; intros i hmac out check seen.
  - simpl. split; [intros ->; split; [reflexivity | intros; lia] | tauto].
  - cbn [hmac_compare_loop]. rewrite IH, Z.lor_eq_0_iff, Z.lxor_eq_0_iff.
    split.
    + intros [[Hc Hi] Hr]. split; [exact Hc|]. intros j Hj.
      destruct (Z.eq_dec j i) as [->|Hne]; [exact Hi | apply Hr; lia].
    + intros [Hc Hr]. repeat split; [exact Hc | apply Hr; lia |].
      intros j Hj. apply Hr. lia.
Qed.

(** The accumulated word is zero exactly when the 32 positions agree. *)
Lemma hmac_compare_zero hmac out :
  fst (hmac_compare hmac out) = 0 <->
  forall j, 0 <= j < 32 -> at_ hmac j = at_ out j.
Proof.
  unfold hmac_compare. rewrite hmac_compare_loop_zero.
  change (0 + Z.of_nat (Z.to_nat HMAC_SIZE)) with 32. tauto.
Qed.

Lemma hmac_compare_seen hmac out : snd (hmac_compare hmac out) = seqZ 0 32.
Proof. unfold hmac_compare. rewrite hmac_compare_loop_seen. reflexivity. Qed.

Section Verifiers.
Context (X : Extern).

(** With the 32 bytes pending on UART1, the verdict of [sha_hmac]. *)
Lemma sha_hmac_sent data len mac rest s :
  rx (uart1 s) = sent mac ++ rest -> length mac = 32%nat ->
  sha_hmac X data len s =
  if fst (hmac_compare (map to_char mac)
            (hmac_sha256 X (take (Z.to_nat len) data))) =? 0
  then Ok 32 (with_rx1 rest s)
  else Stop Reset (error_exit (with_rx1 rest s)).
Proof.
  intros Hrx Hlen. unfold sha_hmac, bind at 1.
  rewrite (uart_read_variable_sent _ _ _ _ mac rest) by (rewrite ?Hlen; done).
  rewrite list_inserts_0_full by (rewrite length_map, Hlen; reflexivity).
  destruct (fst (hmac_compare _ _) =? 0); cbn [negb].
  - reflexivity.
  - unfold bind. rewrite send_err_stop. reflexivity.
Qed.

(** Whatever is pending: [sha_hmac] returns 32, blocks, or resets. *)
Lemma sha_hmac_post data len s :
  post (sha_hmac X data len) s (fun r s' => r = 32 /\ reads s s') (halts s).
Proof.
  unfold sha_hmac. apply post_bind.
  eapply post_weaken; [apply uart_read_variable_post | | auto].
  intros hmac s' [Hr _]. cbv beta.
  destruct (negb _).
  - unfold post, bind. rewrite send_err_stop. right. eauto.
  - apply post_ret. auto.
Qed.

(** Whatever is pending: [gcm_decrypt_and_verify] returns 1, blocks, or
    resets; the staging buffer keeps its size. *)
Lemma gcm_decrypt_and_verify_post ct_len s :
  post (gcm_decrypt_and_verify X ct_len) s
    (fun r s' => r = 1 /\ frame s s' /\ uart1 s' = mkPort (rx (uart1 s')) (tx (uart1 s)))
    (fun e s' => frame s s' /\ (e = Reset \/ e = Blocked)).
Proof.
  unfold gcm_decrypt_and_verify. apply post_bind.
  eapply post_weaken; [apply uart_read_variable_post | | apply halts_frame].
  intros iv s1 [H1 _]. cbv beta. apply post_bind.
  eapply post_weaken; [apply uart_read_variable_post | | ].
  2:{ intros e s' H. apply (halts_trans s) in H; [|exact H1].
      apply halts_frame, H. }
  intros tag s2 [H2 _]. cbv beta.
  assert (H12 : reads s s2) by eauto using reads_trans.
  unfold post, bind, get_data.
  set (d := gcm_run X iv (take (Z.to_nat ct_len) (data s2)) ++
            drop (Z.to_nat ct_len) (data s2)).
  assert (Hf : frame s (set_data d s2)).
  { eapply frame_trans; [apply reads_frame, H12|].
    repeat split. cbn [set_data data]. unfold d.
    rewrite length_app, gcm_run_length, <- length_app, take_drop. reflexivity. }
  destruct (br_gcm_check_tag _ _ _ _ =? 0).
  - rewrite send_err_stop. split; [|auto].
    eapply frame_trans; [exact Hf | apply error_exit_frame].
  - unfold ret. split; [reflexivity|]. split; [exact Hf|].
    destruct H12 as [k ->]. reflexivity.
Qed.

End Verifiers.

(** C7, as amended. Given the 32 MAC bytes it reads, [sha_hmac] returns
    32 exactly when they agree in all 32 positions with the HMAC-SHA256 of
    [data[0..len)], which is exactly when the OR of the 32 XORed byte
    pairs is zero; on any mismatch it takes the error path, which sends
    [ERROR] and resets the chip, so that [sha_hmac] does not return: a
    value it returns is never 0; and the comparison loop reads positions
    0 to 31 whatever the bytes are. *)
Theorem sha_hmac_constant_time_verdict (X : Extern) (data : list Z) (len : Z)
    (s : state) (mac : list Z) (rest : list (Z * bool)) :
  rx (uart1 s) = sent mac ++ rest -> length mac = 32%nat ->
  let received := map to_char mac in
  let out := hmac_sha256 X (take (Z.to_nat len) data) in
  let agree := forall i, 0 <= i < 32 -> at_ received i = at_ out i in
  (agree <-> fst (hmac_compare received out) = 0) /\
  (agree -> sha_hmac X data len s = Ok 32 (with_rx1 rest s)) /\
  (~ agree ->
     sha_hmac X data len s = Stop Reset (error_exit (with_rx1 rest s)) /\
     tx (uart1 (error_exit (with_rx1 rest s))) = tx (uart1 s) ++ [ERROR]) /\
  (forall r s', sha_hmac X data len s = Ok r s' -> r <> 0 /\ agree) /\
  (forall a b, snd (hmac_compare a b) = seqZ 0 HMAC_SIZE).
Proof.
  intros Hrx Hlen received out agree.
  pose proof (sha_hmac_sent X data len mac rest s Hrx Hlen) as Hs.
  fold received out in Hs.
  pose proof (hmac_compare_zero received out) as Hz. fold agree in Hz.
  split; [symmetry; exact Hz|].
  destruct (fst (hmac_compare received out) =? 0) eqn:Hc.
  - apply Z.eqb_eq in Hc. apply Hz in Hc.
    split; [intros _; exact Hs|].
    split; [intros Hn; contradiction|].
    split; [|intros a b; apply hmac_compare_seen].
    intros r s' Hr. rewrite Hs in Hr. injection Hr as <- _.
    split; [lia | exact Hc].
  - apply Z.eqb_neq in Hc.
    split; [intros Ha; apply Hz in Ha; contradiction|].
    split; [intros _; split; [exact Hs | reflexivity]|].
    split; [|intros a b; apply hmac_compare_seen].
    intros r s' Hr. rewrite Hs in Hr. discriminate.
Qed.

Lemma sha_hmac_constant_time_verdict_witness :
  let m := [1; 2; 3] in
  let s := device (sent (stub_hmac m)) [] [] in
  let s2 := device (sent (replicate 32 0)) [] [] in
  rx (uart1 s) = sent (stub_hmac m) ++ [] /\
  length (stub_hmac m) = 32%nat /\
  sha_hmac arm m 3 s = Ok 32 (with_rx1 [] s) /\
  sha_hmac arm m 3 s2 = Stop Reset (error_exit (with_rx1 [] s2)) /\
  tx (uart1 (error_exit (with_rx1 [] s2))) = [ERROR].
Proof.
  intros m s s2.
  split; [reflexivity|]. split; [reflexivity|].
  split.
  - apply (proj1 (proj2 (sha_hmac_constant_time_verdict arm m 3 s
                           (stub_hmac m) [] eq_refl eq_refl))).
    intros i Hi. reflexivity.
  - apply (proj1 (proj2 (proj2 (sha_hmac_constant_time_verdict arm m 3 s2
                                  (replicate 32 0) [] eq_refl eq_refl)))).
    intros Ha. specialize (Ha 0 ltac:(lia)). vm_compute in Ha.
    discriminate Ha.
Defined.

(** C7 as stated fails: with a MAC that differs from the computed one
    [sha_hmac] does not return 0.  The chip is reset inside [send_err],
    and the [return 0;] behind that call is never reached. *)
Lemma sha_hmac_mismatch_does_not_return :
  let m := [1; 2; 3] in
  let mac := replicate 32 0 in
  let s := device (sent mac) [] [] in
  at_ (map to_char mac) 0 <> at_ (hmac_sha256 arm (take (Z.to_nat 3) m)) 0 /\
  sha_hmac arm m 3 s = Stop Reset (error_exit (with_rx1 [] s)) /\
  ~ (exists s', sha_hmac arm m 3 s = Ok 0 s').
Proof.
  intros m mac s.
  assert (Hrun : sha_hmac arm m 3 s = Stop Reset (error_exit (with_rx1 [] s))).
  { rewrite (sha_hmac_sent arm m 3 mac [] s eq_refl eq_refl).
    replace (fst (hmac_compare _ _) =? 0) with false
      by (vm_compute; reflexivity).
    reflexivity. }
  split; [vm_compute; discriminate|]. split; [exact Hrun|].
  intros [s' H]. rewrite Hrun in H. discriminate H.
Qed.

(** C1. The bytes of every authenticator are taken from UART1: neither
    verifier consumes anything pending on UART2; with the authenticator
    pending on UART2 and UART1 silent both block; and a MAC sent on UART1
    is the one [sha_hmac] accepts. *)
Theorem authenticators_are_read_from_uart1 :
  (forall X data len s,
     rx (uart2 (final (sha_hmac X data len s))) = rx (uart2 s)) /\
  (forall X ct_len s,
     rx (uart2 (final (gcm_decrypt_and_verify X ct_len s))) = rx (uart2 s)) /\
  (forall X data len mac,
     let s := device [] (sent mac) [] in
     sha_hmac X data len s = Stop Blocked s) /\
  (forall X ct_len iv tag,
     let s := device [] (sent (iv ++ tag)) [] in
     gcm_decrypt_and_verify X ct_len s = Stop Blocked s) /\
  (let m := [1; 2; 3] in
   sha_hmac arm m 3 (device (sent (stub_hmac m)) [] []) =
   Ok 32 (device [] [] [])).
Proof.
  split; [|split; [|split; [|split]]].
  - intros X data len s. pose proof (sha_hmac_post X data len s) as H.
    unfold post in H. destruct (sha_hmac X data len s) as [r s'|e s']; cbn [final].
    + destruct H as [_ H]. apply reads_frame in H. apply H.
    + apply halts_frame in H. apply H.
  - intros X ct_len s. pose proof (gcm_decrypt_and_verify_post X ct_len s) as H.
    unfold post in H.
    destruct (gcm_decrypt_and_verify X ct_len s) as [r s'|e s']; cbn [final].
    + destruct H as (_ & H & _). apply H.
    + destruct H as [H _]. apply H.
  - intros X data len mac s. reflexivity.
  - intros X ct_len iv tag s. reflexivity.
  - reflexivity.
Qed.

(** ** [program_flash] *)

Lemma land_disjoint a b n :
  0 <= a < 2 ^ n -> 0 <= n -> Z.land a (b * 2 ^ n) = 0.
Proof.
  intros Ha Hn. apply Z.bits_inj'. intros k Hk.
  rewrite Z.land_spec, Z.bits_0.
  destruct (Z.lt_ge_cases k n) as [Hlt|Hge].
  - rewrite Z.mul_pow2_bits_low by lia. apply andb_false_r.
  - destruct (Z.eq_dec a 0) as [->|Hne]; [rewrite Z.bits_0; reflexivity|].
    rewrite (Z.bits_above_log2 a k); [reflexivity | lia |].
    apply Z.lt_le_trans with n; [|exact Hge].
    apply Z.log2_lt_pow2; lia.
Qed.

Lemma lor_disjoint_add a b n :
  0 <= a < 2 ^ n -> 0 <= n -> Z.lor a (b * 2 ^ n) = a + b * 2 ^ n.
Proof.
  intros Ha Hn. pose proof (land_disjoint a b n Ha Hn) as H.
  rewrite <- Z.lxor_lor by exact H. symmetry. apply Z.add_nocarry_lxor, H.
Qed.

(** One round of the shift register, as arithmetic. *)
Lemma shift_in_arith w b :
  0 <= w < 4294967296 -> is_byte b ->
  to_u32 (Z.lor (Z.shiftr w 8) (Z.shiftl b 24)) = w / 256 + b * 16777216.
Proof.
  unfold is_byte, to_u32. intros Hw Hb.
  rewrite Z.shiftr_div_pow2, Z.shiftl_mul_pow2 by lia.
  change (2 ^ 8) with 256.
  rewrite (lor_disjoint_add (w / 256) b 24); try lia.
  - change (2 ^ 24) with 16777216.
    apply Z.mod_small. Z.div_mod_to_equations. lia.
  - change (2 ^ 24) with 16777216.
    Z.div_mod_to_equations. lia.
Qed.

Lemma shift_fill_arith w :
  0 <= w < 4294967296 ->
  to_u32 (Z.lor (Z.shiftr w 8) 0xFF000000) = w / 256 + 255 * 16777216.
Proof.
  intros Hw. change 0xFF000000 with (Z.shiftl 255 24).
  apply shift_in_arith; [exact Hw | unfold is_byte; lia].
Qed.

Lemma word_bytes_arith w :
  0 <= w ->
  word_bytes w =
  [w mod 256; (w / 256) mod 256; (w / 65536) mod 256; (w / 16777216) mod 256].
Proof.
  intros Hw. unfold word_bytes.
  change 0xFF with (Z.ones 8). rewrite !Z.land_ones, !Z.shiftr_div_pow2 by lia.
  reflexivity.
Qed.

(** Rewrites the rounds of the shift register innermost first. *)
Ltac word_arith :=
  repeat match goal with
  | |- context [to_u32 (Z.lor (Z.shiftr ?w 8) (Z.shiftl ?b 24))] =>
      rewrite (shift_in_arith w b)
        by (unfold is_byte; Z.div_mod_to_equations; lia)
  | |- context [to_u32 (Z.lor (Z.shiftr ?w 8) 0xFF000000)] =>
      rewrite (shift_fill_arith w) by (Z.div_mod_to_equations; lia)
  end.

(** The last word of a partial write: the remaining bytes first, then
    [0xFF] up to four. *)
Lemma last_word_bytes src full rem :
  1 <= rem <= 3 ->
  word_bytes (last_word_fill (Z.to_nat (4 - rem))
                (last_word_shift (Z.to_nat rem) 0 src full 0)) =
  map (fun k => to_u8 (at_ src k)) (seqZ full rem) ++
  replicate (Z.to_nat (4 - rem)) 0xFF.
Proof.
  intros Hrem.
  pose proof (to_char_byte (at_ src full)) as H0.
  pose proof (to_char_byte (at_ src (full + 1))) as H1.
  pose proof (to_char_byte (at_ src (full + 2))) as H2.
  change to_char with to_u8 in H0, H1, H2.
  unfold is_byte in H0, H1, H2.
  assert (Hc : rem = 1 \/ rem = 2 \/ rem = 3) by lia.
  destruct Hc as [-> | [-> | ->]].
  - change (Z.to_nat (4 - 1)) with 3%nat. change (Z.to_nat 1) with 1%nat.
    cbn [last_word_shift last_word_fill].
    replace (full + 0) with full by lia.
    word_arith.
    rewrite word_bytes_arith by (Z.div_mod_to_equations; lia).
    change (seqZ full 1) with [0 + full]. cbn [map app replicate].
    replace (0 + full) with full by lia.
    repeat f_equal; Z.div_mod_to_equations; lia.
  - change (Z.to_nat (4 - 2)) with 2%nat. change (Z.to_nat 2) with 2%nat.
    cbn [last_word_shift last_word_fill].
    replace (full + 0) with full by lia.
    replace (full + (0 + 1)) with (full + 1) by lia.
    word_arith.
    rewrite word_bytes_arith by (Z.div_mod_to_equations; lia).
    change (seqZ full 2) with [0 + full; 1 + full]. cbn [map app replicate].
    replace (0 + full) with full by lia.
    replace (1 + full) with (full + 1) by lia.
    repeat f_equal; Z.div_mod_to_equations; lia.
  - change (Z.to_nat (4 - 3)) with 1%nat. change (Z.to_nat 3) with 3%nat.
    cbn [last_word_shift last_word_fill].
    replace (full + 0) with full by lia.
    replace (full + (0 + 1)) with (full + 1) by lia.
    replace (full + (0 + 1 + 1)) with (full + 2) by lia.
    word_arith.
    rewrite word_bytes_arith by (Z.div_mod_to_equations; lia).
    change (seqZ full 3) with [0 + full; 1 + full; 2 + full].
    cbn [map app replicate].
    replace (0 + full) with full by lia.
    replace (1 + full) with (full + 1) by lia.
    replace (2 + full) with (full + 2) by lia.
    repeat f_equal; Z.div_mod_to_equations; lia.
Qed.

Lemma word_bytes_bytes w : map to_u8 (word_bytes w) = word_bytes w.
Proof.
  unfold word_bytes. cbn [map]. change 0xFF with (Z.ones 8).
  rewrite !Z.land_ones by lia. unfold to_u8. change (2 ^ 8) with 256.
  rewrite !Z.mod_mod by lia. reflexivity.
Qed.

(** The driver calls of [program_flash], in closed form. *)
Lemma program_flash_run page_addr src len s :
  let rem := len mod FLASH_WRITESIZE in
  let full := len - rem in
  let st1 := hd 0 (flash_status s) in
  let st2 := hd 0 (tl (flash_status s)) in
  let last := map (fun k => to_u8 (at_ src k)) (seqZ full rem) ++
              replicate (Z.to_nat (4 - rem)) 0xFF in
  exists r s' ops,
    program_flash page_addr src len s = Ok r s' /\
    flash_log s' = flash_log s ++ Erase page_addr :: ops /\
    (rem = 0 ->
       ops = [Program page_addr (map to_u8 (take (Z.to_nat len) src)) st1] /\
       r = st1) /\
    (rem <> 0 -> st1 = 0 ->
       ops = [Program page_addr (map to_u8 (take (Z.to_nat full) src)) 0;
              Program (page_addr + full) last st2] /\ r = st2) /\
    (rem <> 0 -> st1 <> 0 ->
       ops = [Program page_addr (map to_u8 (take (Z.to_nat full) src)) st1] /\
       r = st1).
Proof.
  intros rem full st1 st2 last.
  unfold program_flash, bind, FlashErase.
  fold rem. fold full.
  destruct (rem =? 0) eqn:Hrem; cbn [negb].
  - apply Z.eqb_eq in Hrem.
    eexists _, _, _. split; [reflexivity|].
    cbn [flash_log set_flash flash_status]. rewrite <- app_assoc.
    split; [reflexivity|]. fold st1.
    split; [auto|]. split; intros; contradiction.
  - apply Z.eqb_neq in Hrem.
    unfold FlashProgram at 1. cbn [flash_log set_flash flash_status].
    fold st1. destruct (st1 =? 0) eqn:Hst1; cbn [negb].
    + apply Z.eqb_eq in Hst1.
      eexists _, _, _. split; [reflexivity|].
      cbn [flash_log set_flash flash_status]. rewrite <- !app_assoc.
      split; [reflexivity|]. fold st2.
      split; [intros; contradiction|].
      split; [|intros; contradiction].
      intros _ _. rewrite Hst1. split; [|reflexivity].
      change (Z.to_nat 4) with 4%nat.
      replace (take 4 (word_bytes _)) with
        (word_bytes (last_word_fill (Z.to_nat (4 - rem))
           (last_word_shift (Z.to_nat rem) 0 src full 0))) by reflexivity.
      rewrite word_bytes_bytes.
      unfold last. rewrite <- last_word_bytes; [reflexivity|].
      unfold rem, FLASH_WRITESIZE in *. Z.div_mod_to_equations. lia.
    + apply Z.eqb_neq in Hst1.
      eexists _, _, _. split; [reflexivity|].
      cbn [flash_log set_flash flash_status]. rewrite <- !app_assoc.
      split; [reflexivity|].
      split; [intros; contradiction|].
      split; [intros; contradiction|]. auto.
Qed.

(** C8, as amended. [program_flash] erases the page first.  For a length
    that is a multiple of 4 it then programs [src[0..len)] at [page_addr]
    and returns that status.  Otherwise it programs the full words; if
    that returns 0 it programs one more word, the remaining bytes padded
    with [0xFF], at the next word address, and returns that status; if it
    returns non-zero, [program_flash] returns it at once and programs no
    last word.  The result is non-zero exactly when one of the program
    calls made returned non-zero. *)
Theorem program_flash_calls (page_addr : Z) (src : list Z) (len : Z)
    (s : state) :
  0 <= len <= FLASH_PAGESIZE ->
  let rem := len mod FLASH_WRITESIZE in
  let full := len - rem in
  let st1 := hd 0 (flash_status s) in
  let st2 := hd 0 (tl (flash_status s)) in
  let last := map (fun k => to_u8 (at_ src k)) (seqZ full rem) ++
              replicate (Z.to_nat (4 - rem)) 0xFF in
  exists r s' ops,
    program_flash page_addr src len s = Ok r s' /\
    flash_log s' = flash_log s ++ Erase page_addr :: ops /\
    (rem = 0 ->
       ops = [Program page_addr (map to_u8 (take (Z.to_nat len) src)) st1] /\
       r = st1) /\
    (rem <> 0 -> st1 = 0 ->
       ops = [Program page_addr (map to_u8 (take (Z.to_nat full) src)) 0;
              Program (page_addr + full) last st2] /\ r = st2) /\
    (rem <> 0 -> st1 <> 0 ->
       ops = [Program page_addr (map to_u8 (take (Z.to_nat full) src)) st1] /\
       r = st1) /\
    (r <> 0 <-> exists a b st, In (Program a b st) ops /\ st <> 0).
Proof.
  intros Hlen rem full st1 st2 last.
  destruct (program_flash_run page_addr src len s)
    as (r & s' & ops & Hrun & Hlog & H0 & H1 & H2).
  fold rem full st1 st2 last in H0, H1, H2.
  exists r, s', ops.
  split; [exact Hrun|]. split; [exact Hlog|].
  split; [exact H0|]. split; [exact H1|]. split; [exact H2|].
  destruct (Z.eq_dec rem 0) as [Hr|Hr].
  - destruct (H0 Hr) as [-> ->]. split.
    + intros Hs. eexists _, _, _. split; [left; reflexivity | exact Hs].
    + intros (a & b & st & [Hin|[]] & Hst). injection Hin as _ _ <-. exact Hst.
  - destruct (Z.eq_dec st1 0) as [Hs1|Hs1].
    + destruct (H1 Hr Hs1) as [-> ->]. split.
      * intros Hs. eexists _, _, _. split; [right; left; reflexivity | exact Hs].
      * intros (a & b & st & [Hin|[Hin|[]]] & Hst).
        -- injection Hin as _ _ <-. contradiction.
        -- injection Hin as _ _ <-. exact Hst.
    + destruct (H2 Hr Hs1) as [-> ->]. split.
      * intros Hs. eexists _, _, _. split; [left; reflexivity | exact Hs].
      * intros _. exact Hs1.
Qed.

Lemma program_flash_calls_witness :
  let src := [7; 0; 5; 0; 3; 0] in
  let s := device [] [] [] in
  0 <= 6 <= FLASH_PAGESIZE /\
  exists r s' ops,
    program_flash METADATA_BASE src 6 s = Ok r s' /\
    flash_log s' = flash_log s ++ Erase METADATA_BASE :: ops /\
    r = 0.
Proof.
  intros src s.
  assert (H1 : 0 <= 6 <= FLASH_PAGESIZE) by (unfold FLASH_PAGESIZE; lia).
  split; [exact H1|].
  destruct (program_flash_calls METADATA_BASE src 6 s H1)
    as (r & s' & ops & Hrun & Hlog & _ & Hpart & _).
  exists r, s', ops. split; [exact Hrun|]. split; [exact Hlog|].
  apply Hpart; [discriminate | reflexivity].
Defined.

(** C8 as stated fails: with a length that is not a multiple of 4 and a
    first program call that reports failure, no last word is programmed. *)
Lemma program_flash_last_word_skipped :
  let src := [1; 2; 3; 4; 5] in
  let s := device [] [] [-1] in
  0 <= 5 <= FLASH_PAGESIZE /\ 5 mod FLASH_WRITESIZE <> 0 /\
  (exists s', program_flash METADATA_BASE src 5 s = Ok (-1) s' /\
     flash_log s' =
     [Erase METADATA_BASE; Program METADATA_BASE [1; 2; 3; 4] (-1)]) /\
  ~ (exists st,
       In (Program (METADATA_BASE + 4) [5; 255; 255; 255] st)
          (flash_log (final (program_flash METADATA_BASE src 5 s)))).
Proof.
  intros src s.
  split; [unfold FLASH_PAGESIZE; lia|]. split; [discriminate|].
  split.
  - exists (final (program_flash METADATA_BASE src 5 s)).
    split; [reflexivity | vm_compute; reflexivity].
  - intros (st & H). vm_compute in H.
    destruct H as [H|[H|[]]]; discriminate.
Qed.

(** ** The metadata stage *)

Section Metadata.
Context (X : Extern).

Lemma flash_read8_ok a s : flash_read8 a s = Ok (to_u8 (flash s a)) s.
Proof. reflexivity. Qed.

(** With the six metadata bytes and the 32 MAC bytes pending, the metadata
    stage in closed form: the four rejections in the order of the code,
    else the acknowledgement. *)
Lemma load_firmware_metadata_sent s meta mac rest :
  rx (uart1 s) = sent (meta ++ mac) ++ rest ->
  length meta = 6%nat -> length mac = 32%nat ->
  let m := map to_char meta in
  let s1 := with_rx1 rest (bolt_printed s) in
  load_firmware_metadata X s =
  if negb (fst (hmac_compare (map to_char mac) (hmac_sha256 X m)) =? 0)
  then Stop Reset (error_exit s1)
  else if negb (le16 m 0 =? 0) && (le16 m 0 <? stored_version s)
  then Stop Reset (error_exit s1)
  else if le16 m 2 >? FW_MAX_SIZE then Stop Reset (error_exit s1)
  else if le16 m 4 >? RELEASE_MAX_SIZE then Stop Reset (error_exit s1)
  else Ok (m, le16 m 0, le16 m 2, le16 m 4, frame_number_of X (le16 m 2))
          (emit UART1 [OK] s1).
Proof.
  intros Hrx Hmeta Hmac m s1.
  unfold sent in Hrx. rewrite map_app, <- app_assoc in Hrx. fold (sent meta) in Hrx.
  fold (sent mac) in Hrx.
  unfold load_firmware_metadata. unfold bind at 1. rewrite print_bolt_ok.
  unfold bind at 1.
  rewrite (uart_read_variable_sent _ _ _ _ meta (sent mac ++ rest));
    [ | rewrite bolt_printed_uart1; exact Hrx | rewrite Hmeta; reflexivity
      | unfold FLASH_PAGESIZE, FW_METADATA_SIZE; lia ].
  rewrite list_inserts_0_full by (rewrite length_map, Hmeta; reflexivity).
  fold m. unfold bind at 1.
  rewrite (sha_hmac_sent X m _ mac rest) by (exact Hmac || reflexivity).
  rewrite with_rx1_twice. fold s1.
  replace (take (Z.to_nat FW_METADATA_SIZE) m) with m
    by (symmetry; apply take_ge; unfold m; rewrite length_map, Hmeta;
        unfold FW_METADATA_SIZE; lia).
  destruct (fst (hmac_compare (map to_char mac) (hmac_sha256 X m)) =? 0);
    cbn [negb]; [|reflexivity].
  cbn [Z.eqb]. unfold bind at 1. rewrite flash_read8_ok.
  unfold bind at 1. rewrite flash_read8_ok.
  assert (Hf : flash s1 = flash s) by apply (bolt_printed_flash s).
  rewrite Hf. fold (stored_version s).
  destruct (negb (le16 m 0 =? 0) && (le16 m 0 <? stored_version s)).
  { unfold bind. rewrite send_err_stop. reflexivity. }
  destruct (le16 m 2 >? FW_MAX_SIZE).
  { unfold bind. rewrite send_err_stop. reflexivity. }
  destruct (le16 m 4 >? RELEASE_MAX_SIZE).
  { unfold bind. rewrite send_err_stop. reflexivity. }
  reflexivity.
Qed.

Lemma void_fn_stop body s e s' :
  body s = Stop e s' -> e <> Returned -> void_fn body s = Stop e s'.
Proof. unfold void_fn. intros -> H. destruct e; congruence. Qed.

(** A rejection in the metadata stage is the outcome of [load_firmware]:
    [ERROR] is the only byte the host gets, and the flash is untouched. *)
Lemma metadata_rejection s rest :
  load_firmware_metadata X s =
    Stop Reset (error_exit (with_rx1 rest (bolt_printed s))) ->
  exists s', load_firmware X s = Stop Reset s' /\
    tx (uart1 s') = tx (uart1 s) ++ [ERROR] /\
    rx (uart1 s') = rest /\
    flash s' = flash s /\ flash_log s' = flash_log s.
Proof.
  intros H. eexists. split.
  - unfold load_firmware. apply void_fn_stop; [|discriminate].
    apply bind_Stop. exact H.
  - rewrite error_exit_uart1. cbn [tx rx].
    split; [reflexivity|]. split; [reflexivity|].
    split; [apply (bolt_printed_flash s) | apply (bolt_printed_flash s)].
Qed.

End Metadata.

(** C2. A metadata whose version is above 0 and below the stored one is
    rejected in the metadata stage, whatever MAC comes with it: the run
    ends on the error path after exactly these 38 bytes, [ERROR] is the
    only byte sent to the host, and the flash is as before. *)
Theorem rollback_is_rejected (X : Extern) (s : state) (meta mac : list Z)
    (rest : list (Z * bool)) :
  rx (uart1 s) = sent (meta ++ mac) ++ rest ->
  length meta = 6%nat -> length mac = 32%nat ->
  0 < le16 (map to_char meta) 0 < stored_version s ->
  exists s', load_firmware X s = Stop Reset s' /\
    tx (uart1 s') = tx (uart1 s) ++ [ERROR] /\
    rx (uart1 s') = rest /\
    flash s' = flash s /\ flash_log s' = flash_log s.
Proof.
  intros Hrx Hmeta Hmac Hv.
  apply metadata_rejection.
  rewrite (load_firmware_metadata_sent X s meta mac rest Hrx Hmeta Hmac).
  destruct (negb _); [reflexivity|].
  replace (le16 (map to_char meta) 0 =? 0) with false by (symmetry; apply Z.eqb_neq; lia).
  replace (le16 (map to_char meta) 0 <? stored_version s) with true
    by (symmetry; apply Z.ltb_lt; lia).
  reflexivity.
Qed.

Lemma rollback_is_rejected_witness :
  let meta := [4; 0; 5; 0; 3; 0] in
  let s := device (sent (meta ++ stub_hmac meta)) [] [] in
  rx (uart1 s) = sent (meta ++ stub_hmac meta) ++ [] /\
  length meta = 6%nat /\ length (stub_hmac meta) = 32%nat /\
  0 < le16 (map to_char meta) 0 < stored_version s /\
  exists s', load_firmware arm s = Stop Reset s' /\
    tx (uart1 s') = tx (uart1 s) ++ [ERROR] /\
    rx (uart1 s') = [] /\
    flash s' = flash s /\ flash_log s' = flash_log s.
Proof.
  intros meta s.
  assert (H1 : rx (uart1 s) = sent (meta ++ stub_hmac meta) ++ [])
    by reflexivity.
  assert (H2 : length meta = 6%nat) by reflexivity.
  assert (H3 : length (stub_hmac meta) = 32%nat) by reflexivity.
  assert (H4 : 0 < le16 (map to_char meta) 0 < stored_version s)
    by (vm_compute; split; reflexivity).
  split; [exact H1|]. split; [exact H2|]. split; [exact H3|].
  split; [exact H4|].
  exact (rollback_is_rejected arm s meta (stub_hmac meta) [] H1 H2 H3 H4).
Defined.

(** ** The frame header *)

Section FrameHeader.
Context (X : Extern).

(** One of the header checks of a frame fails, in the order of the code:
    the MAC, the index, the length, the version. *)
Definition header_fails (version frame_number index_check : Z)
    (f mac : list Z) : Prop :=
  fst (hmac_compare mac (hmac_sha256 X f)) <> 0 \/
  le16 f 0 <> index_check \/ le16 f 0 > frame_number \/
  le16 f 2 > FLASH_PAGESIZE \/
  version <> le16 f 4 \/ le16 f 4 = 1.

Lemma frames_loop_header_rejected fuel version size frame_number index_check
    bytes_recieved s frm mac rest :
  rx (uart1 s) = sent (frm ++ mac) ++ rest ->
  length frm = 6%nat -> length mac = 32%nat ->
  header_fails version frame_number index_check
    (map to_char frm) (map to_char mac) ->
  frames_loop X (S fuel) version size frame_number index_check
    bytes_recieved s = Stop Reset (error_exit (with_rx1 rest s)).
Proof.
  intros Hrx Hfrm Hmac Hrej.
  unfold sent in Hrx. rewrite map_app, <- app_assoc in Hrx.
  fold (sent frm) in Hrx. fold (sent mac) in Hrx.
  cbn [frames_loop]. unfold bind at 1.
  rewrite (uart_read_variable_sent _ _ _ _ frm (sent mac ++ rest));
    [ | exact Hrx | rewrite Hfrm; reflexivity
      | unfold FLASH_PAGESIZE, FR_METADATA_SIZE; lia ].
  rewrite list_inserts_0_full by (rewrite length_map, Hfrm; reflexivity).
  unfold bind at 1.
  rewrite (sha_hmac_sent X _ _ mac rest) by (exact Hmac || reflexivity).
  rewrite with_rx1_twice.
  replace (take (Z.to_nat FR_METADATA_SIZE) (map to_char frm))
    with (map to_char frm)
    by (symmetry; apply take_ge; rewrite length_map, Hfrm;
        unfold FR_METADATA_SIZE; lia).
  destruct (fst (hmac_compare (map to_char mac)
                   (hmac_sha256 X (map to_char frm))) =? 0) eqn:Hc;
    [|reflexivity].
  cbn [Z.eqb].
  destruct (le16 (map to_char frm) 0 =? index_check) eqn:H1; cbn [negb orb];
    [|unfold bind at 1; rewrite send_err_stop; reflexivity].
  destruct (le16 (map to_char frm) 0 >? frame_number) eqn:H2;
    [unfold bind at 1; rewrite send_err_stop; reflexivity|].
  destruct (le16 (map to_char frm) 2 >? FLASH_PAGESIZE) eqn:H3;
    [unfold bind at 1; rewrite send_err_stop; reflexivity|].
  destruct (version =? le16 (map to_char frm) 4) eqn:H4; cbn [negb orb];
    [|unfold bind at 1; rewrite send_err_stop; reflexivity].
  destruct (le16 (map to_char frm) 4 =? 1) eqn:H5;
    [unfold bind at 1; rewrite send_err_stop; reflexivity|].
  exfalso. unfold header_fails in Hrej. lia.
Qed.
End FrameHeader.

(** ** Steps that keep the frame *)

(** [framed m P Ex]: from any state, [m] keeps the frame; a value it
    returns satisfies [P], an exit it takes satisfies [Ex]. *)
Definition framed {A} (m : M A) (P : A -> Prop) (Ex : exit -> Prop) : Prop :=
  forall s,
    post m s (fun a s' => frame s s' /\ P a) (fun e s' => frame s s' /\ Ex e).

(** The exits of a run that only reads: the error path or a stalled host;
    and those of a run that also stores into [data]: a store out of bounds
    is possible only where the bounds [G] fail. *)
Definition io_exit (e : exit) : Prop := e = Reset \/ e = Blocked.
Definition exits (G : Prop) (e : exit) : Prop :=
  e = Reset \/ e = Blocked \/ (e = Fault /\ ~ G).

Lemma io_exit_exits G e : io_exit e -> exits G e.
Proof. unfold io_exit, exits. tauto. Qed.

Lemma framed_ret {A} (a : A) (P : A -> Prop) Ex : P a -> framed (ret a) P Ex.
Proof. intros H s. split; [apply frame_refl | exact H]. Qed.

Lemma framed_stop {A} e (P : A -> Prop) (Ex : exit -> Prop) :
  Ex e -> framed (stop e) P Ex.
Proof. intros H s. split; [apply frame_refl | exact H]. Qed.

Lemma framed_bind {A B} (m : M A) (f : A -> M B) P P' Ex :
  framed m P Ex -> (forall a, P a -> framed (f a) P' Ex) ->
  framed (bind m f) P' Ex.
Proof.
  intros Hm Hf s. specialize (Hm s). unfold post, bind in *.
  destruct (m s) as [a s1|e s1].
  - destruct Hm as [H1 Ha]. specialize (Hf a Ha s1). unfold post in Hf.
    destruct (f a s1) as [b s2|e s2]; destruct Hf as [H2 Hb];
      (split; [eapply frame_trans; eassumption | exact Hb]).
  - exact Hm.
Qed.

Lemma framed_weaken {A} (m : M A) (P P' : A -> Prop) (Ex Ex' : exit -> Prop) :
  framed m P Ex -> (forall a, P a -> P' a) -> (forall e, Ex e -> Ex' e) ->
  framed m P' Ex'.
Proof.
  intros Hm HP HE s. eapply post_weaken; [apply Hm | |]; cbv beta;
    intros ? ? [? ?]; auto.
Qed.

Lemma framed_send_err {A} (k : M A) (P : A -> Prop) G :
  framed (send_err ;; k) P (exits G).
Proof.
  intros s. unfold post, bind. rewrite send_err_stop.
  split; [apply error_exit_frame | left; reflexivity].
Qed.

Lemma framed_print_bolt Ex : framed print_bolt (fun _ => True) Ex.
Proof.
  intros s. unfold post. rewrite print_bolt_ok. split; [|exact I].
  unfold frame.
  pose proof (bolt_printed_flash s). pose proof (bolt_printed_buffers s).
  pose proof (bolt_printed_rx2 s). intuition congruence.
Qed.

Lemma framed_uart_write u b Ex : framed (uart_write u b) (fun _ => True) Ex.
Proof. intros s. split; [apply emit_frame | exact I]. Qed.

Lemma framed_get_data Ex : framed get_data (fun _ => True) Ex.
Proof. intros s. split; [apply frame_refl | exact I]. Qed.

Lemma framed_get_fw_release_message Ex :
  framed get_fw_release_message (fun _ => True) Ex.
Proof. intros s. split; [apply frame_refl | exact I]. Qed.

Lemma framed_flash_read8 a Ex : framed (flash_read8 a) (fun _ => True) Ex.
Proof. intros s. split; [apply frame_refl | exact I]. Qed.

Lemma framed_uart_read1 bl G : framed (uart_read UART1 bl) (fun _ => True) (exits G).
Proof.
  intros s. unfold post.
  destruct (rx (uart1 s)) as [|[b ok] rest] eqn:Hrx.
  - rewrite uart_read_nil by exact Hrx.
    split; [apply frame_refl | right; left; reflexivity].
  - rewrite (uart_read_cons b ok rest) by exact Hrx.
    split; [repeat split | exact I].
Qed.

Lemma framed_check_read r G : framed (check_read r) (fun v => v = 0) (exits G).
Proof.
  intros s. unfold post, check_read, bind.
  destruct (r =? 0).
  - rewrite send_err_stop. split; [apply error_exit_frame | left; reflexivity].
  - split; [apply frame_refl | reflexivity].
Qed.

Lemma framed_data_store k v (G : Prop) :
  (G -> 0 <= k < DATA_SIZE) -> framed (data_store k v) (fun _ => True) (exits G).
Proof.
  intros HG s. unfold post, data_store.
  destruct ((0 <=? k) && (k <? DATA_SIZE)) eqn:Hk.
  - split; [|exact I]. repeat split. cbn [data set_data]. apply length_insert.
  - split; [apply frame_refl|]. right; right. split; [reflexivity|].
    intros Hg. specialize (HG Hg). lia.
Qed.

Lemma framed_for_range Ex (body : Z -> M unit) n : forall i,
  (forall j, i <= j < i + Z.of_nat n -> framed (body j) (fun _ => True) Ex) ->
  framed (for_range n i body) (fun _ => True) Ex.
Proof.
  induction n as [|n IH]; intros i Hb.
  - apply framed_ret. exact I.
  - cbn [for_range]. eapply framed_bind; [apply Hb; lia|].
    intros _ _. apply IH. intros j Hj. apply Hb. lia.
Qed.

Lemma framed_uart_read_variable u bl da len G :
  framed (uart_read_variable u bl da len)
    (fun da' => length da' = length da) (exits G).
Proof.
  intros s. eapply post_weaken; [apply uart_read_variable_post | |]; cbv beta.
  - intros da' s' [H1 H2]. split; [apply reads_frame, H1 | exact H2].
  - intros e s' H. apply halts_frame in H. destruct H as [H1 H2].
    split; [exact H1 | apply io_exit_exits, H2].
Qed.

Lemma framed_message_store k v Ex :
  framed (message_store k v) (fun _ => True) Ex.
Proof.
  intros s. split; [|exact I]. repeat split.
  cbn [fw_release_message set_fw_release_message]. apply length_insert.
Qed.

Lemma framed_read_release_loop G n : forall i,
  framed (read_release_loop n i) (fun _ => True) (exits G).
Proof.
  induction n as [|n IH]; intros i.
  - apply framed_ret. exact I.
  - cbn [read_release_loop].
    eapply framed_bind; [apply framed_uart_read1|]. intros [b rd] _.
    eapply framed_bind; [apply framed_message_store|]. intros _ _.
    eapply framed_bind; [apply framed_check_read|]. intros r ->.
    cbn [Z.eqb negb]. apply IH.
Qed.

Lemma framed_read_release_message n G :
  framed (read_release_message n) (fun _ => True) (exits G).
Proof.
  unfold read_release_message.
  eapply framed_bind; [apply framed_read_release_loop|]. intros _ _.
  apply framed_get_fw_release_message.
Qed.

Section Framed.
Context (X : Extern).

Lemma framed_sha_hmac data len G :
  framed (sha_hmac X data len) (fun r => r = 32) (exits G).
Proof.
  intros s. eapply post_weaken; [apply sha_hmac_post | |]; cbv beta.
  - intros r s' [H1 H2]. split; [apply reads_frame, H2 | exact H1].
  - intros e s' H. apply halts_frame in H. destruct H as [H1 H2].
    split; [exact H1 | apply io_exit_exits, H2].
Qed.

Lemma framed_gcm_decrypt_and_verify ct_len G :
  framed (gcm_decrypt_and_verify X ct_len) (fun r => r = 1) (exits G).
Proof.
  intros s. eapply post_weaken; [apply gcm_decrypt_and_verify_post | |];
    cbv beta.
  - intros r s' (H1 & H2 & _). auto.
  - intros e s' [H1 H2]. split; [exact H1 | apply io_exit_exits, H2].
Qed.

End Framed.

(** ** Sizes and frame numbers *)

Lemma le16_range b k : 0 <= le16 b k < 65536.
Proof. unfold le16, to_u16. apply Z.mod_pos_bound. lia. Qed.

(** The [double] expression of [frame_number], as integer arithmetic. *)
Lemma Qceiling_pages size :
  Qceiling (inject_Z size / inject_Z FLASH_PAGESIZE)%Q = (size + 1023) / 1024.
Proof.
  unfold Qceiling, Qfloor, Qdiv, Qmult, Qinv, Qopp, inject_Z, FLASH_PAGESIZE.
  cbn [Qnum Qden Z.mul Pos.mul].
  Z.div_mod_to_equations. lia.
Qed.

Section FrameNumber.
Context (X : Extern).

Lemma frame_number_of_range size : 0 <= frame_number_of X size < 65536.
Proof.
  unfold frame_number_of, double_to_u16.
  destruct (_ <? 0).
  - apply u16_of_negative_range.
  - unfold to_u16. apply Z.mod_pos_bound. lia.
Qed.

(** For a size of at least one byte the frame number is the index of the
    last page. *)
Lemma frame_number_of_pos size :
  1 <= size < 65536 -> frame_number_of X size = (size - 1) / 1024.
Proof.
  intros H. unfold frame_number_of, double_to_u16.
  rewrite Qceiling_pages.
  replace ((size + 1023) / 1024 - 1 <? 0) with false
    by (symmetry; apply Z.ltb_ge; Z.div_mod_to_equations; lia).
  unfold to_u16. rewrite Z.mod_small; Z.div_mod_to_equations; lia.
Qed.

(** For a size of zero it is whatever the conversion of -1 gives. *)
Lemma frame_number_of_zero : frame_number_of X 0 = u16_of_negative X.
Proof. reflexivity. Qed.

End FrameNumber.

(** ** The receive phase keeps the frame *)

Section Receive.
Context (X : Extern).

Lemma framed_read_frame_loop index size (G : Prop) n : forall i br,
  (G -> 0 <= FLASH_PAGESIZE * index + i /\
        FLASH_PAGESIZE * index + i + Z.of_nat n <= DATA_SIZE) ->
  framed (read_frame_loop n i index size br)
    (fun ib => fst ib = i + Z.of_nat n) (exits G).
Proof.
  induction n as [|n IH]; intros i br HG.
  - apply framed_ret. cbn. lia.
  - cbn [read_frame_loop].
    eapply framed_bind; [apply framed_uart_read1|]. intros [b rd] _.
    eapply framed_bind; [apply framed_data_store; intros Hg; specialize (HG Hg); lia|].
    intros _ _. cbv zeta.
    eapply framed_bind; [apply framed_check_read|]. intros r ->.
    cbn [Z.eqb negb].
    destruct (_ >? size); [apply framed_send_err|].
    eapply framed_weaken; [apply IH | | auto].
    + intros Hg. specialize (HG Hg). lia.
    + cbv beta. intros ib Hib. lia.
Qed.

Lemma framed_frame_payload f index frame_length size br (G : Prop) :
  (G -> 0 <= index <= 30) -> 0 <= frame_length <= FLASH_PAGESIZE ->
  framed (frame_payload X f index frame_length size br)
    (fun _ => True) (exits G).
Proof.
  intros HG Hlen. unfold frame_payload.
  eapply framed_bind.
  { apply framed_read_frame_loop. intros Hg. specialize (HG Hg).
    unfold FLASH_PAGESIZE, DATA_SIZE, FW_MAX_SIZE, FW_METADATA_SIZE,
      RELEASE_MAX_SIZE in *. lia. }
  intros [i br'] Hi. cbn [fst snd] in *.
  eapply framed_bind.
  { apply framed_for_range. intros j Hj. apply framed_data_store.
    intros Hg. specialize (HG Hg).
    unfold FLASH_PAGESIZE, DATA_SIZE, FW_MAX_SIZE, FW_METADATA_SIZE,
      RELEASE_MAX_SIZE in *. lia. }
  intros _ _.
  eapply framed_bind; [apply framed_get_data|]. intros d _.
  eapply framed_bind; [apply framed_sha_hmac|]. intros r ->.
  cbn [Z.eqb].
  eapply framed_bind; [apply framed_uart_write|]. intros _ _.
  apply framed_ret. exact I.
Qed.

Lemma framed_frames_loop version size frame_number (G : Prop) fuel :
  forall index_check br,
  0 <= index_check <= frame_number -> frame_number < 65536 ->
  frame_number - index_check < Z.of_nat fuel ->
  (G -> frame_number <= 30) ->
  framed (frames_loop X fuel version size frame_number index_check br)
    (fun _ => True) (exits G).
Proof.
  induction fuel as [|fuel IH]; intros ic br Hic Hfn Hfuel HG.
  - exfalso. cbn in Hfuel. lia.
  - cbn [frames_loop].
    eapply framed_bind; [apply framed_uart_read_variable|]. intros f _.
    eapply framed_bind; [apply framed_sha_hmac|]. intros r ->.
    cbn [Z.eqb]. cbv zeta.
    pose proof (le16_range f 0) as R0. pose proof (le16_range f 2) as R2.
    destruct (le16 f 0 =? ic) eqn:E1; cbn [negb orb]; [|apply framed_send_err].
    destruct (le16 f 0 >? frame_number) eqn:E2; [apply framed_send_err|].
    destruct (le16 f 2 >? FLASH_PAGESIZE) eqn:E3; [apply framed_send_err|].
    destruct (negb (version =? le16 f 4) || (le16 f 4 =? 1));
      [apply framed_send_err|].
    apply Z.eqb_eq in E1.
    eapply framed_bind.
    { apply framed_frame_payload; [intros Hg; specialize (HG Hg); lia | lia]. }
    intros br' _.
    destruct (le16 f 0 =? frame_number) eqn:E4; [apply framed_ret; exact I|].
    apply Z.eqb_neq in E4.
    replace (to_u16 (ic + 1)) with (ic + 1)
      by (unfold to_u16; rewrite Z.mod_small; lia).
    apply IH; [lia | lia | lia | exact HG].
Qed.

(** Steps 2 to 7: the frame is kept, the only exits are the error path, a
    stalled host, or a store out of bounds where the sizes are not those
    the metadata stage lets through. *)
Lemma framed_load_firmware_receive metadata version size r_msg_size fn :
  0 <= fn < 65536 ->
  framed (load_firmware_receive X (metadata, version, size, r_msg_size, fn))
    (fun c => c = (metadata, version, size, r_msg_size))
    (exits (fn <= 30 /\ 0 <= size <= FW_MAX_SIZE /\
            0 <= r_msg_size <= RELEASE_MAX_SIZE)).
Proof.
  intros Hfn. unfold load_firmware_receive.
  set (G := fn <= 30 /\ 0 <= size <= FW_MAX_SIZE /\
            0 <= r_msg_size <= RELEASE_MAX_SIZE).
  eapply framed_bind.
  { apply framed_frames_loop; [lia | lia | lia | unfold G; tauto]. }
  intros br _.
  destruct (negb (size =? br)); [apply framed_send_err|].
  eapply framed_bind; [apply framed_get_data|]. intros d _.
  eapply framed_bind; [apply framed_sha_hmac|]. intros r ->. cbn [Z.eqb].
  eapply framed_bind; [apply framed_uart_write|]. intros _ _.
  eapply framed_bind; [apply framed_read_release_message|]. intros m _.
  eapply framed_bind; [apply framed_sha_hmac|]. intros r ->. cbn [Z.eqb].
  eapply framed_bind; [apply framed_uart_write|]. intros _ _.
  eapply framed_bind.
  { apply framed_for_range. intros j Hj. apply framed_data_store.
    unfold G, DATA_SIZE, FW_MAX_SIZE, FW_METADATA_SIZE, RELEASE_MAX_SIZE.
    lia. }
  intros _ _.
  eapply framed_bind.
  { apply framed_for_range. intros j Hj.
    eapply framed_bind; [apply framed_get_fw_release_message|]. intros m' _.
    apply framed_data_store.
    unfold G, DATA_SIZE, FW_MAX_SIZE, FW_METADATA_SIZE, RELEASE_MAX_SIZE in *.
    lia. }
  intros _ _.
  eapply framed_bind; [apply framed_get_data|]. intros d' _.
  eapply framed_bind; [apply framed_sha_hmac|]. intros r ->. cbn [Z.eqb].
  eapply framed_bind.
  { apply framed_for_range. intros j Hj. apply framed_data_store.
    unfold G, DATA_SIZE, FW_MAX_SIZE, FW_METADATA_SIZE, RELEASE_MAX_SIZE in *.
    lia. }
  intros _ _.
  eapply framed_bind; [apply framed_uart_write|]. intros _ _.
  eapply framed_bind; [apply framed_gcm_decrypt_and_verify|]. intros r ->.
  cbn [Z.eqb].
  eapply framed_bind; [apply framed_uart_write|]. intros _ _.
  apply framed_ret. reflexivity.
Qed.

(** Step 1: the frame is kept; what it returns are the fields of the
    metadata, within the bounds the code checks. *)
Lemma framed_load_firmware_metadata :
  framed (load_firmware_metadata X)
    (fun c => let '(m, v, size, r, fn) := c in
       v = le16 m 0 /\ size = le16 m 2 /\ r = le16 m 4 /\
       fn = frame_number_of X size /\
       0 <= size <= FW_MAX_SIZE /\ 0 <= r <= RELEASE_MAX_SIZE)
    io_exit.
Proof.
  eapply framed_weaken with (Ex := exits True);
    [ | intros a H; exact H
      | intros e [H|[H|[_ H]]]; unfold io_exit; tauto ].
  unfold load_firmware_metadata.
  eapply framed_bind; [apply framed_print_bolt|]. intros _ _.
  eapply framed_bind; [apply framed_uart_read_variable|]. intros m _.
  eapply framed_bind; [apply framed_sha_hmac|]. intros r ->. cbn [Z.eqb].
  cbv zeta.
  eapply framed_bind; [apply framed_flash_read8|]. intros hi _.
  eapply framed_bind; [apply framed_flash_read8|]. intros lo _.
  destruct (_ && _); [apply framed_send_err|].
  destruct (le16 m 2 >? FW_MAX_SIZE) eqn:E1; [apply framed_send_err|].
  destruct (le16 m 4 >? RELEASE_MAX_SIZE) eqn:E2; [apply framed_send_err|].
  eapply framed_bind; [apply framed_uart_write|]. intros _ _.
  apply framed_ret.
  pose proof (le16_range m 2). pose proof (le16_range m 4).
  repeat split; lia.
Qed.

End Receive.

(** ** Steps that only consume input *)

(** Between [s] and [s'] nothing was written to the host and nothing
    stored: the frame is kept, and so are the bytes sent on UART1 and the
    staging buffer. *)
Definition quiet (s s' : state) : Prop :=
  frame s s' /\ tx (uart1 s') = tx (uart1 s) /\ data s' = data s.

(** A silent stop: stalled, or on the error path with [ERROR] as the one
    byte sent. *)
Definition quiet_stop (s : state) (e : exit) (s' : state) : Prop :=
  (e = Blocked /\ quiet s s') \/
  (e = Reset /\ exists s1, quiet s s1 /\ s' = error_exit s1).

Lemma quiet_refl s : quiet s s.
Proof. split; [apply frame_refl | auto]. Qed.

Lemma quiet_trans s1 s2 s3 : quiet s1 s2 -> quiet s2 s3 -> quiet s1 s3.
Proof.
  intros (F1 & T1 & D1) (F2 & T2 & D2).
  split; [eapply frame_trans; eassumption | split; congruence].
Qed.

Lemma reads_quiet s s' : reads s s' -> quiet s s'.
Proof. intros H. split; [apply reads_frame, H|]. destruct H as [k ->]. auto. Qed.

Lemma bolt_printed_quiet s : quiet s (bolt_printed s).
Proof.
  split.
  - unfold frame.
    pose proof (bolt_printed_flash s). pose proof (bolt_printed_buffers s).
    pose proof (bolt_printed_rx2 s). intuition congruence.
  - rewrite bolt_printed_uart1. split; [reflexivity|].
    apply (bolt_printed_buffers s).
Qed.

Lemma halts_quiet_stop s e s' : halts s e s' -> quiet_stop s e s'.
Proof.
  intros [[-> H]|[-> (s1 & H & ->)]].
  - left. split; [reflexivity | apply reads_quiet, H].
  - right. split; [reflexivity|]. exists s1. split; [apply reads_quiet, H | reflexivity].
Qed.

Lemma quiet_stop_trans s1 s2 e s3 :
  quiet s1 s2 -> quiet_stop s2 e s3 -> quiet_stop s1 e s3.
Proof.
  intros H12 [[-> H]|[-> (s & H & ->)]].
  - left. eauto using quiet_trans.
  - right. split; [reflexivity|]. exists s. eauto using quiet_trans.
Qed.

(** What a silent stop leaves: the flash and the staging buffer as they
    were, and at most [ERROR] sent to the host. *)
Lemma quiet_stop_facts s e s' :
  quiet_stop s e s' ->
  io_exit e /\ frame s s' /\ data s' = data s /\
  (tx (uart1 s') = tx (uart1 s) \/ tx (uart1 s') = tx (uart1 s) ++ [ERROR]).
Proof.
  intros [[-> (F & T & D)]|[-> (s1 & (F & T & D) & ->)]].
  - split; [right; reflexivity|]. auto.
  - split; [left; reflexivity|].
    split; [eapply frame_trans; [exact F | apply error_exit_frame]|].
    split; [rewrite <- D; apply (error_exit_buffers s1)|].
    right. rewrite error_exit_uart1. cbn [tx]. congruence.
Qed.

Section Silent.
Context (X : Extern).

(** The metadata stage once the six metadata bytes are pending: either a
    silent stop, or the fields of these bytes, within the bounds checked,
    and [OK] as the one byte sent. *)
Lemma load_firmware_metadata_from s meta rest :
  rx (uart1 s) = sent meta ++ rest -> length meta = 6%nat ->
  let m := map to_char meta in
  post (load_firmware_metadata X) s
    (fun c s' =>
       c = (m, le16 m 0, le16 m 2, le16 m 4, frame_number_of X (le16 m 2)) /\
       le16 m 2 <= FW_MAX_SIZE /\ le16 m 4 <= RELEASE_MAX_SIZE /\
       (le16 m 0 = 0 \/ stored_version s <= le16 m 0) /\
       exists s1, quiet s s1 /\ s' = emit UART1 [OK] s1)
    (quiet_stop s).
Proof.
  intros Hrx Hmeta m.
  unfold load_firmware_metadata. unfold post, bind at 1. rewrite print_bolt_ok.
  unfold bind at 1.
  rewrite (uart_read_variable_sent _ _ _ _ meta rest);
    [ | rewrite bolt_printed_uart1; exact Hrx | rewrite Hmeta; reflexivity
      | unfold FLASH_PAGESIZE, FW_METADATA_SIZE; lia ].
  rewrite list_inserts_0_full by (rewrite length_map, Hmeta; reflexivity).
  fold m. set (s0 := with_rx1 rest (bolt_printed s)).
  assert (Hq0 : quiet s s0).
  { eapply quiet_trans; [apply bolt_printed_quiet|]. apply reads_quiet.
    apply (reads_with_rx1 _ (sent meta)). rewrite bolt_printed_uart1. exact Hrx. }
  unfold bind at 1.
  pose proof (sha_hmac_post X m FW_METADATA_SIZE s0) as Hh. unfold post in Hh.
  destruct (sha_hmac X m FW_METADATA_SIZE s0) as [r s1|e s1].
  2:{ eapply quiet_stop_trans; [exact Hq0 | apply halts_quiet_stop, Hh]. }
  destruct Hh as [-> Hr]. cbn [Z.eqb].
  assert (Hq1 : quiet s s1) by (eapply quiet_trans; [exact Hq0 | apply reads_quiet, Hr]).
  unfold bind at 1. rewrite flash_read8_ok. unfold bind at 1. rewrite flash_read8_ok.
  assert (Hf : flash s1 = flash s) by apply Hq1. rewrite Hf.
  fold (stored_version s).
  destruct (le16 m 0 =? 0) eqn:E0; cbn [negb andb].
  - destruct (le16 m 2 >? FW_MAX_SIZE) eqn:E1.
    { unfold bind. rewrite send_err_stop. right. eauto. }
    destruct (le16 m 4 >? RELEASE_MAX_SIZE) eqn:E2.
    { unfold bind. rewrite send_err_stop. right. eauto. }
    unfold bind. rewrite uart_write_emit. unfold ret.
    split; [reflexivity|]. split; [lia|]. split; [lia|].
    split; [left; lia|]. exists s1. auto.
  - destruct (le16 m 0 <? stored_version s) eqn:E3.
    { unfold bind. rewrite send_err_stop. right. eauto. }
    destruct (le16 m 2 >? FW_MAX_SIZE) eqn:E1.
    { unfold bind. rewrite send_err_stop. right. eauto. }
    destruct (le16 m 4 >? RELEASE_MAX_SIZE) eqn:E2.
    { unfold bind. rewrite send_err_stop. right. eauto. }
    unfold bind. rewrite uart_write_emit. unfold ret.
    split; [reflexivity|]. split; [lia|]. split; [lia|].
    split; [right; lia|]. exists s1. auto.
Qed.

(** With [version = 1] the first round of the frame loop stops silently:
    the version check lets no header through. *)
Lemma frames_loop_version_one fuel size fn ic br s :
  post (frames_loop X (S fuel) 1 size fn ic br) s
    (fun _ _ => False) (quiet_stop s).
Proof.
  cbn [frames_loop]. unfold post, bind at 1.
  pose proof (uart_read_variable_post UART2 BLOCKING (replicate 6 0)
                FR_METADATA_SIZE s) as H0.
  unfold post in H0.
  destruct (uart_read_variable _ _ _ _ s) as [f s0|e s0];
    [|apply halts_quiet_stop, H0].
  destruct H0 as [Hr0 _]. unfold bind at 1.
  pose proof (sha_hmac_post X f FR_METADATA_SIZE s0) as H1. unfold post in H1.
  destruct (sha_hmac X f FR_METADATA_SIZE s0) as [r s1|e s1].
  2:{ eapply quiet_stop_trans; [apply reads_quiet, Hr0 | apply halts_quiet_stop, H1]. }
  destruct H1 as [-> Hr1]. change (32 =? 0) with false. cbv iota.
  assert (Hq : quiet s s1)
    by (eapply quiet_trans; apply reads_quiet; eassumption).
  destruct (negb (le16 f 0 =? ic) || (le16 f 0 >? fn)).
  { unfold bind. rewrite send_err_stop. right. eauto. }
  destruct (le16 f 2 >? FLASH_PAGESIZE).
  { unfold bind. rewrite send_err_stop. right. eauto. }
  destruct (negb (1 =? le16 f 4) || (le16 f 4 =? 1)) eqn:E.
  { unfold bind. rewrite send_err_stop. right. eauto. }
  exfalso. apply orb_false_iff in E. destruct E as [E1 E2].
  apply negb_false_iff, Z.eqb_eq in E1. apply Z.eqb_neq in E2. congruence.
Qed.

End Silent.

(** ** The flash phase: exits and driver calls *)

(** The driver log has grown from [s] to [s'], by at least one program
    call. *)
Definition log_grows (s s' : state) : Prop :=
  exists l, flash_log s' = flash_log s ++ l.

Definition logs_program (s s' : state) : Prop :=
  exists pre a b st more,
    flash_log s' = flash_log s ++ pre ++ Program a b st :: more.

Lemma log_grows_refl s : log_grows s s.
Proof. exists []. symmetry. apply app_nil_r. Qed.

Lemma logs_program_grows s s' : logs_program s s' -> log_grows s s'.
Proof. intros (pre & a & b & st & more & H). eexists. exact H. Qed.

Lemma logs_program_then s1 s2 s3 :
  logs_program s1 s2 -> log_grows s2 s3 -> logs_program s1 s3.
Proof.
  intros (pre & a & b & st & more & H) (l & H'). rewrite H in H'.
  exists pre, a, b, st, (more ++ l). rewrite H'.
  rewrite <- !app_assoc. reflexivity.
Qed.

Lemma log_grows_then s1 s2 s3 :
  log_grows s1 s2 -> logs_program s2 s3 -> logs_program s1 s3.
Proof.
  intros (l & H') (pre & a & b & st & more & H). rewrite H' in H.
  exists (l ++ pre), a, b, st, more. rewrite H.
  rewrite <- !app_assoc. reflexivity.
Qed.

Lemma error_exit_log_grows s : log_grows s (error_exit s).
Proof. exists []. rewrite app_nil_r. apply (error_exit_flash s). Qed.

(** [program_flash] always returns, after at least one program call, and
    leaves both buffers alone. *)
Lemma program_flash_returns page_addr src len s :
  exists r s', program_flash page_addr src len s = Ok r s' /\
    logs_program s s' /\ data s' = data s /\
    fw_release_message s' = fw_release_message s.
Proof.
  unfold program_flash, bind, FlashErase.
  destruct (negb _).
  - unfold FlashProgram at 1. cbn [flash_log set_flash flash_status].
    destruct (negb _).
    + eexists _, _. split; [reflexivity|]. split; [|auto].
      exists [Erase page_addr]. eexists _, _, _, [].
      cbn [flash_log set_flash]. rewrite <- app_assoc. reflexivity.
    + eexists _, _. split; [reflexivity|]. split; [|auto].
      exists [Erase page_addr]. eexists _, _, _, [_].
      cbn [flash_log set_flash]. rewrite <- !app_assoc. reflexivity.
  - eexists _, _. split; [reflexivity|]. split; [|auto].
    exists [Erase page_addr]. eexists _, _, _, [].
    cbn [flash_log set_flash]. rewrite <- app_assoc. reflexivity.
Qed.

Section FlashPhase.

Lemma flash_firmware_loop_S fuel i page_addr size :
  flash_firmware_loop (S fuel) i page_addr size =
  if i <? size then
    let frame_length := to_u16 (size - i) in
    let frame_length :=
      if frame_length >? FLASH_PAGESIZE then FLASH_PAGESIZE
      else frame_length in
    d <- get_data ;;
    r <- program_flash page_addr (drop (Z.to_nat i) d) frame_length ;;
    if negb (r =? 0) then send_err ;; return_ else
    flash_firmware_loop fuel (i + FLASH_PAGESIZE)
      (to_u32 (page_addr + FLASH_PAGESIZE)) size
  else ret tt.
Proof. reflexivity. Qed.

(** The page loop returns or takes the error path; one round per page and
    one more for the exit test are fuel enough. *)
Lemma flash_firmware_loop_exits size fuel : forall i page_addr s,
  size - i <= FLASH_PAGESIZE * Z.of_nat fuel ->
  post (flash_firmware_loop (S fuel) i page_addr size) s
    (fun _ s' => log_grows s s' /\ (i < size -> logs_program s s') /\
                 data s' = data s /\
                 fw_release_message s' = fw_release_message s)
    (fun e s' => e = Reset /\ logs_program s s').
Proof.
  induction fuel as [|fuel IH]; intros i page_addr s Hfuel;
    rewrite flash_firmware_loop_S; unfold post;
    (destruct (i <? size) eqn:Hi;
     [ apply Z.ltb_lt in Hi
     | unfold ret; cbv beta iota; apply Z.ltb_ge in Hi;
       split; [apply log_grows_refl|]; split; [lia | auto] ]).
  - exfalso. unfold FLASH_PAGESIZE in *. lia.
  - unfold bind at 1, get_data. unfold bind at 1.
    destruct (program_flash_returns page_addr (drop (Z.to_nat i) (data s))
                (if to_u16 (size - i) >? FLASH_PAGESIZE then FLASH_PAGESIZE
                 else to_u16 (size - i)) s)
      as (r & s1 & Hrun & Hlog & Hd & Hm).
    rewrite Hrun. destruct (negb (r =? 0)).
    + unfold bind. rewrite send_err_stop. split; [reflexivity|].
      eapply logs_program_then; [exact Hlog | apply error_exit_log_grows].
    + specialize (IH (i + FLASH_PAGESIZE) (to_u32 (page_addr + FLASH_PAGESIZE)) s1).
      unfold post in IH.
      destruct (flash_firmware_loop (S fuel) _ _ size s1) as [u s2|e s2].
      * destruct IH as (G & _ & D & Mm); [unfold FLASH_PAGESIZE in *; lia|].
        pose proof (logs_program_then s s1 s2 Hlog G) as G'.
        split; [apply logs_program_grows, G'|].
        split; [intros _; exact G'|]. split; congruence.
      * destruct IH as (-> & G); [unfold FLASH_PAGESIZE in *; lia|].
        split; [reflexivity|].
        eapply logs_program_then; [exact Hlog | apply logs_program_grows, G].
Qed.

(** The flash phase returns or takes the error path, and in either case
    has made a program call; the staging buffer is not written. *)
Lemma load_firmware_flash_exits metadata version size r_msg_size s :
  0 <= size ->
  post (load_firmware_flash (metadata, version, size, r_msg_size)) s
    (fun _ s' => logs_program s s' /\ data s' = data s)
    (fun e s' => e = Reset /\ logs_program s s').
Proof.
  intros Hsize. unfold load_firmware_flash, post. unfold bind at 1.
  pose proof (flash_firmware_loop_exits size (Z.to_nat size) 0 FW_BASE s) as H.
  unfold post in H.
  destruct (flash_firmware_loop _ 0 FW_BASE size s) as [u s1|e s1].
  2:{ apply H. unfold FLASH_PAGESIZE. lia. }
  destruct H as (G1 & _ & D1 & M1); [unfold FLASH_PAGESIZE; lia|].
  unfold bind at 1.
  assert (Hm : exists m', (if version =? 0
            then b0 <- flash_read8 METADATA_BASE;;
                 b1 <- flash_read8 (METADATA_BASE + 1);;
                 ret (<[1%nat:=to_char b1]> (<[0%nat:=to_char b0]> metadata))
            else ret metadata) s1 = Ok m' s1).
  { destruct (version =? 0); eexists; reflexivity. }
  destruct Hm as [m' ->].
  unfold bind at 1.
  destruct (program_flash_returns METADATA_BASE m' FW_METADATA_SIZE s1)
    as (r & s2 & Hrun & Hlog & Hd & Hmm).
  rewrite Hrun.
  assert (G2 : logs_program s s2) by (eapply log_grows_then; eassumption).
  destruct (negb (r =? 0)).
  { unfold bind. rewrite send_err_stop. split; [reflexivity|].
    eapply logs_program_then; [exact G2 | apply error_exit_log_grows]. }
  unfold bind at 1, get_fw_release_message. unfold bind at 1.
  destruct (program_flash_returns RELEASE_BASE (fw_release_message s2)
              r_msg_size s2) as (r' & s3 & Hrun' & Hlog' & Hd' & Hmm').
  rewrite Hrun'.
  assert (G3 : logs_program s s3)
    by (eapply logs_program_then; [exact G2 | apply logs_program_grows, Hlog']).
  destruct (negb (r' =? 0)).
  { unfold bind. rewrite send_err_stop. split; [reflexivity|].
    eapply logs_program_then; [exact G3 | apply error_exit_log_grows]. }
  unfold ret. split; [exact G3 | congruence].
Qed.

End FlashPhase.

(** ** [load_firmware] as a whole *)

Lemma post_Ok {A} (m : M A) s Q E a s' :
  post m s Q E -> m s = Ok a s' -> Q a s'.
Proof. unfold post. intros H Hm. rewrite Hm in H. exact H. Qed.

Lemma post_Stop {A} (m : M A) s (Q : A -> state -> Prop) E e s' :
  post m s Q E -> m s = Stop e s' -> E e s'.
Proof. unfold post. intros H Hm. rewrite Hm in H. exact H. Qed.

Lemma post_intro {A} (m : M A) s (Q : A -> state -> Prop)
    (E : exit -> state -> Prop) :
  (forall a s', m s = Ok a s' -> Q a s') ->
  (forall e s', m s = Stop e s' -> E e s') ->
  post m s Q E.
Proof. unfold post. destruct (m s); auto. Qed.

Lemma void_fn_Stop_inv body s e s' :
  void_fn body s = Stop e s' -> body s = Stop e s' /\ e <> Returned.
Proof.
  unfold void_fn. destruct (body s) as [a s1|[] s1]; intros H;
    inversion H; subst; split; congruence.
Qed.

Lemma void_fn_Ok body s s' :
  body s = Ok tt s' -> void_fn body s = Ok tt s'.
Proof. unfold void_fn. intros ->. reflexivity. Qed.

Lemma framed_Ok {A} (m : M A) P Ex s a s' :
  framed m P Ex -> m s = Ok a s' -> frame s s' /\ P a.
Proof. intros H. apply (post_Ok m s _ _ a s' (H s)). Qed.

Lemma framed_Stop {A} (m : M A) (P : A -> Prop) Ex s e s' :
  framed m P Ex -> m s = Stop e s' -> frame s s' /\ Ex e.
Proof. intros H. apply (post_Stop m s _ _ e s' (H s)). Qed.

Section Whole.
Context (X : Extern).

(** Steps 1 to 7 of [load_firmware]: all that happens before the flash
    writes. *)
Definition load_firmware_verify : M (list Z * Z * Z * Z) :=
  c <- load_firmware_metadata X ;; load_firmware_receive X c.

Lemma load_firmware_split s :
  load_firmware X s =
  void_fn (c <- load_firmware_verify ;; load_firmware_flash c) s.
Proof.
  unfold load_firmware, load_firmware_verify, void_fn, bind.
  destruct (load_firmware_metadata X s) as [c s1|e s1]; reflexivity.
Qed.

Lemma load_firmware_verify_eq :
  load_firmware_verify =
  bind (load_firmware_metadata X) (fun c => load_firmware_receive X c).
Proof. reflexivity. Qed.

(** A stop in steps 1 to 7 is the outcome of [load_firmware]. *)
Lemma load_firmware_verify_stop s e s' :
  load_firmware_verify s = Stop e s' -> e <> Returned ->
  load_firmware X s = Stop e s'.
Proof.
  intros H He. rewrite load_firmware_split.
  apply void_fn_stop; [|exact He]. apply bind_Stop. exact H.
Qed.

(** Steps 1 to 7 keep the frame.  They end on the error path or on a
    stalled host; a store can leave the staging buffer only for a size of
    zero, where the frame number is the converted -1, if that is above
    30. *)
Lemma framed_load_firmware_verify :
  framed load_firmware_verify
    (fun c => let '(m, v, size, r) := c in 0 <= size <= FW_MAX_SIZE)
    (exits (u16_of_negative X <= 30)).
Proof.
  unfold load_firmware_verify.
  eapply framed_bind.
  { eapply framed_weaken;
      [apply framed_load_firmware_metadata | intros a H; exact H
      | apply io_exit_exits ]. }
  intros [[[[m v] size] r] fn] (Hv & Hs & Hr & Hfn & Bs & Br).
  eapply framed_weaken.
  - apply framed_load_firmware_receive. rewrite Hfn. apply frame_number_of_range.
  - cbv beta. intros c' ->. exact Bs.
  - intros e [H|[H|[H Hn]]]; [left; exact H | right; left; exact H |].
    right; right. split; [exact H|]. intros Hneg. apply Hn.
    split; [|split; assumption].
    rewrite Hfn. destruct (Z.eq_dec size 0) as [->|Hne].
    + rewrite frame_number_of_zero. exact Hneg.
    + rewrite frame_number_of_pos by (unfold FW_MAX_SIZE in Bs; lia).
      unfold FW_MAX_SIZE in Bs. Z.div_mod_to_equations. lia.
Qed.

(** [load_firmware] returns or stops for a reason of the device: the loops
    of the model never run out of fuel, and no [return;] is reached other
    than at the end. *)
Lemma load_firmware_stop_cases s e s' :
  load_firmware X s = Stop e s' ->
  (load_firmware_verify s = Stop e s' /\ frame s s' /\
   exits (u16_of_negative X <= 30) e) \/
  (exists c s1, load_firmware_verify s = Ok c s1 /\ frame s s1 /\
     e = Reset /\ logs_program s1 s').
Proof.
  intros Hrun. rewrite load_firmware_split in Hrun.
  apply void_fn_Stop_inv in Hrun. destruct Hrun as [Hrun _].
  destruct (load_firmware_verify s) as [[[[m v] size] r] s1|e1 s1] eqn:Hv.
  - right. rewrite (bind_Ok _ _ _ _ _ Hv) in Hrun.
    destruct (framed_Ok _ _ _ _ _ _ framed_load_firmware_verify Hv) as [Hf Hs].
    destruct (post_Stop _ _ _ _ _ _
                (load_firmware_flash_exits m v size r s1 (proj1 Hs)) Hrun)
      as [-> Hl].
    eauto 6.
  - left. rewrite (bind_Stop _ _ _ _ _ Hv) in Hrun. injection Hrun as <- <-.
    split; [reflexivity|].
    apply (framed_Stop _ _ _ _ _ _ framed_load_firmware_verify Hv).
Qed.

Lemma load_firmware_exits s :
  post (load_firmware X) s (fun _ _ => True)
    (fun e _ => exits (u16_of_negative X <= 30) e).
Proof.
  apply post_intro; [auto|]. intros e s' Hrun.
  destruct (load_firmware_stop_cases s e s' Hrun)
    as [(_ & _ & He)|(c & s1 & _ & _ & -> & _)]; [exact He | left; reflexivity].
Qed.

End Whole.

(** C3. A stop in steps 1 to 7 (any failed check, a failed read, a stalled
    host) is the outcome of [load_firmware], and in it the flash and the
    log of driver calls are those of the start: nothing was erased or
    programmed.  Put without the steps: if [load_firmware] ends on the
    error path and no program call was logged, then no erase was made
    either and the flash is bit for bit as before. *)
Theorem no_flash_write_before_commit (X : Extern) (s : state) :
  (forall e s', load_firmware_verify X s = Stop e s' ->
     load_firmware X s = Stop e s' /\
     flash s' = flash s /\ flash_log s' = flash_log s) /\
  (forall s', load_firmware X s = Stop Reset s' ->
     (forall a b st,
        ~ In (Program a b st) (drop (length (flash_log s)) (flash_log s'))) ->
     flash s' = flash s /\ flash_log s' = flash_log s).
Proof.
  split.
  - intros e s' Hv.
    destruct (framed_Stop _ _ _ _ _ _ (framed_load_firmware_verify X) Hv)
      as [Hf He].
    split; [|split; apply Hf].
    apply load_firmware_verify_stop; [exact Hv|].
    destruct He as [->|[->|[-> _]]]; discriminate.
  - intros s' Hrun Hnone.
    destruct (load_firmware_stop_cases X s Reset s' Hrun)
      as [(_ & Hf & _)|(c & s1 & _ & Hf & _ & Hl)].
    + split; apply Hf.
    + exfalso. destruct Hl as (pre & a & b & st & more & Hlog).
      apply (Hnone a b st). rewrite Hlog.
      replace (flash_log s1) with (flash_log s) by (symmetry; apply Hf).
      rewrite drop_app_length. apply in_or_app. right. left. reflexivity.
Qed.

(** C10. When the metadata received carries a size of at least one byte,
    no run of [load_firmware] stops at a store outside
    [data[0..DATA_SIZE)]: the code lets a size through only up to
    [FW_MAX_SIZE] and a message size only up to [RELEASE_MAX_SIZE], and
    under those bounds every index it stores to is below [DATA_SIZE]. *)
Theorem staging_stores_stay_in_bounds (X : Extern) (s : state)
    (meta : list Z) (rest : list (Z * bool)) :
  rx (uart1 s) = sent meta ++ rest -> length meta = 6%nat ->
  1 <= le16 (map to_char meta) 2 ->
  forall s', load_firmware X s <> Stop Fault s'.
Proof.
  intros Hrx Hmeta Hsize s' Hrun.
  destruct (load_firmware_stop_cases X s Fault s' Hrun)
    as [(Hv & _ & _)|(c & s1 & _ & _ & He & _)]; [|discriminate He].
  rewrite load_firmware_verify_eq in Hv.
  destruct (load_firmware_metadata X s) as [c s1|e s1] eqn:Hm.
  - rewrite (bind_Ok _ _ _ _ _ Hm) in Hv. cbv beta in Hv.
    destruct (post_Ok _ _ _ _ _ _
                (load_firmware_metadata_from X s meta rest Hrx Hmeta) Hm)
      as (-> & Bs & Br & _ & _).
    set (m := map to_char meta) in *.
    pose proof (le16_range m 2) as R2. pose proof (le16_range m 4) as R4.
    eapply framed_Stop in Hv;
      [|apply framed_load_firmware_receive; apply frame_number_of_range].
    destruct Hv as [_ [He|[He|[_ Hn]]]];
      [discriminate He | discriminate He |].
    apply Hn. split; [|lia].
    rewrite frame_number_of_pos by lia.
    unfold FW_MAX_SIZE in Bs. Z.div_mod_to_equations. lia.
  - rewrite (bind_Stop _ _ _ _ _ Hm) in Hv.
    pose proof (post_Stop _ _ _ _ _ _
                  (load_firmware_metadata_from X s meta rest Hrx Hmeta) Hm)
      as Hq.
    apply quiet_stop_facts in Hq. injection Hv as He _. subst e.
    destruct Hq as [[Hq|Hq] _]; discriminate Hq.
Qed.

(** ** The phases, and the reserved version *)

(** The outcome of a void function whose body ended in [r]. *)
Definition void_result (r : result unit) : result unit :=
  match r with
  | Stop Returned s' => Ok tt s'
  | r => r
  end.

Section Phases.
Context (X : Extern).

(** The three phases of [load_firmware], one after the other. *)
Lemma load_firmware_phases s :
  load_firmware X s =
  void_result
    match load_firmware_metadata X s with
    | Ok c s1 =>
        match load_firmware_receive X c s1 with
        | Ok c' s2 => load_firmware_flash c' s2
        | Stop e s2 => Stop e s2
        end
    | Stop e s1 => Stop e s1
    end.
Proof.
  unfold load_firmware, void_fn, void_result, bind.
  destruct (load_firmware_metadata X s) as [c s1|[] s1]; try reflexivity.
  destruct (load_firmware_receive X c s1) as [c' s2|[] s2]; try reflexivity.
  destruct (load_firmware_flash c' s2) as [u s3|[] s3]; reflexivity.
Qed.

(** With [version = 1] steps 2 to 7 stop silently in the first header. *)
Lemma load_firmware_receive_version_one m size r fn s :
  exists e s', load_firmware_receive X (m, 1, size, r, fn) s = Stop e s' /\
    quiet_stop s e s'.
Proof.
  pose proof (frames_loop_version_one X (Z.to_nat fn) size fn 0 0 s) as H.
  destruct (frames_loop X (S (Z.to_nat fn)) 1 size fn 0 0 s) as [a s'|e s'] eqn:Hf.
  - exfalso. apply (post_Ok _ _ _ _ _ _ H Hf).
  - exists e, s'. split; [|apply (post_Stop _ _ _ _ _ _ H Hf)].
    unfold load_firmware_receive. apply bind_Stop. exact Hf.
Qed.

(** An update whose metadata carries version 1 ends in the metadata stage
    or in the first frame header, silently. *)
Lemma load_firmware_version_one s meta rest :
  rx (uart1 s) = sent meta ++ rest -> length meta = 6%nat ->
  le16 (map to_char meta) 0 = 1 ->
  exists e s', load_firmware X s = Stop e s' /\
    (quiet_stop s e s' \/
     exists s1, quiet s s1 /\ quiet_stop (emit UART1 [OK] s1) e s').
Proof.
  intros Hrx Hmeta Hv. rewrite load_firmware_phases.
  pose proof (load_firmware_metadata_from X s meta rest Hrx Hmeta) as H.
  destruct (load_firmware_metadata X s) as [c s1|e s1] eqn:Hm.
  - destruct (post_Ok _ _ _ _ _ _ H Hm) as (-> & _ & _ & _ & s0 & Hq & ->).
    rewrite Hv.
    destruct (load_firmware_receive_version_one (map to_char meta)
                (le16 (map to_char meta) 2) (le16 (map to_char meta) 4)
                (frame_number_of X (le16 (map to_char meta) 2))
                (emit UART1 [OK] s0)) as (e & s' & -> & Hs).
    exists e, s'. split; [|right; exists s0; split; [exact Hq | exact Hs]].
    destruct (quiet_stop_facts _ _ _ Hs) as [[->| ->] _]; reflexivity.
  - pose proof (post_Stop _ _ _ _ _ _ H Hm) as Hs.
    exists e, s1. split; [|left; exact Hs].
    destruct (quiet_stop_facts _ _ _ Hs) as [[->| ->] _]; reflexivity.
Qed.

End Phases.

(** ** Counting the payload *)

Lemma data_store_ok k v s :
  0 <= k < DATA_SIZE ->
  data_store k v s = Ok tt (set_data (<[Z.to_nat k:=to_u8 v]> (data s)) s).
Proof.
  intros H. unfold data_store.
  replace ((0 <=? k) && (k <? DATA_SIZE)) with true; [reflexivity|].
  symmetry. apply andb_true_iff. split; [apply Z.leb_le | apply Z.ltb_lt]; lia.
Qed.

Lemma read_frame_loop_S n i index size br :
  read_frame_loop (S n) i index size br =
  (b <- uart_read UART1 BLOCKING ;;
   data_store (FLASH_PAGESIZE * index + i) (fst b) ;;
   r <- check_read (snd b) ;;
   if negb (r =? 0) then return_
   else if to_u32 (br + 1) >? size then send_err ;; return_
   else read_frame_loop n (i + 1) index size (to_u32 (br + 1))).
Proof. reflexivity. Qed.

(** A payload that would take the count of bytes above [size] ends on the
    error path, at the first byte above it. *)
Lemma read_frame_loop_overrun index size bs : forall i br rest s,
  rx (uart1 s) = sent bs ++ rest ->
  0 <= FLASH_PAGESIZE * index + i ->
  FLASH_PAGESIZE * index + i + Z.of_nat (length bs) <= DATA_SIZE ->
  0 <= br <= size -> size < 65536 ->
  size < br + Z.of_nat (length bs) ->
  exists s', read_frame_loop (length bs) i index size br s = Stop Reset s' /\
    tx (uart1 s') = tx (uart1 s) ++ [ERROR] /\
    rx (uart1 s') = drop (Z.to_nat (size - br + 1)) (sent bs ++ rest) /\
    flash s' = flash s /\ flash_log s' = flash_log s.
Proof.
  induction bs as [|b bs IH]; intros i br rest s Hrx H0 H1 Hbr Hsz Hover.
  - exfalso. cbn [length] in Hover. lia.
  - cbn [length] in *. rewrite read_frame_loop_S.
    unfold bind at 1.
    rewrite (uart_read_cons b true (sent bs ++ rest)) by exact Hrx.
    cbn [fst snd]. unfold bind at 1. rewrite data_store_ok by lia.
    unfold bind at 1. rewrite check_read_1. cbn [negb Z.eqb].
    replace (to_u32 (br + 1)) with (br + 1)
      by (unfold to_u32; rewrite Z.mod_small; lia).
    destruct (br + 1 >? size) eqn:Hgt.
    + unfold bind. rewrite send_err_stop. eexists. split; [reflexivity|].
      rewrite error_exit_uart1. cbn [tx rx].
      split; [reflexivity|]. split; [|split; reflexivity].
      replace (size - br + 1) with 1 by lia. reflexivity.
    + set (s1 := set_data _ (with_rx1 (sent bs ++ rest) s)).
      destruct (IH (i + 1) (br + 1) rest s1) as (s' & Hrun & Ht & Hr & Hf & Hl);
        try lia; [reflexivity|].
      exists s'. split; [exact Hrun|]. split; [exact Ht|].
      split; [|split; assumption].
      rewrite Hr. replace (Z.to_nat (size - br + 1))
        with (S (Z.to_nat (size - (br + 1) + 1))) by lia.
      reflexivity.
Qed.

(** C5. A frame header whose version field is 1 ends the update on the
    error path, whatever MAC comes with it and whatever the version of the
    update; and an update whose metadata carries version 1 stops, in the
    metadata stage or in the first frame header, before any payload byte
    is read: the host gets at most the acknowledgement of the metadata
    and then [ERROR]. *)
Theorem frame_version_one_is_rejected (X : Extern) :
  (forall fuel version size frame_number index_check bytes_recieved s
          frm mac rest,
     rx (uart1 s) = sent (frm ++ mac) ++ rest ->
     length frm = 6%nat -> length mac = 32%nat ->
     le16 (map to_char frm) 4 = 1 ->
     let s' := error_exit (with_rx1 rest s) in
     frames_loop X (S fuel) version size frame_number index_check
       bytes_recieved s = Stop Reset s' /\
     tx (uart1 s') = tx (uart1 s) ++ [ERROR] /\
     flash s' = flash s /\ data s' = data s) /\
  (forall s meta rest,
     rx (uart1 s) = sent meta ++ rest -> length meta = 6%nat ->
     le16 (map to_char meta) 0 = 1 ->
     exists e s', load_firmware X s = Stop e s' /\
       (e = Reset \/ e = Blocked) /\
       flash s' = flash s /\ flash_log s' = flash_log s /\
       data s' = data s /\
       exists l, tx (uart1 s') = tx (uart1 s) ++ l /\
                 In l [[]; [ERROR]; [OK]; [OK; ERROR]]).
Proof.
  split.
  - intros fuel version size fn ic br s frm mac rest Hrx Hfrm Hmac Hv s'.
    split; [|split; [|split]].
    + apply (frames_loop_header_rejected X fuel version size fn ic br s
               frm mac rest Hrx Hfrm Hmac).
      unfold header_fails. tauto.
    + unfold s'. rewrite error_exit_uart1. reflexivity.
    + apply (error_exit_flash (with_rx1 rest s)).
    + apply (error_exit_buffers (with_rx1 rest s)).
  - intros s meta rest Hrx Hmeta Hv.
    destruct (load_firmware_version_one X s meta rest Hrx Hmeta Hv)
      as (e & s' & Hrun & Hcase).
    exists e, s'. split; [exact Hrun|].
    destruct Hcase as [Hs|(s1 & Hq & Hs)].
    + destruct (quiet_stop_facts _ _ _ Hs) as (He & Hf & Hd & Ht).
      split; [exact He|]. split; [apply Hf|]. split; [apply Hf|].
      split; [exact Hd|].
      destruct Ht as [Ht|Ht].
      * exists []. rewrite app_nil_r. split; [exact Ht | left; reflexivity].
      * exists [ERROR]. split; [exact Ht | right; left; reflexivity].
    + destruct (quiet_stop_facts _ _ _ Hs) as (He & Hf & Hd & Ht).
      destruct Hq as (Hq & Hqt & Hqd).
      split; [exact He|].
      split; [transitivity (flash s1); [apply Hf | apply Hq]|].
      split; [transitivity (flash_log s1); [apply Hf | apply Hq]|].
      split; [rewrite Hd; exact Hqd|].
      cbn [emit set_port uart1 get_port tx] in Ht. rewrite Hqt in Ht.
      destruct Ht as [Ht|Ht].
      * exists [OK]. split; [exact Ht | right; right; left; reflexivity].
      * exists [OK; ERROR]. rewrite Ht, <- app_assoc.
        split; [reflexivity | right; right; right; left; reflexivity].
Qed.

Lemma no_flash_write_before_commit_witness :
  let meta := [7; 0; 5; 0; 3; 0] in
  let s := device (sent (meta ++ replicate 32 0)) [] [] in
  exists s', load_firmware arm s = Stop Reset s' /\
    (forall a b st,
       ~ In (Program a b st) (drop (length (flash_log s)) (flash_log s'))) /\
    flash s' = flash s /\ flash_log s' = flash_log s.
Proof.
  intros meta s.
  destruct (metadata_rejection arm s []) as (s' & Hrun & _ & _ & _ & Hlog).
  { rewrite (load_firmware_metadata_sent arm s meta (replicate 32 0) []
               eq_refl eq_refl eq_refl).
    replace (negb _) with true by (vm_compute; reflexivity). reflexivity. }
  assert (Hnone : forall a b st,
     ~ In (Program a b st) (drop (length (flash_log s)) (flash_log s'))).
  { intros a b st. rewrite Hlog, drop_all. intros []. }
  exists s'. split; [exact Hrun|]. split; [exact Hnone|].
  exact (proj2 (no_flash_write_before_commit arm s) s' Hrun Hnone).
Defined.

(** ** What [program_flash] leaves in the flash *)

Lemma to_u8_range x : 0 <= to_u8 x < 256.
Proof. unfold to_u8. apply Z.mod_pos_bound. lia. Qed.

Lemma to_u8_idem x : to_u8 (to_u8 x) = to_u8 x.
Proof. unfold to_u8. apply Z.mod_mod. lia. Qed.

(** Programming a byte into an erased cell stores the byte. *)
Lemma land_erased x : Z.land 0xFF (to_u8 x) = to_u8 x.
Proof.
  rewrite Z.land_comm. change 0xFF with (Z.ones 8). rewrite Z.land_ones by lia.
  change (2 ^ 8) with 256. apply Z.mod_small, to_u8_range.
Qed.

Lemma at_map_take src len k :
  0 <= k < len ->
  at_ (map to_u8 (take (Z.to_nat len) src)) k = to_u8 (at_ src k).
Proof.
  intros H. unfold at_. change 0 with (to_u8 0) at 1. rewrite map_nth.
  rewrite nth_firstn.
  replace (Z.to_nat k <? Z.to_nat len)%nat with true; [reflexivity|].
  symmetry. apply Nat.ltb_lt. lia.
Qed.

Lemma at_drop l i j : 0 <= i -> 0 <= j -> at_ (drop (Z.to_nat i) l) j = at_ l (i + j).
Proof.
  intros Hi Hj. unfold at_. rewrite nth_skipn. f_equal. lia.
Qed.

Lemma length_map_take src len :
  0 <= len -> (Z.to_nat len <= length src)%nat ->
  Z.of_nat (length (map to_u8 (take (Z.to_nat len) src))) = len.
Proof. intros H0 H. rewrite length_map, length_take_le by exact H. lia. Qed.

Lemma at_seqZ_app (f : Z -> Z) full rem tail j :
  0 <= j < rem ->
  at_ (map f (seqZ full rem) ++ tail) j = f (full + j).
Proof.
  intros H. unfold at_.
  rewrite app_nth1 by (rewrite length_map, length_seqZ; lia).
  rewrite (nth_indep _ 0 (f 0)) by (rewrite length_map, length_seqZ; lia).
  rewrite map_nth. f_equal.
  rewrite nth_lookup, lookup_seqZ_lt by lia. cbn. lia.
Qed.

(** A successful [program_flash] of [len] bytes: the page holds the bytes
    of [src] from its start, whatever lies outside the page is as before,
    and so are the buffers. *)
Lemma program_flash_ok page_addr src len s s' :
  program_flash page_addr src len s = Ok 0 s' ->
  0 <= len <= FLASH_PAGESIZE -> (Z.to_nat len <= length src)%nat ->
  (forall k, 0 <= k < len -> flash s' (page_addr + k) = to_u8 (at_ src k)) /\
  (forall a, ~ (page_addr <= a < page_addr + FLASH_PAGESIZE) ->
             flash s' a = flash s a) /\
  data s' = data s /\ fw_release_message s' = fw_release_message s.
Proof.
  intros Hrun Hlen Hsrc. unfold FLASH_PAGESIZE in *.
  unfold program_flash, bind, FlashErase in Hrun.
  destruct (len mod FLASH_WRITESIZE =? 0) eqn:Hrem; cbn [negb] in Hrun.
  - unfold FlashProgram in Hrun. cbn [flash flash_status set_flash] in Hrun.
    injection Hrun as Hst <-. rewrite Hst. cbn [Z.eqb flash set_flash data fw_release_message].
    rewrite length_map_take by lia.
    split; [|split; [|split; reflexivity]].
    + intros k Hk.
      replace ((page_addr <=? page_addr + k) && (page_addr + k <? page_addr + len))
        with true by (symmetry; apply andb_true_iff; split; [apply Z.leb_le | apply Z.ltb_lt]; lia).
      replace ((page_addr <=? page_addr + k) && (page_addr + k <? page_addr + FLASH_PAGESIZE))
        with true by (symmetry; apply andb_true_iff; unfold FLASH_PAGESIZE; split; [apply Z.leb_le | apply Z.ltb_lt]; lia).
      replace (page_addr + k - page_addr) with k by lia.
      rewrite at_map_take by lia. apply land_erased.
    + intros a Ha.
      replace ((page_addr <=? a) && (a <? page_addr + len)) with false
        by (symmetry; apply andb_false_iff; rewrite Z.leb_gt, Z.ltb_ge; lia).
      replace ((page_addr <=? a) && (a <? page_addr + FLASH_PAGESIZE)) with false
        by (symmetry; apply andb_false_iff; unfold FLASH_PAGESIZE; rewrite Z.leb_gt, Z.ltb_ge; lia).
      reflexivity.
  - apply Z.eqb_neq in Hrem.
    set (rem := len mod FLASH_WRITESIZE) in *.
    set (full := len - rem) in *.
    assert (Hr : 1 <= rem <= 3)
      by (unfold rem, FLASH_WRITESIZE in *; Z.div_mod_to_equations; lia).
    assert (Hfull : 0 <= full /\ full + 4 <= 1024 /\ full mod 4 = 0)
      by (unfold full, rem, FLASH_WRITESIZE in *; Z.div_mod_to_equations; lia).
    unfold FlashProgram at 1 in Hrun.
    cbn [flash flash_status set_flash flash_log] in Hrun.
    destruct (hd 0 (flash_status s) =? 0) eqn:Hst1; cbn [negb] in Hrun.
    2:{ unfold ret in Hrun. injection Hrun as Hst _. rewrite Hst in Hst1.
        discriminate Hst1. }
    unfold FlashProgram in Hrun.
    cbn [flash flash_status set_flash flash_log] in Hrun.
    injection Hrun as Hst <-. rewrite Hst.
    cbn [Z.eqb flash set_flash data fw_release_message].
    set (w := last_word_fill (Z.to_nat (4 - rem))
                (last_word_shift (Z.to_nat rem) 0 src full 0)).
    change [to_u8 (Z.land w 255); to_u8 (Z.land (Z.shiftr w 8) 255);
            to_u8 (Z.land (Z.shiftr w 16) 255);
            to_u8 (Z.land (Z.shiftr w 24) 255)]
      with (map to_u8 (word_bytes w)).
    unfold w. rewrite word_bytes_bytes, last_word_bytes by exact Hr.
    rewrite length_map_take by lia.
    change (Z.of_nat 4) with 4.
    split; [|split; [|split; reflexivity]].
    + intros k Hk. destruct (Z.lt_ge_cases k full) as [Hlt|Hge].
      * replace ((page_addr + full <=? page_addr + k) &&
                 (page_addr + k <? page_addr + full + 4)) with false
          by (symmetry; apply andb_false_iff; rewrite Z.leb_gt, Z.ltb_ge; lia).
        replace ((page_addr <=? page_addr + k) && (page_addr + k <? page_addr + full))
          with true by (symmetry; apply andb_true_iff; split; [apply Z.leb_le | apply Z.ltb_lt]; lia).
        replace ((page_addr <=? page_addr + k) && (page_addr + k <? page_addr + FLASH_PAGESIZE))
          with true by (symmetry; apply andb_true_iff; unfold FLASH_PAGESIZE; split; [apply Z.leb_le | apply Z.ltb_lt]; lia).
        replace (page_addr + k - page_addr) with k by lia.
        rewrite at_map_take by lia. apply land_erased.
      * replace ((page_addr + full <=? page_addr + k) &&
                 (page_addr + k <? page_addr + full + 4)) with true
          by (symmetry; apply andb_true_iff; split; [apply Z.leb_le | apply Z.ltb_lt]; lia).
        replace ((page_addr <=? page_addr + k) && (page_addr + k <? page_addr + full))
          with false by (symmetry; apply andb_false_iff; rewrite Z.leb_gt, Z.ltb_ge; lia).
        replace ((page_addr <=? page_addr + k) && (page_addr + k <? page_addr + FLASH_PAGESIZE))
          with true by (symmetry; apply andb_true_iff; unfold FLASH_PAGESIZE; split; [apply Z.leb_le | apply Z.ltb_lt]; lia).
        replace (page_addr + k - (page_addr + full)) with (k - full) by lia.
        rewrite (at_seqZ_app (fun k => to_u8 (at_ src k))) by (unfold full; lia).
        replace (full + (k - full)) with k by lia. apply land_erased.
    + intros a Ha.
      replace ((page_addr + full <=? a) && (a <? page_addr + full + 4)) with false
        by (symmetry; apply andb_false_iff; rewrite Z.leb_gt, Z.ltb_ge; lia).
      replace ((page_addr <=? a) && (a <? page_addr + full)) with false
        by (symmetry; apply andb_false_iff; rewrite Z.leb_gt, Z.ltb_ge; lia).
      replace ((page_addr <=? a) && (a <? page_addr + FLASH_PAGESIZE)) with false
        by (symmetry; apply andb_false_iff; unfold FLASH_PAGESIZE; rewrite Z.leb_gt, Z.ltb_ge; lia).
      reflexivity.
Qed.

(** ** What the flash phase leaves in the flash *)

Lemma send_err_then {A} (k : M A) s : (send_err ;; k) s = Stop Reset (error_exit s).
Proof. unfold bind. rewrite send_err_stop. reflexivity. Qed.

Lemma if_negb_inv {A} (b : bool) (m1 m2 : M A) s r :
  (if negb b then m1 else m2) s = r ->
  (b = false /\ m1 s = r) \/ (b = true /\ m2 s = r).
Proof. destruct b; cbn [negb]; intros H; [right|left]; split; trivial. Qed.

(** The page loop, when it returns: the pages from offset [i] on hold the
    staging buffer, everything below is as before. *)
Lemma flash_firmware_loop_ok size fuel : forall i page_addr s s',
  flash_firmware_loop fuel i page_addr size s = Ok tt s' ->
  page_addr = FW_BASE + i -> 0 <= i -> size <= FW_MAX_SIZE ->
  (Z.to_nat size <= length (data s))%nat ->
  (forall k, i <= k < size -> flash s' (FW_BASE + k) = to_u8 (at_ (data s) k)) /\
  (forall a, a < FW_BASE + i -> flash s' a = flash s a) /\
  data s' = data s /\ fw_release_message s' = fw_release_message s.
Proof.
  induction fuel as [|fuel IH]; intros i page_addr s s' Hrun Hpa Hi Hsize Hdata.
  - discriminate Hrun.
  - rewrite flash_firmware_loop_S in Hrun.
    destruct (i <? size) eqn:Hlt.
    2:{ injection Hrun as <-. apply Z.ltb_ge in Hlt.
        split; [intros k Hk; lia | auto]. }
    apply Z.ltb_lt in Hlt. cbv zeta in Hrun.
    unfold FW_MAX_SIZE, FLASH_PAGESIZE in *.
    replace (to_u16 (size - i)) with (size - i) in Hrun
      by (unfold to_u16; rewrite Z.mod_small; lia).
    set (len := if size - i >? 1024 then 1024 else size - i) in Hrun.
    assert (Hlen : 0 < len <= 1024 /\ len <= size - i /\
                   (size - i <= 1024 -> len = size - i) /\
                   (1024 < size - i -> len = 1024)).
    { unfold len. destruct (size - i >? 1024) eqn:E;
        [apply Z.gtb_lt in E | rewrite Z.gtb_ltb in E; apply Z.ltb_ge in E];
        lia. }
    unfold bind at 1, get_data in Hrun.
    apply bind_Ok_inv in Hrun. destruct Hrun as (r & s1 & Hp & Hrun).
    apply if_negb_inv in Hrun. destruct Hrun as [[_ Hrun]|[Hr Hrun]].
    { rewrite send_err_then in Hrun. discriminate Hrun. }
    apply Z.eqb_eq in Hr. subst r.
    destruct (program_flash_ok _ _ _ _ _ Hp) as (Hin & Hout & Hd & Hm).
    { unfold FLASH_PAGESIZE. lia. }
    { rewrite length_drop. lia. }
    destruct (IH _ _ _ _ Hrun) as (Hin' & Hout' & Hd' & Hm'); try lia.
    { subst page_addr. unfold to_u32, FW_BASE. rewrite Z.mod_small; lia. }
    { rewrite Hd. exact Hdata. }
    split; [|split; [|split; congruence]].
    + intros k Hk. destruct (Z.lt_ge_cases k (i + 1024)) as [Hk1|Hk1].
      * rewrite Hout' by lia. subst page_addr.
        replace (FW_BASE + k) with (FW_BASE + i + (k - i)) by lia.
        rewrite Hin by lia. rewrite at_drop by lia. f_equal. f_equal. lia.
      * rewrite Hin' by lia. rewrite Hd. reflexivity.
    + intros a Ha. rewrite Hout' by lia. apply Hout. subst page_addr.
      unfold FLASH_PAGESIZE. lia.
Qed.

(** The flash phase, when it returns: the firmware pages hold the first
    [size] bytes of the staging buffer, the metadata page the six
    metadata bytes (with the two stored version bytes in place of the new
    ones for [version = 0]), and the message page the first [r_msg_size]
    bytes of the message. *)
Lemma load_firmware_flash_ok m version size r s s' :
  load_firmware_flash (m, version, size, r) s = Ok tt s' ->
  0 <= size <= FW_MAX_SIZE -> 0 <= r <= RELEASE_MAX_SIZE ->
  length m = 6%nat ->
  (Z.to_nat size <= length (data s))%nat ->
  (Z.to_nat r <= length (fw_release_message s))%nat ->
  let m' := if version =? 0
            then <[1%nat:=to_char (to_u8 (flash s (METADATA_BASE + 1)))]>
                   (<[0%nat:=to_char (to_u8 (flash s METADATA_BASE))]> m)
            else m in
  (forall k, 0 <= k < size -> flash s' (FW_BASE + k) = to_u8 (at_ (data s) k)) /\
  (forall k, 0 <= k < 6 -> flash s' (METADATA_BASE + k) = to_u8 (at_ m' k)) /\
  (forall k, 0 <= k < r ->
     flash s' (RELEASE_BASE + k) = to_u8 (at_ (fw_release_message s) k)) /\
  data s' = data s /\ fw_release_message s' = fw_release_message s.
Proof.
  intros Hrun Hsize Hr Hm Hdata Hmsg m'.
  unfold load_firmware_flash in Hrun.
  apply bind_Ok_inv in Hrun. destruct Hrun as ([] & s1 & Hloop & Hrun).
  destruct (flash_firmware_loop_ok _ _ _ _ _ _ Hloop)
    as (Hfw & Hlow & Hd1 & Hm1); try lia; try reflexivity.
  apply bind_Ok_inv in Hrun. destruct Hrun as (mm & s1' & Hmm & Hrun).
  assert (Hmm' : mm = m' /\ s1' = s1).
  { unfold m'. destruct (version =? 0).
    - unfold bind, flash_read8, ret in Hmm. injection Hmm as <- <-.
      rewrite !Hlow by (unfold METADATA_BASE, FW_BASE; lia). auto.
    - unfold ret in Hmm. injection Hmm as <- <-. auto. }
  destruct Hmm' as [-> ->]. clear Hmm.
  apply bind_Ok_inv in Hrun. destruct Hrun as (r1 & s2 & Hp1 & Hrun).
  apply if_negb_inv in Hrun. destruct Hrun as [[_ Hrun]|[Hr1 Hrun]].
  { rewrite send_err_then in Hrun. discriminate Hrun. }
  apply Z.eqb_eq in Hr1. subst r1.
  destruct (program_flash_ok _ _ _ _ _ Hp1) as (Hin2 & Hout2 & Hd2 & Hm2).
  { unfold FW_METADATA_SIZE, FLASH_PAGESIZE. lia. }
  { unfold m'. destruct (version =? 0); rewrite ?length_insert, Hm;
      unfold FW_METADATA_SIZE; lia. }
  unfold bind at 1, get_fw_release_message in Hrun.
  apply bind_Ok_inv in Hrun. destruct Hrun as (r2 & s3 & Hp2 & Hrun).
  apply if_negb_inv in Hrun. destruct Hrun as [[_ Hrun]|[Hr2 Hrun]].
  { rewrite send_err_then in Hrun. discriminate Hrun. }
  apply Z.eqb_eq in Hr2. subst r2. injection Hrun as <-.
  destruct (program_flash_ok _ _ _ _ _ Hp2) as (Hin3 & Hout3 & Hd3 & Hm3).
  { unfold RELEASE_MAX_SIZE, FLASH_PAGESIZE in *. lia. }
  { rewrite Hm2, Hm1. exact Hmsg. }
  unfold FW_MAX_SIZE, RELEASE_MAX_SIZE, FW_METADATA_SIZE, FLASH_PAGESIZE,
    METADATA_BASE, RELEASE_BASE, FW_BASE in *.
  split; [|split; [|split; [|split; congruence]]].
  - intros k Hk. rewrite Hout3, Hout2 by lia. apply Hfw. lia.
  - intros k Hk. rewrite Hout3 by lia. apply Hin2. lia.
  - intros k Hk. rewrite Hin3 by lia. rewrite Hm2, Hm1. reflexivity.
Qed.


(** ** An accepted update *)

(** The function returned: the update went through to the end. *)
Definition returns {A} (r : result A) : bool :=
  match r with Ok _ _ => true | Stop _ _ => false end.

(** How the function stopped, if it did. *)
Definition exit_of {A} (r : result A) : option exit :=
  match r with Ok _ _ => None | Stop e _ => Some e end.

(** What a run returned, if it did. *)
Definition value {A} (r : result A) : option A :=
  match r with Ok a _ => Some a | Stop _ _ => None end.

Lemma value_Ok {A} (r : result A) a : value r = Some a -> r = Ok a (final r).
Proof. destruct r; intros H; [injection H as ->; reflexivity | discriminate H]. Qed.

Lemma to_u8_to_char x : to_u8 (to_char x) = to_u8 x.
Proof. unfold to_u8, to_char. apply Z.mod_mod. lia. Qed.

Section Accepted.
Context (X : Extern).

(** The metadata buffer keeps its six bytes. *)
Lemma load_firmware_metadata_length :
  framed (load_firmware_metadata X)
    (fun c => let '(m, _, _, _, _) := c in length m = 6%nat) io_exit.
Proof.
  eapply framed_weaken with (Ex := exits True);
    [ | intros a H; exact H
      | intros e [H|[H|[_ H]]]; unfold io_exit; tauto ].
  unfold load_firmware_metadata.
  eapply framed_bind; [apply framed_print_bolt|]. intros _ _.
  eapply framed_bind; [apply framed_uart_read_variable|]. intros m Hm.
  eapply framed_bind; [apply framed_sha_hmac|]. intros r ->. cbn [Z.eqb].
  cbv zeta.
  eapply framed_bind; [apply framed_flash_read8|]. intros hi _.
  eapply framed_bind; [apply framed_flash_read8|]. intros lo _.
  destruct (_ && _); [apply framed_send_err|].
  destruct (le16 m 2 >? FW_MAX_SIZE); [apply framed_send_err|].
  destruct (le16 m 4 >? RELEASE_MAX_SIZE); [apply framed_send_err|].
  eapply framed_bind; [apply framed_uart_write|]. intros _ _.
  apply framed_ret. rewrite Hm. apply length_replicate.
Qed.

(** When [load_firmware] returns, each of its three phases returned. *)
Lemma load_firmware_returns_inv s :
  returns (load_firmware X s) = true ->
  exists c s1 c' s2,
    load_firmware_metadata X s = Ok c s1 /\
    load_firmware_receive X c s1 = Ok c' s2 /\
    load_firmware_flash c' s2 = Ok tt (final (load_firmware X s)).
Proof.
  intros Hret. rewrite load_firmware_phases in Hret |- *.
  destruct (load_firmware_metadata X s) as [c s1|e s1] eqn:Hm.
  2:{ exfalso.
      destruct (framed_Stop _ _ _ _ _ _ (framed_load_firmware_metadata X) Hm)
        as [_ [->| ->]]; discriminate Hret. }
  destruct (framed_Ok _ _ _ _ _ _ (framed_load_firmware_metadata X) Hm)
    as [_ Hc].
  destruct c as [[[[m v] size] r] fn].
  destruct Hc as (_ & _ & _ & Hfn & Bs & Br).
  assert (Hrange : 0 <= fn < 65536)
    by (rewrite Hfn; apply frame_number_of_range).
  destruct (load_firmware_receive X (m, v, size, r, fn) s1)
    as [c' s2|e s2] eqn:Hr.
  2:{ exfalso.
      destruct (framed_Stop _ _ _ _ _ _
                  (framed_load_firmware_receive X m v size r fn Hrange) Hr)
        as [_ [->|[->|[-> _]]]]; discriminate Hret. }
  destruct (framed_Ok _ _ _ _ _ _
              (framed_load_firmware_receive X m v size r fn Hrange) Hr)
    as [_ ->].
  destruct (load_firmware_flash (m, v, size, r) s2) as [[] s3|e s3] eqn:Hf.
  - exists (m, v, size, r, fn), s1, (m, v, size, r), s2.
    split; [reflexivity|]. split; [exact Hr|]. rewrite Hf. reflexivity.
  - exfalso.
    destruct (post_Stop _ _ _ _ _ _
                (load_firmware_flash_exits m v size r s2 (proj1 Bs)) Hf)
      as [-> _].
    discriminate Hret.
Qed.

End Accepted.

(** C4. An update accepted with [version = 0] leaves the stored version
    as it was: the two version bytes at [METADATA_BASE] after the run are
    the two that were there before it, so [stored_version] is unchanged.
    The rest is written as for any update: the other four metadata bytes,
    the firmware pages from the staging buffer and the release message
    page from the message buffer. *)
Theorem debug_update_keeps_stored_version X s m size r fn s1 :
  load_firmware_metadata X s = Ok (m, 0, size, r, fn) s1 ->
  returns (load_firmware X s) = true ->
  length (data s) = Z.to_nat DATA_SIZE ->
  length (fw_release_message s) = Z.to_nat RELEASE_MAX_SIZE ->
  let s' := final (load_firmware X s) in
  stored_version s' = stored_version s /\
  flash s' METADATA_BASE = to_u8 (flash s METADATA_BASE) /\
  flash s' (METADATA_BASE + 1) = to_u8 (flash s (METADATA_BASE + 1)) /\
  (forall k, 2 <= k < 6 -> flash s' (METADATA_BASE + k) = to_u8 (at_ m k)) /\
  (forall k, 0 <= k < size ->
     flash s' (FW_BASE + k) = to_u8 (at_ (data s') k)) /\
  (forall k, 0 <= k < r ->
     flash s' (RELEASE_BASE + k) = to_u8 (at_ (fw_release_message s') k)).
Proof.
  intros Hmeta Hret Hdata Hmsg.
  destruct (load_firmware_returns_inv X s Hret)
    as (c & s1' & c' & s2 & Hm & Hr & Hf).
  rewrite Hmeta in Hm. injection Hm as <- <-.
  set (s' := final (load_firmware X s)) in *. clearbody s'. cbv zeta.
  destruct (framed_Ok _ _ _ _ _ _ (framed_load_firmware_metadata X) Hmeta)
    as [F1 (_ & _ & _ & Hfn & Bs & Br)].
  destruct (framed_Ok _ _ _ _ _ _ (load_firmware_metadata_length X) Hmeta)
    as [_ Hlen].
  assert (Hrange : 0 <= fn < 65536)
    by (rewrite Hfn; apply frame_number_of_range).
  destruct (framed_Ok _ _ _ _ _ _
              (framed_load_firmware_receive X m 0 size r fn Hrange) Hr)
    as [F2 ->].
  pose proof (frame_trans _ _ _ F1 F2) as (Hfl & _ & _ & _ & Ld & Lm).
  destruct (load_firmware_flash_ok _ _ _ _ _ _ Hf Bs Br Hlen)
    as (Hfw & Hmd & Hrel & Hd & Hmm).
  { rewrite Ld, Hdata.
    unfold DATA_SIZE, FW_MAX_SIZE, FW_METADATA_SIZE, RELEASE_MAX_SIZE in *. lia. }
  { rewrite Lm, Hmsg. unfold RELEASE_MAX_SIZE in *. lia. }
  change (0 =? 0) with true in Hmd. cbv iota in Hmd.
  rewrite Hfl in Hmd.
  destruct m as [|a0 [|a1 [|a2 [|a3 [|a4 [|a5 [|]]]]]]];
    try discriminate Hlen.
  assert (H0 : flash s' METADATA_BASE = to_u8 (flash s METADATA_BASE)).
  { replace METADATA_BASE with (METADATA_BASE + 0) at 1 by lia.
    rewrite (Hmd 0) by lia.
    change (to_u8 (to_char (to_u8 (flash s METADATA_BASE))) =
            to_u8 (flash s METADATA_BASE)).
    rewrite to_u8_to_char. apply to_u8_idem. }
  assert (H1 : flash s' (METADATA_BASE + 1) =
               to_u8 (flash s (METADATA_BASE + 1))).
  { rewrite (Hmd 1) by lia.
    change (to_u8 (to_char (to_u8 (flash s (METADATA_BASE + 1)))) =
            to_u8 (flash s (METADATA_BASE + 1))).
    rewrite to_u8_to_char. apply to_u8_idem. }
  split; [|split; [exact H0|split; [exact H1|split; [|split]]]].
  - unfold stored_version. rewrite H0, H1, !to_u8_idem. reflexivity.
  - intros k Hk. rewrite (Hmd k) by lia.
    assert (Hc : k = 2 \/ k = 3 \/ k = 4 \/ k = 5) by lia.
    destruct Hc as [->|[->|[->| ->]]]; reflexivity.
  - intros k Hk. rewrite Hd. apply Hfw. exact Hk.
  - intros k Hk. rewrite Hmm. apply Hrel. exact Hk.
Qed.

Lemma debug_update_keeps_stored_version_witness :
  let s := device (sent debug_upload) [] [] in
  let s' := final (load_firmware arm s) in
  returns (load_firmware arm s) = true /\
  stored_version s' = stored_version s /\
  flash s' METADATA_BASE = to_u8 (flash s METADATA_BASE) /\
  flash s' (METADATA_BASE + 1) = to_u8 (flash s (METADATA_BASE + 1)) /\
  (forall k, 2 <= k < 6 ->
     flash s' (METADATA_BASE + k) = to_u8 (at_ [0; 0; 5; 0; 3; 0] k)) /\
  (forall k, 0 <= k < 5 ->
     flash s' (FW_BASE + k) = to_u8 (at_ (data s') k)) /\
  (forall k, 0 <= k < 3 ->
     flash s' (RELEASE_BASE + k) = to_u8 (at_ (fw_release_message s') k)).
Proof.
  intros s.
  pose (meta := [0; 0; 5; 0; 3; 0]).
  pose (rest := drop 38 (sent debug_upload)).
  assert (H1 : load_firmware_metadata arm s =
               Ok (map to_char meta, 0, 5, 3, 0)
                  (emit UART1 [OK] (with_rx1 rest (bolt_printed s)))).
  { rewrite (load_firmware_metadata_sent arm s meta (stub_hmac meta) rest
               eq_refl eq_refl eq_refl).
    replace (negb _) with false by (vm_compute; reflexivity).
    replace (_ && _) with false by (vm_compute; reflexivity).
    replace (_ >? _) with false by (vm_compute; reflexivity).
    replace (_ >? _) with false by (vm_compute; reflexivity).
    reflexivity. }
  assert (H2 : returns (load_firmware arm s) = true)
    by (vm_compute; reflexivity).
  split; [exact H2|].
  exact (debug_update_keeps_stored_version arm s _ _ _ _ _ H1 H2
           (length_replicate _ _) (length_replicate _ _)).
Defined.

(** ** Runs that reach the frames *)

(** [s] with [v] as the stored version. *)
Definition with_stored_version (v : Z) (s : state) : state :=
  set_flash
    (fun a => if a =? METADATA_BASE then to_u8 v
              else if a =? METADATA_BASE + 1 then to_u8 (Z.shiftr v 8)
              else flash s a)
    (flash_status s) (flash_log s) s.

Lemma frame_version_one_is_rejected_witness :
  let meta := [1; 0; 5; 0; 3; 0] in
  let frm := [0; 0; 5; 0; 1; 0] in
  let host := sent (meta ++ stub_hmac meta) ++ sent (frm ++ stub_hmac frm) in
  let s := with_stored_version 1 (device host [] []) in
  let s1 := emit UART1 [OK]
              (with_rx1 (sent (frm ++ stub_hmac frm)) (bolt_printed s)) in
  load_firmware_metadata arm s = Ok (map to_char meta, 1, 5, 3, 0) s1 /\
  fst (hmac_compare (stub_hmac frm) (hmac_sha256 arm frm)) = 0 /\
  le16 frm 0 = 0 /\ le16 frm 2 = 5 /\ le16 frm 4 = 1 /\
  frames_loop arm 1 1 5 0 0 0 s1 = Stop Reset (error_exit (with_rx1 [] s1)) /\
  exit_of (load_firmware arm s) = Some Reset /\
  tx (uart1 (final (load_firmware arm s))) = [OK; ERROR] /\
  flash (final (load_firmware arm s)) = flash s.
Proof.
  intros meta frm host s s1.
  assert (H1 : load_firmware_metadata arm s =
               Ok (map to_char meta, 1, 5, 3, 0) s1).
  { rewrite (load_firmware_metadata_sent arm s meta (stub_hmac meta)
               (sent (frm ++ stub_hmac frm)) eq_refl eq_refl eq_refl).
    replace (negb _) with false by (vm_compute; reflexivity).
    replace (_ && _) with false by (vm_compute; reflexivity).
    replace (_ >? _) with false by (vm_compute; reflexivity).
    replace (_ >? _) with false by (vm_compute; reflexivity).
    reflexivity. }
  assert (H2 : le16 (map to_char frm) 4 = 1) by reflexivity.
  assert (Hrx : rx (uart1 s1) = sent (frm ++ stub_hmac frm) ++ [])
    by (rewrite app_nil_r; reflexivity).
  destruct (proj1 (frame_version_one_is_rejected arm) 0%nat 1 5 0 0 0 s1
              frm (stub_hmac frm) [] Hrx eq_refl eq_refl H2)
    as (Hloop & _).
  destruct (proj2 (frame_version_one_is_rejected arm) s meta
              (sent (stub_hmac meta) ++ sent (frm ++ stub_hmac frm))
              eq_refl eq_refl eq_refl)
    as (e & s' & Hrun & _ & Hflash & _).
  split; [exact H1|].
  split; [vm_compute; reflexivity|].
  split; [reflexivity|]. split; [reflexivity|].
  split; [exact H2|]. split; [exact Hloop|].
  rewrite Hrun. cbn [final].
  assert (He : exit_of (load_firmware arm s) = Some Reset)
    by (vm_compute; reflexivity).
  assert (Ht : tx (uart1 (final (load_firmware arm s))) = [OK; ERROR])
    by (vm_compute; reflexivity).
  rewrite Hrun in He, Ht. cbn [final] in Ht.
  split; [exact He|]. split; [exact Ht | exact Hflash].
Defined.

Lemma staging_stores_stay_in_bounds_witness :
  let meta := [0; 0; 5; 0; 3; 0] in
  let s := device (sent debug_upload) [] [] in
  rx (uart1 s) = sent meta ++ sent (drop 6 debug_upload) /\
  length meta = 6%nat /\ 1 <= le16 (map to_char meta) 2 /\
  (forall s', load_firmware arm s <> Stop Fault s') /\
  returns (load_firmware arm s) = true /\
  take 5 (data s) = [0; 0; 0; 0; 0] /\
  take 5 (data (final (load_firmware arm s))) = [26; 36; 46; 56; 66].
Proof.
  intros meta s.
  assert (H1 : rx (uart1 s) = sent meta ++ sent (drop 6 debug_upload))
    by reflexivity.
  assert (H2 : length meta = 6%nat) by reflexivity.
  assert (H3 : 1 <= le16 (map to_char meta) 2) by (vm_compute; discriminate).
  split; [exact H1|]. split; [exact H2|]. split; [exact H3|].
  split; [exact (staging_stores_stay_in_bounds arm s meta _ H1 H2 H3)|].
  split; [vm_compute; reflexivity|].
  split; vm_compute; reflexivity.
Defined.

(** ** An update of size zero *)

Lemma map_to_char_bytes l : Forall is_byte l -> map to_char l = l.
Proof.
  induction 1 as [|b l Hb _ IH]; [reflexivity|].
  cbn [map]. rewrite IH. unfold to_char, is_byte in *.
  rewrite Z.mod_small by lia. reflexivity.
Qed.

(** With the MAC of the metadata on the wire the comparison succeeds. *)
Lemma hmac_compare_own X m :
  fst (hmac_compare (map to_char (hmac_sha256 X m)) (hmac_sha256 X m)) = 0.
Proof.
  rewrite map_to_char_bytes by apply hmac_sha256_bytes.
  apply hmac_compare_zero. intros j _. reflexivity.
Qed.

(** Where the conversion of the negative frame count gives 65535, the
    loader asks for frames up to index 65535.  Empty frames 0 to 31 are
    acknowledged like the metadata; the header of frame 32 is then stored
    at [data[32768]], outside the staging buffer, before any flash write. *)
Lemma zero_size_update_overruns_staging :
  let r := load_firmware wrapping (device (sent (empty_frames 33)) [] []) in
  exit_of r = Some Fault /\
  tx (uart1 (final r)) = replicate 33 OK /\
  flash_log (final r) = [].
Proof.
  intros r. split; [|split]; vm_compute; reflexivity.
Qed.

(** C9. The code has no test for [size = 0].  Metadata of size 0 with a
    valid MAC passes step 1 whatever the conversion of the negative frame
    count gives: [OK] is sent and the frame loop is entered with
    [frame_number = u16_of_negative].  Where the conversion gives 0, the
    upload [empty_upload] runs to the end: [load_firmware] returns after
    six acknowledgements and has erased and programmed the metadata page
    and the release message page, the metadata page now holding version 7
    and size 0. *)
Theorem zero_size_update_is_accepted :
  let meta := [7; 0; 0; 0; 3; 0] in
  let s := device (sent empty_upload) [] [] in
  let r := load_firmware arm s in
  le16 (map to_char meta) 2 = 0 /\
  (forall X : Extern, exists s1,
     load_firmware_metadata X
       (device (sent (meta ++ hmac_sha256 X meta)) [] []) =
     Ok (meta, 7, 0, 3, u16_of_negative X) s1 /\
     tx (uart1 s1) = [OK]) /\
  returns r = true /\
  tx (uart1 (final r)) = [OK; OK; OK; OK; OK; OK] /\
  flash_log (final r) =
    [Erase METADATA_BASE;
     Program METADATA_BASE [7; 0; 0; 0] 0;
     Program (METADATA_BASE + 4) [3; 0; 255; 255] 0;
     Erase RELEASE_BASE;
     Program RELEASE_BASE [] 0;
     Program RELEASE_BASE [104; 105; 33; 255] 0] /\
  map (fun k => flash (final r) (METADATA_BASE + k)) [0; 1; 2; 3; 4; 5] =
    [7; 0; 0; 0; 3; 0] /\
  stored_version s = 5 /\ stored_version (final r) = 7.
Proof.
  intros meta s r.
  split; [reflexivity|]. split.
  { intros X.
    set (s0 := device (sent (meta ++ hmac_sha256 X meta)) [] []).
    exists (emit UART1 [OK] (with_rx1 [] (bolt_printed s0))).
    split; [|reflexivity].
    rewrite (load_firmware_metadata_sent X s0 meta (hmac_sha256 X meta) []).
    - change (map to_char meta) with meta.
      rewrite hmac_compare_own. reflexivity.
    - unfold s0. cbn [device uart1 rx]. rewrite app_nil_r. reflexivity.
    - reflexivity.
    - apply hmac_sha256_length. }
  split; [vm_compute; reflexivity|].
  split; [vm_compute; reflexivity|].
  split; [vm_compute; reflexivity|].
  split; [vm_compute; reflexivity|].
  split; vm_compute; reflexivity.
Qed.

(** * The rest of the bootloader *)

(** ** Booting, provisioning and the command loop *)

Definition UPDATE : Z := 85.   (* 'U' *)
Definition BOOT : Z := 66.     (* 'B' *)

(** A [uint32_t] read of the flash at [addr] (little-endian). *)
Definition flash_read32 (addr : Z) : M Z := fun s =>
  Ok (Z.lor (to_u8 (flash s addr))
        (Z.lor (Z.shiftl (to_u8 (flash s (addr + 1))) 8)
           (Z.lor (Z.shiftl (to_u8 (flash s (addr + 2))) 16)
                  (Z.shiftl (to_u8 (flash s (addr + 3))) 24)))) s.

(** [boot_firmware], up to the jump: the stored release message, as many
    bytes as the stored metadata gives but no more than [RELEASE_MAX_SIZE],
    on UART2.  The [BX] to the firmware entry that ends the function is
    the [Booted] outcome of [main_loop]. *)
Definition boot_firmware : M unit :=
  hi <- flash_read8 (METADATA_BASE + 5) ;;
  lo <- flash_read8 (METADATA_BASE + 4) ;;
  let msg_size := to_u16 (Z.lor (Z.shiftl hi 8) lo) in
  for_range (Z.to_nat (Z.min msg_size RELEASE_MAX_SIZE)) 0 (fun i =>
    c <- flash_read8 (RELEASE_BASE + i) ;;
    uart_write UART2 (to_char c)).

Definition initial_message : string := "This is the initial release message.".

(** The metadata [load_initial_firmware] builds:
    [{(uint8_t) version, (uint16_t) version >> 8, (uint8_t) size,
      (uint16_t) size >> 8, (uint8_t) msg_size, (uint16_t) msg_size >> 8}]
    as [unsigned char]. *)
Definition initial_metadata (version size msg_size : Z) : list Z :=
  [ to_u8 version; to_u8 (Z.shiftr (to_u16 version) 8);
    to_u8 size; to_u8 (Z.shiftr (to_u16 size) 8);
    to_u8 msg_size; to_u8 (Z.shiftr (to_u16 msg_size) 8) ].

(** [load_initial_firmware], for the firmware image linked into the
    bootloader: [bin] are the bytes at [_binary_firmware_bin_start] and
    [size] is the [int] value of [&_binary_firmware_bin_size].  The
    results of [program_flash] are not looked at. *)
Definition load_initial_firmware (bin : list Z) (size : Z) : M unit :=
  void_fn (
    w <- flash_read32 METADATA_BASE ;;
    if negb (w =? 0xFFFFFFFF) then return_ else
    let msg := str_bytes initial_message in
    let version := 2 in
    let msg_size := 36 in
    let metadata := initial_metadata version size msg_size in
    program_flash METADATA_BASE metadata FW_METADATA_SIZE ;;
    program_flash RELEASE_BASE msg msg_size ;;
    let pages := Z.quot size FLASH_PAGESIZE in
    for_range (Z.to_nat pages) 0 (fun i =>
      program_flash (to_u32 (FW_BASE + i * FLASH_PAGESIZE))
        (drop (Z.to_nat (i * FLASH_PAGESIZE)) bin) FLASH_PAGESIZE ;;
      ret tt) ;;
    let i := Z.max 0 pages in
    program_flash (to_u32 (FW_BASE + i * FLASH_PAGESIZE))
      (drop (Z.to_nat (i * FLASH_PAGESIZE)) bin)
      (to_u32 (Z.rem size FLASH_PAGESIZE)) ;;
    ret tt).

(** Modelled from the spec: [uart_init], [IntEnable] and
    [IntMasterEnable], the start-up calls of section 4.5.  They configure
    the ports and unmask the receive interrupt of UART0; no byte is read
    or written. *)
Definition uart_init (uart : uart_id) : M unit := ret tt.
Definition IntEnable : M unit := ret tt.
Definition IntMasterEnable : M unit := ret tt.

Definition welcome : list string :=
  [ ("Welcome to the BWSI Vehicle Update Service!" ++ LF)%string;
    ("Send " ++ String (ascii_of_nat 34) "U" ++ String (ascii_of_nat 34)
       " to update, and " ++ String (ascii_of_nat 34) "B" ++
       String (ascii_of_nat 34) " to run the firmware." ++ LF)%string;
    ("Writing 0x20 to UART0 will reset the device." ++ LF)%string ].

(** How a run of [main] ends: inside the bootloader, or with the jump to
    the firmware. *)
Inductive outcome : Type :=
| Halted (e : exit) (s : state)
| Booted (s : state).

Definition last_state (o : outcome) : state :=
  match o with Halted _ s | Booted s => s end.

Section Main.
Context (X : Extern).

(** The [while (1)] of [main]: one command byte per round. *)
Fixpoint main_loop (fuel : nat) (s : state) : outcome :=
  match fuel with
  | O => Halted OutOfFuel s
  | S fuel' =>
      match uart_read UART1 BLOCKING s with
      | Stop e s1 => Halted e s1
      | Ok (instruction, _) s1 =>
          if instruction =? UPDATE then
            match (uart_write_str UART1 "U" ;; load_firmware X) s1 with
            | Ok _ s2 => main_loop fuel' s2
            | Stop e s2 => Halted e s2
            end
          else if instruction =? BOOT then
            match (uart_write_str UART1 "B" ;; boot_firmware) s1 with
            | Ok _ s2 => Booted s2
            | Stop e s2 => Halted e s2
            end
          else main_loop fuel' s1
      end
  end.

(** [main], before the command loop. *)
Definition main_init (bin : list Z) (size : Z) : M unit :=
  uart_init UART0 ;;
  uart_init UART1 ;;
  uart_init UART2 ;;
  IntEnable ;;
  IntMasterEnable ;;
  load_initial_firmware bin size ;;
  fold_right (fun line k => uart_write_str UART2 line ;; k) (ret tt) welcome.

(** [main] *)
Definition main (bin : list Z) (size : Z) (fuel : nat) (s : state) : outcome :=
  match main_init bin size s with
  | Ok _ s1 => main_loop fuel s1
  | Stop e s1 => Halted e s1
  end.

End Main.

(** * More properties *)

(** Decides the address range tests of the flash model. *)
Ltac in_range :=
  repeat match goal with
  | |- context [(?a <=? ?b) && (?b <? ?c)] =>
      first
        [ replace ((a <=? b) && (b <? c)) with true
            by (symmetry; apply andb_true_iff;
                split; [apply Z.leb_le | apply Z.ltb_lt]; lia)
        | replace ((a <=? b) && (b <? c)) with false
            by (symmetry; apply andb_false_iff;
                rewrite Z.leb_gt, Z.ltb_ge; lia) ]
  end.

Lemma if_inv {A} (b : bool) (m1 m2 : M A) s r :
  (if b then m1 else m2) s = r ->
  (b = true /\ m1 s = r) \/ (b = false /\ m2 s = r).
Proof. destruct b; intros H; [left|right]; split; trivial. Qed.

(** ** [uart_read_variable] *)

(** X1. [uart_read_variable] takes [length] bytes but never more than
    [FLASH_PAGESIZE], and none for a length of zero or below: with that
    many bytes pending and delivered without error it stores them at the
    start of [da], leaves the rest of [da] and of the input alone, and
    returns. *)
Theorem uart_read_variable_reads_min (u : uart_id) (bl : Z) (da : list Z)
    (len : Z) (bs : list Z) (rest : list (Z * bool)) (s : state) :
  rx (uart1 s) = sent bs ++ rest ->
  Z.of_nat (length bs) = Z.max 0 (Z.min len FLASH_PAGESIZE) ->
  (length bs <= length da)%nat ->
  uart_read_variable u bl da len s =
    Ok (map to_char bs ++ drop (length bs) da) (with_rx1 rest s).
Proof.
  intros Hrx Hlen Hda. unfold uart_read_variable.
  replace (Z.to_nat (Z.min len FLASH_PAGESIZE)) with (length bs) by lia.
  change 0 with (Z.of_nat 0).
  rewrite (uart_read_variable_loop_sent bs 0%nat da rest s Hrx).
  rewrite list_inserts_0_prefix by (rewrite length_map; exact Hda).
  rewrite length_map. reflexivity.
Qed.

Lemma uart_read_variable_reads_min_witness :
  let bs := replicate 1024 9 in
  let da := replicate 1030 0 in
  let s := device (sent (bs ++ [1; 2])) [] [] in
  uart_read_variable UART2 BLOCKING da 2000 s =
    Ok (map to_char bs ++ drop (length bs) da) (with_rx1 (sent [1; 2]) s).
Proof.
  intros bs da s.
  apply (uart_read_variable_reads_min UART2 BLOCKING da 2000 bs (sent [1; 2]) s).
  - unfold s, sent. cbn [device uart1 rx]. apply map_app.
  - unfold bs. rewrite length_replicate. reflexivity.
  - unfold bs, da. rewrite !length_replicate. lia.
Defined.

Lemma uart_read_variable_loop_error bs : forall n k da b rest s,
  rx (uart1 s) = sent bs ++ (b, false) :: rest ->
  (length bs < n)%nat ->
  uart_read_variable_loop n (Z.of_nat k) da s =
    Stop Reset (error_exit (with_rx1 rest s)).
Proof.
  induction bs as [|b0 bs IH]; intros n k da b rest s Hrx Hn;
    (destruct n as [|n]; [cbn [length] in Hn; lia|]).
  - cbn [uart_read_variable_loop]. unfold bind at 1.
    rewrite (uart_read_cons b false rest) by exact Hrx.
    cbn [snd fst]. unfold bind at 1. rewrite check_read_0. reflexivity.
  - cbn [uart_read_variable_loop]. unfold bind at 1.
    rewrite (uart_read_cons b0 true (sent bs ++ (b, false) :: rest))
      by exact Hrx.
    unfold bind at 1. rewrite check_read_1. cbn [negb Z.eqb snd fst].
    replace (Z.of_nat k + 1) with (Z.of_nat (S k)) by lia.
    rewrite (IH n (S k) _ b rest) by (cbn [length] in Hn; reflexivity || lia).
    rewrite with_rx1_twice. reflexivity.
Qed.

(** X2. A byte that the transport reports as bad ends the read on the
    error path: the bytes up to and including the bad one are consumed,
    [ERROR] goes to the host, the chip resets, and neither the flash nor
    the staging buffer has changed. *)
Theorem uart_read_variable_transport_error (u : uart_id) (bl : Z)
    (da : list Z) (len : Z) (bs : list Z) (b : Z) (rest : list (Z * bool))
    (s : state) :
  rx (uart1 s) = sent bs ++ (b, false) :: rest ->
  Z.of_nat (length bs) < Z.min len FLASH_PAGESIZE ->
  let s' := error_exit (with_rx1 rest s) in
  uart_read_variable u bl da len s = Stop Reset s' /\
  tx (uart1 s') = tx (uart1 s) ++ [ERROR] /\
  rx (uart1 s') = rest /\
  flash s' = flash s /\ flash_log s' = flash_log s /\ data s' = data s.
Proof.
  intros Hrx Hlen s'. split.
  - unfold uart_read_variable. change 0 with (Z.of_nat 0).
    apply (uart_read_variable_loop_error bs _ 0%nat da b rest s Hrx). lia.
  - unfold s'. rewrite error_exit_uart1. cbn [tx rx].
    split; [reflexivity|]. split; [reflexivity|].
    split; [apply (error_exit_flash (with_rx1 rest s))|].
    split; [apply (error_exit_flash (with_rx1 rest s))|].
    apply (error_exit_buffers (with_rx1 rest s)).
Qed.

Lemma uart_read_variable_transport_error_witness :
  let s := device (sent [1; 2] ++ (3, false) :: sent [4]) [] [] in
  let s' := error_exit (with_rx1 (sent [4]) s) in
  uart_read_variable UART1 BLOCKING (replicate 6 0) 6 s = Stop Reset s' /\
  tx (uart1 s') = tx (uart1 s) ++ [ERROR] /\
  rx (uart1 s') = sent [4] /\
  flash s' = flash s /\ flash_log s' = flash_log s /\ data s' = data s.
Proof.
  intros s.
  apply (uart_read_variable_transport_error UART1 BLOCKING (replicate 6 0) 6
           [1; 2] 3 (sent [4]) s).
  - reflexivity.
  - cbn [length]. unfold FLASH_PAGESIZE. lia.
Defined.

(** ** [gcm_decrypt_and_verify] *)

(** X3. With the IV and the tag received, [gcm_decrypt_and_verify]
    replaces the first [ct_len] bytes of the staging buffer by their
    decryption before it looks at the tag, and leaves the rest of the
    buffer alone.  It returns 1 when the tag is the computed one;
    otherwise it takes the error path, the buffer already overwritten. *)
Theorem gcm_decrypt_and_verify_in_place (X : Extern) (ct_len : Z)
    (iv tag : list Z) (rest : list (Z * bool)) (s : state) :
  rx (uart1 s) = sent (iv ++ tag) ++ rest ->
  length iv = 16%nat -> length tag = 16%nat ->
  let iv' := map to_char iv in
  let ct := take (Z.to_nat ct_len) (data s) in
  let s1 := set_data (gcm_run X iv' ct ++ drop (Z.to_nat ct_len) (data s))
              (with_rx1 rest s) in
  length (data s1) = length (data s) /\
  (gcm_tag X iv' ct = map to_char tag ->
     gcm_decrypt_and_verify X ct_len s = Ok 1 s1) /\
  (gcm_tag X iv' ct <> map to_char tag ->
     gcm_decrypt_and_verify X ct_len s = Stop Reset (error_exit s1)).
Proof.
  intros Hrx Hiv Htag iv' ct s1.
  unfold sent in Hrx. rewrite map_app, <- app_assoc in Hrx.
  fold (sent iv) in Hrx. fold (sent tag) in Hrx.
  assert (Hrun : gcm_decrypt_and_verify X ct_len s =
    if br_gcm_check_tag X iv' ct (map to_char tag) =? 0
    then Stop Reset (error_exit s1) else Ok 1 s1).
  { unfold gcm_decrypt_and_verify. unfold bind at 1.
    rewrite (uart_read_variable_sent _ _ _ _ iv (sent tag ++ rest));
      [ | exact Hrx | rewrite Hiv; reflexivity
        | unfold IV_SIZE, FLASH_PAGESIZE; lia ].
    rewrite list_inserts_0_full by (rewrite length_map, Hiv; reflexivity).
    unfold bind at 1.
    rewrite (uart_read_variable_sent _ _ _ _ tag rest);
      [ | reflexivity | rewrite Htag; reflexivity
        | unfold TAG_SIZE, FLASH_PAGESIZE; lia ].
    rewrite list_inserts_0_full by (rewrite length_map, Htag; reflexivity).
    rewrite with_rx1_twice.
    unfold bind at 1, get_data. unfold bind at 1.
    change (data (with_rx1 rest s)) with (data s).
    fold iv' ct. fold s1.
    destruct (br_gcm_check_tag X iv' ct (map to_char tag) =? 0).
    - apply send_err_then.
    - reflexivity. }
  split; [|split].
  - unfold s1. cbn [set_data data]. unfold ct.
    rewrite length_app, gcm_run_length, <- length_app, take_drop. reflexivity.
  - intros Ht. rewrite Hrun. unfold br_gcm_check_tag.
    destruct (decide _) as [_|Hn]; [reflexivity | contradiction].
  - intros Ht. rewrite Hrun. unfold br_gcm_check_tag.
    destruct (decide _) as [He|_]; [contradiction | reflexivity].
Qed.

Lemma gcm_decrypt_and_verify_in_place_witness :
  let iv := replicate 16 1 in
  let tag := stub_gcm_tag iv [0; 0] in
  let s := device (sent (iv ++ tag)) [] [] in
  gcm_decrypt_and_verify arm 2 s =
    Ok 1 (set_data (stub_gcm_run iv [0; 0] ++ drop 2 (data s))
            (with_rx1 [] s)).
Proof.
  intros iv tag s.
  apply (proj1 (proj2 (gcm_decrypt_and_verify_in_place arm 2 iv tag [] s
                         (eq_sym (app_nil_r _)) eq_refl eq_refl))).
  reflexivity.
Defined.

(** ** [program_flash] and the flash contents *)

(** What [program_flash] does to the flash, whatever the driver reports:
    nothing outside the page, [0xFF] behind the data, [0xFF] all over the
    page when the first program call fails, and the full words of [src]
    when it succeeds. *)
Lemma program_flash_page page_addr src len s :
  0 <= len <= FLASH_PAGESIZE ->
  let st1 := hd 0 (flash_status s) in
  let full := len - len mod FLASH_WRITESIZE in
  exists r s',
    program_flash page_addr src len s = Ok r s' /\
    (forall a, ~ (page_addr <= a < page_addr + FLASH_PAGESIZE) ->
       flash s' a = flash s a) /\
    (forall k, len <= k < FLASH_PAGESIZE -> flash s' (page_addr + k) = 0xFF) /\
    (st1 <> 0 ->
       r <> 0 /\
       forall k, 0 <= k < FLASH_PAGESIZE -> flash s' (page_addr + k) = 0xFF) /\
    (st1 = 0 -> (Z.to_nat full <= length src)%nat ->
       forall k, 0 <= k < full ->
         flash s' (page_addr + k) = to_u8 (at_ src k)) /\
    uart0 s' = uart0 s /\ uart1 s' = uart1 s /\ uart2 s' = uart2 s /\
    data s' = data s /\ fw_release_message s' = fw_release_message s.
Proof.
  intros Hlen st1 full. unfold FLASH_PAGESIZE in *.
  unfold program_flash, bind, FlashErase.
  destruct (len mod FLASH_WRITESIZE =? 0) eqn:Hrem; cbn [negb].
  - apply Z.eqb_eq in Hrem.
    assert (Hfull : full = len) by (unfold full; lia).
    unfold FlashProgram. cbn [flash flash_status set_flash flash_log].
    fold st1. eexists _, _. split; [reflexivity|].
    cbn [flash set_flash uart0 uart1 uart2 data fw_release_message].
    pose proof (length_take src (Z.to_nat len)) as Hl.
    split; [|split; [|split; [|split; [|repeat split]]]].
    + intros a Ha. destruct (st1 =? 0);
        rewrite ?length_map; unfold FLASH_PAGESIZE; in_range; reflexivity.
    + intros k Hk. destruct (st1 =? 0);
        rewrite ?length_map; unfold FLASH_PAGESIZE; in_range; reflexivity.
    + intros Hst. split; [exact Hst|]. intros k Hk.
      replace (st1 =? 0) with false by (symmetry; apply Z.eqb_neq; exact Hst).
      unfold FLASH_PAGESIZE. in_range. reflexivity.
    + intros Hst Hsrc k Hk. rewrite Hst. cbn [Z.eqb].
      rewrite length_map_take by lia. unfold FLASH_PAGESIZE. in_range.
      replace (page_addr + k - page_addr) with k by lia.
      rewrite at_map_take by lia. apply land_erased.
  - apply Z.eqb_neq in Hrem.
    set (rem := len mod FLASH_WRITESIZE) in *.
    assert (Hr : 1 <= rem <= 3)
      by (unfold rem, FLASH_WRITESIZE in *; Z.div_mod_to_equations; lia).
    assert (Hfull : 0 <= full /\ full + 4 <= 1024 /\ full = len - rem)
      by (unfold full, rem, FLASH_WRITESIZE in *; Z.div_mod_to_equations; lia).
    fold full.
    unfold FlashProgram at 1. cbn [flash flash_status set_flash flash_log].
    fold st1.
    pose proof (length_take src (Z.to_nat full)) as Hl.
    destruct (st1 =? 0) eqn:Hst1; cbn [negb].
    + apply Z.eqb_eq in Hst1.
      unfold FlashProgram. cbn [flash flash_status set_flash flash_log].
      set (w := last_word_fill (Z.to_nat (4 - rem))
                  (last_word_shift (Z.to_nat rem) 0 src full 0)).
      change (take (Z.to_nat 4) (word_bytes w)) with (word_bytes w).
      unfold w. rewrite word_bytes_bytes, last_word_bytes by exact Hr.
      eexists _, _. split; [reflexivity|].
      cbn [flash set_flash uart0 uart1 uart2 data fw_release_message].
      rewrite length_app, length_map, length_seqZ, length_replicate.
      replace (Z.of_nat (Z.to_nat rem + Z.to_nat (4 - rem))) with 4 by lia.
      split; [|split; [|split; [|split; [|repeat split]]]].
      * intros a Ha. destruct (hd 0 (tl (flash_status s)) =? 0);
          rewrite ?length_map; unfold FLASH_PAGESIZE; in_range; reflexivity.
      * intros k Hk. rewrite length_map.
        destruct (hd 0 (tl (flash_status s)) =? 0).
        -- destruct (Z.lt_ge_cases k (full + 4)) as [Hk4|Hk4].
           ++ unfold FLASH_PAGESIZE. in_range.
              unfold at_.
              rewrite app_nth2
                by (rewrite length_map, length_seqZ; lia).
              rewrite length_map, length_seqZ.
              rewrite nth_lookup, lookup_replicate_2 by lia. reflexivity.
           ++ unfold FLASH_PAGESIZE. in_range. reflexivity.
        -- unfold FLASH_PAGESIZE. in_range. reflexivity.
      * intros Hst. contradiction.
      * intros _ Hsrc k Hk. rewrite length_map_take by lia.
        destruct (hd 0 (tl (flash_status s)) =? 0);
          unfold FLASH_PAGESIZE; in_range;
          replace (page_addr + k - page_addr) with k by lia;
          rewrite at_map_take by lia; apply land_erased.
    + apply Z.eqb_neq in Hst1. unfold ret.
      eexists _, _. split; [reflexivity|].
      cbn [flash set_flash uart0 uart1 uart2 data fw_release_message].
      split; [|split; [|split; [|split; [|repeat split]]]].
      * intros a Ha. unfold FLASH_PAGESIZE. in_range. reflexivity.
      * intros k Hk. unfold FLASH_PAGESIZE. in_range. reflexivity.
      * intros _. split; [exact Hst1|]. intros k Hk.
        unfold FLASH_PAGESIZE. in_range. reflexivity.
      * intros Hst. contradiction.
Qed.

(** X4. A [program_flash] that returns 0 can be read back: the page holds
    the [len] bytes of [src] from its start and [0xFF] behind them, and
    every byte outside the page is as before. *)
Theorem program_flash_reads_back (page_addr : Z) (src : list Z) (len : Z)
    (s s' : state) :
  program_flash page_addr src len s = Ok 0 s' ->
  0 <= len <= FLASH_PAGESIZE -> (Z.to_nat len <= length src)%nat ->
  (forall k, 0 <= k < len -> flash s' (page_addr + k) = to_u8 (at_ src k)) /\
  (forall k, len <= k < FLASH_PAGESIZE -> flash s' (page_addr + k) = 0xFF) /\
  (forall a, ~ (page_addr <= a < page_addr + FLASH_PAGESIZE) ->
     flash s' a = flash s a).
Proof.
  intros Hrun Hlen Hsrc.
  destruct (program_flash_ok _ _ _ _ _ Hrun Hlen Hsrc) as (Hin & Hout & _).
  destruct (program_flash_page page_addr src len s Hlen)
    as (r & s'' & Hrun' & _ & Hrest & _).
  rewrite Hrun in Hrun'. injection Hrun' as _ <-.
  split; [exact Hin|]. split; [exact Hrest | exact Hout].
Qed.

Lemma program_flash_reads_back_witness :
  let src := [7; 0; 5; 0; 3; 0] in
  let s := device [] [] [] in
  let s' := final (program_flash METADATA_BASE src 6 s) in
  (forall k, 0 <= k < 6 -> flash s' (METADATA_BASE + k) = to_u8 (at_ src k)) /\
  (forall k, 6 <= k < FLASH_PAGESIZE -> flash s' (METADATA_BASE + k) = 0xFF) /\
  (forall a, ~ (METADATA_BASE <= a < METADATA_BASE + FLASH_PAGESIZE) ->
     flash s' a = flash s a).
Proof.
  intros src s s'.
  apply (program_flash_reads_back METADATA_BASE src 6 s s').
  - reflexivity.
  - unfold FLASH_PAGESIZE. lia.
  - cbn. lia.
Defined.

(** The bytes a driver call addresses lie in the page at [page_addr]. *)
Definition in_page (page_addr : Z) (op : flash_op) : Prop :=
  match op with
  | Erase a => a = page_addr
  | Program a bytes _ =>
      page_addr <= a /\
      a + Z.of_nat (length bytes) <= page_addr + FLASH_PAGESIZE
  end.

(** No program call among [ops] addresses the byte at [a]. *)
Definition not_programmed (ops : list flash_op) (a : Z) : Prop :=
  forall b bytes st,
    In (Program b bytes st) ops -> ~ (b <= a < b + Z.of_nat (length bytes)).

Lemma program_flash_in_page page_addr src len s :
  0 <= len <= FLASH_PAGESIZE ->
  Forall (in_page page_addr)
    (drop (length (flash_log s))
       (flash_log (final (program_flash page_addr src len s)))).
Proof.
  intros Hlen.
  destruct (program_flash_run page_addr src len s)
    as (r & s' & ops & Hrun & Hlog & H0 & H1 & H2).
  rewrite Hrun. cbn [final]. rewrite Hlog, drop_app_length.
  set (rem := len mod FLASH_WRITESIZE) in *.
  assert (Hrem : 0 <= rem < 4)
    by (unfold rem, FLASH_WRITESIZE; apply Z.mod_pos_bound; lia).
  assert (Hfit : forall n, 0 <= n <= len ->
            page_addr <= page_addr /\
            page_addr + Z.of_nat (length (map to_u8 (take (Z.to_nat n) src)))
              <= page_addr + FLASH_PAGESIZE).
  { intros n Hn. rewrite length_map, length_take. lia. }
  assert (Hfull : 0 <= len - rem <= len /\ len - rem + 4 <= 1024 + 4)
    by (unfold rem, FLASH_WRITESIZE, FLASH_PAGESIZE in *;
        Z.div_mod_to_equations; lia).
  constructor; [reflexivity|].
  destruct (Z.eq_dec rem 0) as [Hr|Hr].
  - destruct (H0 Hr) as [-> _]. constructor; [|constructor].
    apply Hfit. lia.
  - destruct (Z.eq_dec (hd 0 (flash_status s)) 0) as [Hs|Hs].
    + destruct (H1 Hr Hs) as [-> _].
      constructor; [apply Hfit; lia|]. constructor; [|constructor].
      cbn [in_page]. rewrite length_app, length_map, length_seqZ,
        length_replicate.
      assert (len - rem + 4 <= 1024)
        by (unfold rem, FLASH_WRITESIZE, FLASH_PAGESIZE in *;
            Z.div_mod_to_equations; lia).
      unfold FLASH_PAGESIZE. lia.
    + destruct (H2 Hr Hs) as [-> _]. constructor; [|constructor].
      apply Hfit. lia.
Qed.

(** A byte of the page that no program call addressed is as the erase
    left it. *)
Lemma program_flash_erased page_addr src len s k :
  0 <= len <= FLASH_PAGESIZE -> (Z.to_nat len <= length src)%nat ->
  0 <= k < FLASH_PAGESIZE ->
  let s' := final (program_flash page_addr src len s) in
  not_programmed (drop (length (flash_log s)) (flash_log s'))
    (page_addr + k) ->
  flash s' (page_addr + k) = 0xFF.
Proof.
  intros Hlen Hsrc Hk s' Hnot. unfold s' in *. clear s'.
  destruct (program_flash_page page_addr src len s Hlen)
    as (r & s' & Hrun & _ & Hrest & Hfail & _).
  destruct (program_flash_run page_addr src len s)
    as (r' & s'' & ops & Hrun' & Hlog & H0 & H1 & H2).
  rewrite Hrun in Hrun'. injection Hrun' as <- <-.
  rewrite Hrun in *. cbn [final] in *.
  rewrite Hlog, drop_app_length in Hnot.
  set (rem := len mod FLASH_WRITESIZE) in *.
  assert (Hfull : 0 <= len - rem <= len)
    by (unfold rem, FLASH_WRITESIZE, FLASH_PAGESIZE in *;
        Z.div_mod_to_equations; lia).
  assert (Htake : forall n, 0 <= n <= len ->
            Z.of_nat (length (map to_u8 (take (Z.to_nat n) src))) = n).
  { intros n Hn. rewrite length_map, length_take. lia. }
  destruct (Z.eq_dec rem 0) as [Hr|Hr].
  - destruct (H0 Hr) as [-> _]. apply Hrest.
    pose proof (Hnot page_addr _ _ (or_intror (or_introl eq_refl))) as Hn1.
    rewrite Htake in Hn1 by lia. lia.
  - destruct (Z.eq_dec (hd 0 (flash_status s)) 0) as [Hs|Hs].
    + destruct (H1 Hr Hs) as [-> _]. apply Hrest.
      pose proof (Hnot page_addr _ _ (or_intror (or_introl eq_refl))) as Hn1.
      pose proof (Hnot (page_addr + (len - rem)) _ _
                    (or_intror (or_intror (or_introl eq_refl)))) as Hn2.
      rewrite Htake in Hn1 by lia.
      rewrite length_app, length_map, length_seqZ, length_replicate in Hn2.
      assert (Hrem : 1 <= rem <= 3)
        by (unfold rem, FLASH_WRITESIZE in *; Z.div_mod_to_equations; lia).
      lia.
    + apply (proj2 (Hfail Hs)). exact Hk.
Qed.

(** X5. Whatever the driver reports, [program_flash] of at most a page
    returns and stays in its page: every driver call it makes addresses
    bytes of that page only, no flash byte outside the page changes, every
    byte of the page that no program call addressed reads [0xFF], and
    neither the UARTs nor the two buffers are touched.  When the first
    program call reports a failure, the result is non-zero. *)
Theorem program_flash_stays_in_page (page_addr : Z) (src : list Z) (len : Z)
    (s : state) :
  0 <= len <= FLASH_PAGESIZE -> (Z.to_nat len <= length src)%nat ->
  exists r s',
    program_flash page_addr src len s = Ok r s' /\
    let ops := drop (length (flash_log s)) (flash_log s') in
    Forall (in_page page_addr) ops /\
    (forall a, ~ (page_addr <= a < page_addr + FLASH_PAGESIZE) ->
       flash s' a = flash s a) /\
    (forall k, 0 <= k < FLASH_PAGESIZE ->
       not_programmed ops (page_addr + k) ->
       flash s' (page_addr + k) = 0xFF) /\
    (hd 0 (flash_status s) <> 0 -> r <> 0) /\
    uart0 s' = uart0 s /\ uart1 s' = uart1 s /\ uart2 s' = uart2 s /\
    data s' = data s /\ fw_release_message s' = fw_release_message s.
Proof.
  intros Hlen Hsrc.
  pose proof (program_flash_in_page page_addr src len s Hlen) as Hin.
  pose proof (fun k => program_flash_erased page_addr src len s k Hlen Hsrc)
    as Her.
  destruct (program_flash_page page_addr src len s Hlen)
    as (r & s' & Hrun & Hout & _ & Hfail & _ & Hu).
  rewrite Hrun in Hin, Her. cbn [final] in Hin, Her.
  exists r, s'. split; [exact Hrun|]. cbv zeta.
  split; [exact Hin|]. split; [exact Hout|]. split; [exact Her|].
  split; [intros Hst; apply (Hfail Hst) | exact Hu].
Qed.

Lemma program_flash_stays_in_page_witness :
  let s := device [] [] [1] in
  exists r s',
    program_flash METADATA_BASE [7; 0; 5; 0; 3; 0] 6 s = Ok r s' /\
    Forall (in_page METADATA_BASE) (flash_log s') /\
    r <> 0 /\
    flash s' RELEASE_BASE = flash s RELEASE_BASE /\
    flash s' (METADATA_BASE + 4) = 0xFF.
Proof.
  intros s.
  destruct (program_flash_stays_in_page METADATA_BASE [7; 0; 5; 0; 3; 0] 6 s)
    as (r & s' & Hrun & Hin & Hout & Her & Hfail & _).
  - unfold FLASH_PAGESIZE. lia.
  - cbn [length]. lia.
  - exists r, s'. split; [exact Hrun|]. split; [exact Hin|].
    split; [apply Hfail; discriminate|].
    split; [apply Hout; unfold METADATA_BASE, RELEASE_BASE, FLASH_PAGESIZE; lia|].
    apply Her; [unfold FLASH_PAGESIZE; lia|].
    assert (Hs' : s' = final (program_flash METADATA_BASE
                                [7; 0; 5; 0; 3; 0] 6 s))
      by (rewrite Hrun; reflexivity).
    rewrite Hs'. unfold not_programmed. intros b bytes st Hop. vm_compute in Hop.
    destruct Hop as [Hop|[Hop|[]]]; [discriminate Hop|].
    injection Hop as <- <- _. cbn [length]. unfold METADATA_BASE. lia.
Defined.

(** ** The frame header and the frame count *)

(** X6. Frames must come in order, within the announced count and with
    the version of the update: a header whose index is not the next one,
    or is above [frame_number], or whose version differs from the
    metadata's, ends the update on the error path whatever MAC comes with
    it, before any byte of the frame is read or stored. *)
Theorem frame_header_must_match (X : Extern) (fuel : nat)
    (version size frame_number index_check bytes_recieved : Z) (s : state)
    (frm mac : list Z) (rest : list (Z * bool)) :
  rx (uart1 s) = sent (frm ++ mac) ++ rest ->
  length frm = 6%nat -> length mac = 32%nat ->
  le16 (map to_char frm) 0 <> index_check \/
  le16 (map to_char frm) 0 > frame_number \/
  le16 (map to_char frm) 4 <> version ->
  let s' := error_exit (with_rx1 rest s) in
  frames_loop X (S fuel) version size frame_number index_check
    bytes_recieved s = Stop Reset s' /\
  tx (uart1 s') = tx (uart1 s) ++ [ERROR] /\
  rx (uart1 s') = rest /\
  flash s' = flash s /\ flash_log s' = flash_log s /\ data s' = data s.
Proof.
  intros Hrx Hfrm Hmac Hbad s'. split.
  - apply (frames_loop_header_rejected X fuel version size frame_number
             index_check bytes_recieved s frm mac rest Hrx Hfrm Hmac).
    unfold header_fails. destruct Hbad as [H|[H|H]].
    + right; left. exact H.
    + right; right; left. exact H.
    + right; right; right; right; left. intros E. apply H. symmetry. exact E.
  - unfold s'. rewrite error_exit_uart1. cbn [tx rx].
    split; [reflexivity|]. split; [reflexivity|].
    split; [apply (error_exit_flash (with_rx1 rest s))|].
    split; [apply (error_exit_flash (with_rx1 rest s))|].
    apply (error_exit_buffers (with_rx1 rest s)).
Qed.

Lemma frame_header_must_match_witness :
  let frm := [1; 0; 5; 0; 7; 0] in
  let s := device (sent (frm ++ stub_hmac frm)) [] [] in
  let s' := error_exit (with_rx1 [] s) in
  frames_loop arm 3 7 2000 1 0 0 s = Stop Reset s' /\
  tx (uart1 s') = tx (uart1 s) ++ [ERROR] /\
  rx (uart1 s') = [] /\
  flash s' = flash s /\ flash_log s' = flash_log s /\ data s' = data s.
Proof.
  intros frm s.
  apply (frame_header_must_match arm 2 7 2000 1 0 0 s frm (stub_hmac frm) []).
  - symmetry. apply app_nil_r.
  - reflexivity.
  - reflexivity.
  - left. vm_compute. discriminate.
Defined.

(** X7. For a firmware of 1 to [FW_MAX_SIZE] bytes [frame_number] is the
    index of the last page, whatever the tool chain does with negative
    values: at most 29, with frames 0 to [frame_number] of a page each
    just covering the firmware. *)
Theorem frame_number_is_last_page (X : Extern) (size : Z) :
  1 <= size <= FW_MAX_SIZE ->
  let n := frame_number_of X size in
  n = (size - 1) / FLASH_PAGESIZE /\
  0 <= n <= 29 /\
  FLASH_PAGESIZE * n < size <= FLASH_PAGESIZE * (n + 1).
Proof.
  intros Hsize n. unfold n. unfold FW_MAX_SIZE, FLASH_PAGESIZE in *.
  rewrite frame_number_of_pos by lia.
  split; [reflexivity|]. Z.div_mod_to_equations. lia.
Qed.

Lemma frame_number_is_last_page_witness :
  frame_number_of wrapping 1025 = (1025 - 1) / FLASH_PAGESIZE /\
  0 <= frame_number_of wrapping 1025 <= 29 /\
  FLASH_PAGESIZE * frame_number_of wrapping 1025 < 1025
    <= FLASH_PAGESIZE * (frame_number_of wrapping 1025 + 1).
Proof.
  apply (frame_number_is_last_page wrapping 1025).
  unfold FW_MAX_SIZE. lia.
Defined.

(** ** The stored version *)

(** The version bytes as a number. *)
Lemma stored_version_eq s :
  stored_version s =
  to_u8 (flash s METADATA_BASE) + 256 * to_u8 (flash s (METADATA_BASE + 1)).
Proof.
  unfold stored_version.
  pose proof (to_u8_range (flash s METADATA_BASE)) as R0.
  pose proof (to_u8_range (flash s (METADATA_BASE + 1))) as R1.
  rewrite Z.lor_comm, Z.shiftl_mul_pow2 by lia.
  rewrite (lor_disjoint_add _ (to_u8 (flash s (METADATA_BASE + 1))) 8)
    by (change (2 ^ 8) with 256; lia).
  change (2 ^ 8) with 256. unfold to_u16. rewrite Z.mod_small; lia.
Qed.

Lemma stored_version_bytes s b0 b1 :
  flash s METADATA_BASE = to_u8 b0 ->
  flash s (METADATA_BASE + 1) = to_u8 b1 ->
  stored_version s = to_u8 b0 + 256 * to_u8 b1.
Proof.
  intros H0 H1. rewrite stored_version_eq, H0, H1, !to_u8_idem. reflexivity.
Qed.

Lemma le16_bytes b k :
  is_byte (at_ b k) -> is_byte (at_ b (k + 1)) ->
  le16 b k = at_ b k + 256 * at_ b (k + 1).
Proof.
  unfold is_byte, le16, to_u16. intros H0 H1.
  rewrite (Z.mod_small (at_ b k)), (Z.mod_small (at_ b (k + 1))) by lia.
  rewrite Z.shiftl_mul_pow2 by lia.
  rewrite (lor_disjoint_add (at_ b k) (at_ b (k + 1)) 8)
    by (change (2 ^ 8) with 256; lia).
  change (2 ^ 8) with 256. rewrite Z.mod_small; lia.
Qed.

Lemma stored_version_range s : 0 <= stored_version s < 65536.
Proof. unfold stored_version, to_u16. apply Z.mod_pos_bound. lia. Qed.

Lemma stored_version_flash s s' :
  flash s' METADATA_BASE = flash s METADATA_BASE ->
  flash s' (METADATA_BASE + 1) = flash s (METADATA_BASE + 1) ->
  stored_version s' = stored_version s.
Proof. unfold stored_version. intros -> ->. reflexivity. Qed.

Lemma at_byte l k : Forall is_byte l -> is_byte (at_ l k).
Proof.
  intros H. unfold at_.
  destruct (nth_in_or_default (Z.to_nat k) l 0) as [Hin| ->].
  - rewrite Forall_forall in H. apply H. apply list_elem_of_In. exact Hin.
  - unfold is_byte. lia.
Qed.

Lemma to_u8_byte b : is_byte b -> to_u8 b = b.
Proof. unfold is_byte, to_u8. intros H. apply Z.mod_small. lia. Qed.

(** What [uart_read_variable] stores are bytes. *)
Lemma uart_read_variable_loop_bytes n : forall i da s,
  Forall is_byte da ->
  post (uart_read_variable_loop n i da) s
    (fun da' _ => Forall is_byte da') (fun _ _ => True).
Proof.
  induction n as [|n IH]; intros i da s Hda.
  - exact Hda.
  - cbn [uart_read_variable_loop]. unfold post, bind at 1.
    destruct (uart_read UART1 BLOCKING s) as [[b rd] s1|e s1]; [|exact I].
    cbn [fst snd].
    assert (Hda' : Forall is_byte (<[Z.to_nat i:=to_char b]> da))
      by (apply Forall_insert; [exact Hda | apply to_char_byte]).
    unfold bind at 1.
    destruct (check_read rd s1) as [r s2|e s2]; [|exact I].
    destruct (negb (r =? 0)); [exact Hda'|].
    apply (IH (i + 1) _ s2 Hda').
Qed.

Lemma replicate_bytes n : Forall is_byte (replicate n 0).
Proof. apply Forall_replicate. unfold is_byte. lia. Qed.

(** All flash bytes below the firmware region are as before. *)
Definition below_firmware_kept (s s' : state) : Prop :=
  forall a, a < FW_BASE -> flash s' a = flash s a.

Lemma below_firmware_kept_trans s1 s2 s3 :
  below_firmware_kept s1 s2 -> below_firmware_kept s2 s3 ->
  below_firmware_kept s1 s3.
Proof. intros H1 H2 a Ha. rewrite H2, H1 by exact Ha. reflexivity. Qed.

(** The page loop writes firmware pages only, however it ends. *)
Lemma flash_firmware_loop_low size fuel : forall i page_addr s,
  page_addr = FW_BASE + i -> 0 <= i -> size <= FW_MAX_SIZE ->
  post (flash_firmware_loop fuel i page_addr size) s
    (fun _ s' => below_firmware_kept s s')
    (fun _ s' => below_firmware_kept s s').
Proof.
  induction fuel as [|fuel IH]; intros i page_addr s Hpa Hi Hsize.
  - intros a _. reflexivity.
  - rewrite flash_firmware_loop_S. unfold post.
    destruct (i <? size) eqn:Hlt; [|intros a _; reflexivity].
    apply Z.ltb_lt in Hlt. cbv zeta.
    set (len := if to_u16 (size - i) >? FLASH_PAGESIZE then FLASH_PAGESIZE
                else to_u16 (size - i)).
    assert (Hlen : 0 <= len <= FLASH_PAGESIZE).
    { unfold len. pose proof (Z.mod_pos_bound (size - i) 65536 ltac:(lia)).
      fold (to_u16 (size - i)) in H.
      destruct (to_u16 (size - i) >? FLASH_PAGESIZE) eqn:E;
        [|rewrite Z.gtb_ltb in E; apply Z.ltb_ge in E];
        unfold FLASH_PAGESIZE in *; lia. }
    unfold bind at 1, get_data. unfold bind at 1.
    destruct (program_flash_page page_addr (drop (Z.to_nat i) (data s)) len s
                Hlen) as (r & s1 & Hrun & Hout & _).
    rewrite Hrun.
    assert (H1 : below_firmware_kept s s1).
    { intros a Ha. apply Hout. subst page_addr. lia. }
    destruct (negb (r =? 0)).
    + rewrite send_err_then. intros a Ha.
      rewrite (proj1 (error_exit_flash s1)). apply H1, Ha.
    + specialize (IH (i + FLASH_PAGESIZE) (to_u32 (page_addr + FLASH_PAGESIZE))
                    s1).
      unfold post in IH.
      assert (Hp : to_u32 (page_addr + FLASH_PAGESIZE) =
                   FW_BASE + (i + FLASH_PAGESIZE)).
      { subst page_addr. unfold to_u32, FW_BASE, FLASH_PAGESIZE, FW_MAX_SIZE in *.
        rewrite Z.mod_small; lia. }
      specialize (IH Hp ltac:(unfold FLASH_PAGESIZE; lia) Hsize).
      destruct (flash_firmware_loop fuel _ _ size s1) as [u s2|e s2];
        eapply below_firmware_kept_trans; eassumption.
Qed.

(** However the flash phase ends, the stored version is the one before,
    or [0xFFFF] of an erased page, or the version of the update. *)
Lemma load_firmware_flash_version m v size r s :
  length m = 6%nat -> Forall is_byte m ->
  size <= FW_MAX_SIZE -> 0 <= r <= RELEASE_MAX_SIZE ->
  let P := fun s' =>
    stored_version s' = stored_version s \/ stored_version s' = 65535 \/
    (v <> 0 /\ stored_version s' = le16 m 0) in
  post (load_firmware_flash (m, v, size, r)) s (fun _ => P) (fun _ => P).
Proof.
  intros Hm Hb Hsize Hr P.
  unfold load_firmware_flash, post. unfold bind at 1.
  pose proof (flash_firmware_loop_low size (S (Z.to_nat size)) 0 FW_BASE s
                ltac:(lia) ltac:(lia) Hsize) as H1.
  unfold post in H1.
  assert (Hkeep : forall s', below_firmware_kept s s' ->
            stored_version s' = stored_version s).
  { intros s' K. apply stored_version_flash; apply K;
      unfold METADATA_BASE, FW_BASE; lia. }
  destruct (flash_firmware_loop _ 0 FW_BASE size s) as [u s1|e s1];
    [|left; apply Hkeep, H1].
  unfold bind at 1.
  set (m' := if v =? 0
             then <[1%nat:=to_char (to_u8 (flash s1 (METADATA_BASE + 1)))]>
                    (<[0%nat:=to_char (to_u8 (flash s1 METADATA_BASE))]> m)
             else m).
  assert (Hm' : (if v =? 0
            then b0 <- flash_read8 METADATA_BASE;;
                 b1 <- flash_read8 (METADATA_BASE + 1);;
                 ret (<[1%nat:=to_char b1]> (<[0%nat:=to_char b0]> m))
            else ret m) s1 = Ok m' s1).
  { unfold m'. destruct (v =? 0); reflexivity. }
  rewrite Hm'. clear Hm'.
  assert (Hlen' : length m' = 6%nat).
  { unfold m'. destruct (v =? 0); rewrite ?length_insert; exact Hm. }
  destruct (program_flash_page METADATA_BASE m' FW_METADATA_SIZE s1
              ltac:(unfold FW_METADATA_SIZE, FLASH_PAGESIZE; lia))
    as (r1 & s2 & Hrun & Hout & _ & Hfail & Hok & _).
  unfold bind at 1. rewrite Hrun.
  assert (P2 : P s2 /\ (r1 = 0 -> hd 0 (flash_status s1) = 0)).
  { destruct (Z.eq_dec (hd 0 (flash_status s1)) 0) as [Hst|Hst].
    - split; [|auto].
      assert (H0 : flash s2 METADATA_BASE = to_u8 (at_ m' 0)).
      { replace METADATA_BASE with (METADATA_BASE + 0) at 1 by lia.
        apply (Hok Hst); [rewrite Hlen'; vm_compute; lia | vm_compute; split; congruence]. }
      assert (H1' : flash s2 (METADATA_BASE + 1) = to_u8 (at_ m' 1)).
      { apply (Hok Hst); [rewrite Hlen'; vm_compute; lia | vm_compute; split; congruence]. }
      unfold P. rewrite (stored_version_bytes s2 _ _ H0 H1').
      destruct m as [|a0 [|a1 [|a2 [|a3 [|a4 [|a5 [|]]]]]]];
        try discriminate Hm.
      unfold m'. destruct (v =? 0) eqn:Hv.
      + left. change (to_u8 (to_char (to_u8 (flash s1 METADATA_BASE))) +
                256 * to_u8 (to_char (to_u8 (flash s1 (METADATA_BASE + 1)))) =
                stored_version s).
        rewrite !to_u8_to_char, ?to_u8_idem.
        rewrite <- (Hkeep s1 H1).
        symmetry. apply stored_version_eq.
      + right; right. apply Z.eqb_neq in Hv. split; [exact Hv|].
        pose proof (at_byte _ 0 Hb) as B0. pose proof (at_byte _ 1 Hb) as B1.
        rewrite le16_bytes by assumption.
        change (to_u8 a0 + 256 * to_u8 a1 = a0 + 256 * a1).
        change (is_byte a0) in B0. change (is_byte a1) in B1.
        rewrite !to_u8_byte by assumption. reflexivity.
    - destruct (Hfail Hst) as [Hr1 Hff]. split; [|contradiction].
      unfold P. right; left.
      rewrite (stored_version_bytes s2 0xFF 0xFF); [reflexivity | |].
      + replace METADATA_BASE with (METADATA_BASE + 0) at 1 by lia.
        apply Hff. unfold FLASH_PAGESIZE. lia.
      + apply Hff. unfold FLASH_PAGESIZE. lia. }
  destruct P2 as [P2 _].
  destruct (negb (r1 =? 0)).
  { rewrite send_err_then. unfold P in *.
    cbv beta iota.
    rewrite (stored_version_flash s2 (error_exit s2)) by
      (rewrite (proj1 (error_exit_flash s2)); reflexivity).
    exact P2. }
  unfold bind at 1, get_fw_release_message. unfold bind at 1.
  destruct (program_flash_page RELEASE_BASE (fw_release_message s2) r s2
              ltac:(unfold RELEASE_MAX_SIZE, FLASH_PAGESIZE in *; lia))
    as (r2 & s3 & Hrun3 & Hout3 & _).
  rewrite Hrun3.
  assert (P3 : P s3).
  { unfold P in *.
    rewrite (stored_version_flash s2 s3); [exact P2 | |];
      apply Hout3; unfold RELEASE_BASE, METADATA_BASE, FLASH_PAGESIZE; lia. }
  destruct (negb (r2 =? 0)).
  - rewrite send_err_then. unfold P in *.
    cbv beta iota.
    rewrite (stored_version_flash s3 (error_exit s3)) by
      (rewrite (proj1 (error_exit_flash s3)); reflexivity).
    exact P3.
  - exact P3.
Qed.

Section StoredVersion.
Context (X : Extern).

(** What the metadata stage has checked when it returns: the six bytes,
    and a version that is 0 or not below the stored one. *)
Lemma load_firmware_metadata_checked s :
  post (load_firmware_metadata X) s
    (fun c _ => let '(m, v, _, _, _) := c in
       Forall is_byte m /\ (v = 0 \/ stored_version s <= v))
    (fun _ _ => True).
Proof.
  unfold load_firmware_metadata. apply post_bind.
  unfold post at 1. rewrite print_bolt_ok.
  apply post_bind.
  pose proof (uart_read_variable_post UART1 BLOCKING (replicate 6 0)
                FW_METADATA_SIZE (bolt_printed s)) as Hr.
  pose proof (uart_read_variable_loop_bytes
                (Z.to_nat (Z.min FW_METADATA_SIZE FLASH_PAGESIZE)) 0
                (replicate 6 0) (bolt_printed s) (replicate_bytes 6)) as Hb.
  fold (uart_read_variable UART1 BLOCKING (replicate 6 0) FW_METADATA_SIZE)
    in Hb.
  unfold post in Hr, Hb |- *.
  destruct (uart_read_variable _ _ _ _ (bolt_printed s)) as [m s1|e s1];
    [|exact I].
  destruct Hr as [Hr _]. apply post_bind.
  pose proof (sha_hmac_post X m FW_METADATA_SIZE s1) as Hh.
  unfold post in Hh |- *.
  destruct (sha_hmac X m FW_METADATA_SIZE s1) as [r s2|e s2]; [|exact I].
  destruct Hh as [-> Hr2]. cbn [Z.eqb]. cbv zeta.
  assert (Hfl : flash s2 = flash s).
  { apply reads_frame in Hr, Hr2. destruct Hr as [Hr _], Hr2 as [Hr2 _].
    rewrite Hr2, Hr. apply (bolt_printed_flash s). }
  unfold bind at 1, flash_read8. unfold bind at 1.
  rewrite Hfl. fold (stored_version s).
  destruct (negb (le16 m 0 =? 0) && (le16 m 0 <? stored_version s)) eqn:Hv.
  { rewrite send_err_then. exact I. }
  destruct (le16 m 2 >? FW_MAX_SIZE); [rewrite send_err_then; exact I|].
  destruct (le16 m 4 >? RELEASE_MAX_SIZE); [rewrite send_err_then; exact I|].
  unfold bind, uart_write, ret. split; [exact Hb|].
  apply andb_false_iff in Hv. destruct Hv as [Hv|Hv].
  - left. apply negb_false_iff, Z.eqb_eq in Hv. exact Hv.
  - right. apply Z.ltb_ge in Hv. exact Hv.
Qed.

Lemma final_void_result r : final (void_result r) = final r.
Proof. destruct r as [u s|[] s]; reflexivity. Qed.

End StoredVersion.

(** X8. [load_firmware] never lowers the stored version.  However the
    run ends (accepted, rejected, stalled, or failed in the middle of the
    flash writes) and whatever the host sends, the version read at
    [METADATA_BASE] afterwards is at least the one stored before. *)
Theorem stored_version_never_decreases (X : Extern) (s : state) :
  stored_version s <= stored_version (final (load_firmware X s)).
Proof.
  rewrite load_firmware_phases, final_void_result.
  assert (Hframe : forall s', frame s s' ->
            stored_version s <= stored_version s').
  { intros s' (Hf & _). unfold stored_version. rewrite Hf. lia. }
  destruct (load_firmware_metadata X s) as [c s1|e s1] eqn:Hm.
  2:{ apply Hframe.
      apply (framed_Stop _ _ _ _ _ _ (framed_load_firmware_metadata X) Hm). }
  destruct (framed_Ok _ _ _ _ _ _ (framed_load_firmware_metadata X) Hm)
    as [F1 Hc].
  destruct (framed_Ok _ _ _ _ _ _ (load_firmware_metadata_length X) Hm)
    as [_ Hlen].
  pose proof (post_Ok _ _ _ _ _ _ (load_firmware_metadata_checked X s) Hm)
    as Hchk.
  destruct c as [[[[m v] size] r] fn].
  destruct Hc as (Hv & _ & _ & Hfn & Bs & Br).
  destruct Hchk as [Hb Hver].
  assert (Hrange : 0 <= fn < 65536)
    by (rewrite Hfn; apply frame_number_of_range).
  destruct (load_firmware_receive X (m, v, size, r, fn) s1)
    as [c' s2|e s2] eqn:Hr.
  2:{ apply Hframe. eapply frame_trans; [exact F1|].
      apply (framed_Stop _ _ _ _ _ _
               (framed_load_firmware_receive X m v size r fn Hrange) Hr). }
  destruct (framed_Ok _ _ _ _ _ _
              (framed_load_firmware_receive X m v size r fn Hrange) Hr)
    as [F2 ->].
  assert (H2 : stored_version s2 = stored_version s).
  { destruct (frame_trans _ _ _ F1 F2) as (Hf & _).
    unfold stored_version. rewrite Hf. reflexivity. }
  pose proof (load_firmware_flash_version m v size r s2 Hlen Hb (proj2 Bs) Br)
    as Hfl.
  cbv zeta in Hfl. unfold post in Hfl.
  pose proof (stored_version_range s) as Rs.
  destruct (load_firmware_flash (m, v, size, r) s2) as [u s3|e s3];
    cbn [final]; rewrite H2 in Hfl;
    destruct Hfl as [Hfl|[Hfl|[Hv0 Hfl]]]; rewrite Hfl; try lia;
    rewrite <- Hv; destruct Hver; lia.
Qed.

(** ** An accepted update, whatever its version *)

(** When [load_firmware] returns, the flash holds what the metadata stage
    accepted and what the two buffers hold at the end. *)
Lemma load_firmware_accepted X s m v size r fn s1 :
  load_firmware_metadata X s = Ok (m, v, size, r, fn) s1 ->
  returns (load_firmware X s) = true ->
  length (data s) = Z.to_nat DATA_SIZE ->
  length (fw_release_message s) = Z.to_nat RELEASE_MAX_SIZE ->
  let s' := final (load_firmware X s) in
  let m' := if v =? 0
            then <[1%nat:=to_char (to_u8 (flash s (METADATA_BASE + 1)))]>
                   (<[0%nat:=to_char (to_u8 (flash s METADATA_BASE))]> m)
            else m in
  (Forall is_byte m /\ length m = 6%nat /\ v = le16 m 0 /\ r = le16 m 4 /\
   0 <= size <= FW_MAX_SIZE /\ 0 <= r <= RELEASE_MAX_SIZE) /\
  (forall k, 0 <= k < size ->
     flash s' (FW_BASE + k) = to_u8 (at_ (data s') k)) /\
  (forall k, 0 <= k < 6 -> flash s' (METADATA_BASE + k) = to_u8 (at_ m' k)) /\
  (forall k, 0 <= k < r ->
     flash s' (RELEASE_BASE + k) = to_u8 (at_ (fw_release_message s') k)) /\
  length (fw_release_message s') = Z.to_nat RELEASE_MAX_SIZE.
Proof.
  intros Hmeta Hret Hdata Hmsg.
  destruct (load_firmware_returns_inv X s Hret)
    as (c & s1' & c' & s2 & Hm & Hr & Hf).
  rewrite Hmeta in Hm. injection Hm as <- <-.
  set (s' := final (load_firmware X s)) in *. clearbody s'. cbv zeta.
  destruct (framed_Ok _ _ _ _ _ _ (framed_load_firmware_metadata X) Hmeta)
    as [F1 (Hv & _ & Hrr & Hfn & Bs & Br)].
  destruct (framed_Ok _ _ _ _ _ _ (load_firmware_metadata_length X) Hmeta)
    as [_ Hlen].
  destruct (post_Ok _ _ _ _ _ _ (load_firmware_metadata_checked X s) Hmeta)
    as [Hb _].
  assert (Hrange : 0 <= fn < 65536)
    by (rewrite Hfn; apply frame_number_of_range).
  destruct (framed_Ok _ _ _ _ _ _
              (framed_load_firmware_receive X m v size r fn Hrange) Hr)
    as [F2 ->].
  pose proof (frame_trans _ _ _ F1 F2) as (Hfl & _ & _ & _ & Ld & Lm).
  destruct (load_firmware_flash_ok _ _ _ _ _ _ Hf Bs Br Hlen)
    as (Hfw & Hmd & Hrel & Hd & Hmm).
  { rewrite Ld, Hdata.
    unfold DATA_SIZE, FW_MAX_SIZE, FW_METADATA_SIZE, RELEASE_MAX_SIZE in *. lia. }
  { rewrite Lm, Hmsg. unfold RELEASE_MAX_SIZE in *. lia. }
  rewrite Hfl in Hmd.
  split; [tauto|].
  split; [intros k Hk; rewrite Hd; apply Hfw; exact Hk|].
  split; [exact Hmd|].
  split; [intros k Hk; rewrite Hmm; apply Hrel; exact Hk|].
  rewrite Hmm, Lm. exact Hmsg.
Qed.

(** An update of one frame: version 7, five bytes of firmware, a message
    of three. *)
Definition release_upload : list Z :=
  one_frame_upload [7; 0; 5; 0; 3; 0] [0; 0; 5; 0; 7; 0] [10; 20; 30; 40; 50]
    [104; 105; 33] (replicate 16 1).

(** X9. An update accepted with a version other than 0 is committed in
    full: afterwards the stored version is the version of the update, the
    metadata page holds the six metadata bytes as received, the firmware
    pages hold the first [size] bytes of the staging buffer and the
    message page the first [r_msg_size] bytes of the message buffer. *)
Theorem accepted_update_is_committed (X : Extern) (s : state) (m : list Z)
    (v size r fn : Z) (s1 : state) :
  load_firmware_metadata X s = Ok (m, v, size, r, fn) s1 ->
  v <> 0 ->
  returns (load_firmware X s) = true ->
  length (data s) = Z.to_nat DATA_SIZE ->
  length (fw_release_message s) = Z.to_nat RELEASE_MAX_SIZE ->
  let s' := final (load_firmware X s) in
  stored_version s' = v /\
  (forall k, 0 <= k < 6 -> flash s' (METADATA_BASE + k) = at_ m k) /\
  (forall k, 0 <= k < size ->
     flash s' (FW_BASE + k) = to_u8 (at_ (data s') k)) /\
  (forall k, 0 <= k < r ->
     flash s' (RELEASE_BASE + k) = to_u8 (at_ (fw_release_message s') k)).
Proof.
  intros Hmeta Hv Hret Hdata Hmsg.
  destruct (load_firmware_accepted X s m v size r fn s1 Hmeta Hret Hdata Hmsg)
    as ((Hb & Hlen & Hve & _) & Hfw & Hmd & Hrel & _).
  cbv zeta. revert Hfw Hmd Hrel.
  generalize (final (load_firmware X s)). intros s' Hfw Hmd Hrel.
  replace (v =? 0) with false in Hmd by (symmetry; apply Z.eqb_neq; exact Hv).
  assert (Hmd' : forall k, 0 <= k < 6 -> flash s' (METADATA_BASE + k) = at_ m k).
  { intros k Hk. rewrite (Hmd k Hk). apply to_u8_byte, at_byte, Hb. }
  split; [|split; [exact Hmd'|split; [exact Hfw | exact Hrel]]].
  rewrite Hve, (le16_bytes m 0) by (apply at_byte, Hb).
  rewrite stored_version_eq.
  replace METADATA_BASE with (METADATA_BASE + 0) at 1 by lia.
  rewrite (Hmd' 0), (Hmd' 1) by lia.
  rewrite !to_u8_byte by (apply at_byte, Hb). reflexivity.
Qed.

Lemma accepted_update_is_committed_witness :
  let s := device (sent release_upload) [] [] in
  let s' := final (load_firmware arm s) in
  returns (load_firmware arm s) = true /\
  stored_version s = 5 /\
  stored_version s' = 7 /\
  (forall k, 0 <= k < 6 ->
     flash s' (METADATA_BASE + k) = at_ [7; 0; 5; 0; 3; 0] k) /\
  (forall k, 0 <= k < 5 ->
     flash s' (FW_BASE + k) = to_u8 (at_ (data s') k)) /\
  (forall k, 0 <= k < 3 ->
     flash s' (RELEASE_BASE + k) = to_u8 (at_ (fw_release_message s') k)).
Proof.
  intros s.
  pose (meta := [7; 0; 5; 0; 3; 0]).
  pose (rest := drop 38 (sent release_upload)).
  assert (H1 : load_firmware_metadata arm s =
               Ok (map to_char meta, 7, 5, 3, 0)
                  (emit UART1 [OK] (with_rx1 rest (bolt_printed s)))).
  { rewrite (load_firmware_metadata_sent arm s meta (stub_hmac meta) rest
               eq_refl eq_refl eq_refl).
    replace (negb _) with false by (vm_compute; reflexivity).
    replace (_ && _) with false by (vm_compute; reflexivity).
    replace (_ >? _) with false by (vm_compute; reflexivity).
    replace (_ >? _) with false by (vm_compute; reflexivity).
    reflexivity. }
  assert (H2 : returns (load_firmware arm s) = true)
    by (vm_compute; reflexivity).
  split; [exact H2|]. split; [vm_compute; reflexivity|].
  exact (accepted_update_is_committed arm s _ _ _ _ _ _ H1 ltac:(discriminate)
           H2 (length_replicate _ _) (length_replicate _ _)).
Defined.

(** ** [boot_firmware] *)

(** The message size [boot_firmware] reads from the metadata page. *)
Definition stored_msg_size (s : state) : Z :=
  to_u16 (Z.lor (Z.shiftl (to_u8 (flash s (METADATA_BASE + 5))) 8)
                (to_u8 (flash s (METADATA_BASE + 4)))).

Lemma stored_msg_size_eq s :
  stored_msg_size s =
  to_u8 (flash s (METADATA_BASE + 4)) +
  256 * to_u8 (flash s (METADATA_BASE + 5)).
Proof.
  unfold stored_msg_size.
  pose proof (to_u8_range (flash s (METADATA_BASE + 4))) as R0.
  pose proof (to_u8_range (flash s (METADATA_BASE + 5))) as R1.
  rewrite Z.lor_comm, Z.shiftl_mul_pow2 by lia.
  rewrite (lor_disjoint_add _ (to_u8 (flash s (METADATA_BASE + 5))) 8)
    by (change (2 ^ 8) with 256; lia).
  change (2 ^ 8) with 256. unfold to_u16. rewrite Z.mod_small; lia.
Qed.

Lemma stored_msg_size_range s : 0 <= stored_msg_size s < 65536.
Proof. unfold stored_msg_size, to_u16. apply Z.mod_pos_bound. lia. Qed.

(** The bytes of the message page from offset [i] on, [n] of them. *)
Definition stored_message (s : state) (i : Z) (n : Z) : list Z :=
  map (fun k => to_u8 (flash s (RELEASE_BASE + k))) (seqZ i n).

Lemma boot_message_loop n : forall i s,
  for_range n i (fun i =>
    c <- flash_read8 (RELEASE_BASE + i) ;; uart_write UART2 (to_char c)) s =
  Ok tt (emit UART2 (stored_message s i (Z.of_nat n)) s).
Proof.
  induction n as [|n IH]; intros i s.
  - cbn [for_range]. unfold ret. rewrite <- (emit_nil UART2 s) at 1.
    reflexivity.
  - cbn [for_range]. unfold bind at 1. unfold bind at 1, flash_read8.
    rewrite uart_write_emit, IH, emit_emit. unfold stored_message.
    rewrite (seqZ_cons i (Z.of_nat (S n))) by lia.
    replace (Z.pred (Z.of_nat (S n))) with (Z.of_nat n) by lia.
    replace (Z.succ i) with (i + 1) by lia.
    cbn [map app]. rewrite to_u8_to_char, to_u8_idem. reflexivity.
Qed.

Lemma boot_firmware_emits s :
  boot_firmware s =
  Ok tt (emit UART2
           (stored_message s 0 (Z.min (stored_msg_size s) RELEASE_MAX_SIZE)) s).
Proof.
  unfold boot_firmware. unfold bind at 1, flash_read8. unfold bind at 1.
  fold (stored_msg_size s).
  rewrite boot_message_loop. rewrite Z2Nat.id; [reflexivity|].
  pose proof (stored_msg_size_range s). unfold RELEASE_MAX_SIZE. lia.
Qed.

Lemma length_stored_message s i n : 0 <= n ->
  Z.of_nat (length (stored_message s i n)) = n.
Proof.
  intros H. unfold stored_message. rewrite length_map, length_seqZ. lia.
Qed.

(** X10. [boot_firmware] sends the stored release message on UART2: the
    bytes of the message page, as many as the size stored at
    [METADATA_BASE + 4] says but never more than [RELEASE_MAX_SIZE], so
    that no byte behind the message page is read.  Nothing is sent to the
    host, and flash, buffers and pending input are as before. *)
Theorem boot_firmware_prints_stored_message (s : state) :
  exists s',
    boot_firmware s = Ok tt s' /\
    tx (uart2 s') =
      tx (uart2 s) ++
      stored_message s 0 (Z.min (stored_msg_size s) RELEASE_MAX_SIZE) /\
    Z.of_nat (length (tx (uart2 s'))) <=
      Z.of_nat (length (tx (uart2 s))) + RELEASE_MAX_SIZE /\
    rx (uart2 s') = rx (uart2 s) /\
    uart0 s' = uart0 s /\ uart1 s' = uart1 s /\
    flash s' = flash s /\ flash_log s' = flash_log s /\
    data s' = data s /\ fw_release_message s' = fw_release_message s.
Proof.
  eexists. split; [apply boot_firmware_emits|].
  cbn [emit set_port get_port uart0 uart1 uart2 tx rx flash flash_log data
       fw_release_message].
  split; [reflexivity|]. split; [|repeat split].
  rewrite length_app, Nat2Z.inj_add, length_stored_message.
  - lia.
  - pose proof (stored_msg_size_range s). unfold RELEASE_MAX_SIZE. lia.
Qed.

Lemma stored_message_take s l n :
  0 <= n -> (Z.to_nat n <= length l)%nat ->
  (forall k, 0 <= k < n -> flash s (RELEASE_BASE + k) = to_u8 (at_ l k)) ->
  stored_message s 0 n = map to_u8 (take (Z.to_nat n) l).
Proof.
  intros Hn Hl Hf. unfold stored_message.
  apply list_eq. intros i.
  rewrite !list_lookup_fmap, lookup_take.
  destruct (decide (i < Z.to_nat n)%nat) as [Hi|Hi].
  - rewrite lookup_seqZ_lt by lia. cbn [fmap option_fmap option_map].
    rewrite Hf by lia.
    destruct (lookup_lt_is_Some_2 l i ltac:(lia)) as [x Hx].
    rewrite Hx. unfold at_. rewrite nth_lookup.
    replace (Z.to_nat (0 + Z.of_nat i)) with i by lia.
    rewrite Hx. cbn. rewrite to_u8_idem. reflexivity.
  - rewrite lookup_seqZ_ge by lia. reflexivity.
Qed.

(** After an accepted update the stored message size is the size of the
    update's message, and the message page holds that message. *)
Lemma accepted_message X s m v size r fn s1 :
  load_firmware_metadata X s = Ok (m, v, size, r, fn) s1 ->
  returns (load_firmware X s) = true ->
  length (data s) = Z.to_nat DATA_SIZE ->
  length (fw_release_message s) = Z.to_nat RELEASE_MAX_SIZE ->
  let s' := final (load_firmware X s) in
  stored_msg_size s' = r /\ 0 <= r <= RELEASE_MAX_SIZE /\
  stored_message s' 0 r =
    map to_u8 (take (Z.to_nat r) (fw_release_message s')).
Proof.
  intros Hmeta Hret Hdata Hmsg.
  destruct (load_firmware_accepted X s m v size r fn s1 Hmeta Hret Hdata Hmsg)
    as ((Hb & Hlen & _ & Hre & _ & Br) & _ & Hmd & Hrel & Hml).
  cbv zeta. revert Hmd Hrel Hml.
  generalize (final (load_firmware X s)). intros s' Hmd Hrel Hml.
  split; [|split; [exact Br|]].
  - rewrite stored_msg_size_eq, (Hmd 4), (Hmd 5) by lia.
    rewrite Hre, (le16_bytes m 4) by (apply at_byte, Hb).
    destruct m as [|a0 [|a1 [|a2 [|a3 [|a4 [|a5 [|]]]]]]];
      try discriminate Hlen.
    pose proof (at_byte _ 4 Hb) as B4. pose proof (at_byte _ 5 Hb) as B5.
    change (is_byte a4) in B4. change (is_byte a5) in B5.
    destruct (v =? 0);
      change (to_u8 (to_u8 a4) + 256 * to_u8 (to_u8 a5) = a4 + 256 * a5);
      rewrite !to_u8_idem, !to_u8_byte by assumption; reflexivity.
  - apply stored_message_take;
      [lia | rewrite Hml; unfold RELEASE_MAX_SIZE in *; lia | exact Hrel].
Qed.

(** X11. After an accepted update, whatever its version, booting sends
    the release message of that update: the first [r_msg_size] bytes of
    the message buffer, and nothing else. *)
Theorem boot_after_update_prints_its_message (X : Extern) (s : state)
    (m : list Z) (v size r fn : Z) (s1 : state) :
  load_firmware_metadata X s = Ok (m, v, size, r, fn) s1 ->
  returns (load_firmware X s) = true ->
  length (data s) = Z.to_nat DATA_SIZE ->
  length (fw_release_message s) = Z.to_nat RELEASE_MAX_SIZE ->
  let s' := final (load_firmware X s) in
  stored_msg_size s' = r /\
  boot_firmware s' =
    Ok tt (emit UART2 (map to_u8 (take (Z.to_nat r) (fw_release_message s')))
             s').
Proof.
  intros Hmeta Hret Hdata Hmsg.
  destruct (accepted_message X s m v size r fn s1 Hmeta Hret Hdata Hmsg)
    as (Hsz & Br & Hmsg').
  cbv zeta. revert Hsz Hmsg'.
  generalize (final (load_firmware X s)). intros s' Hsz Hmsg'.
  split; [exact Hsz|].
  rewrite boot_firmware_emits, Hsz, Z.min_l, Hmsg' by lia. reflexivity.
Qed.

Lemma boot_after_update_prints_its_message_witness :
  let s := device (sent release_upload) [] [] in
  let s' := final (load_firmware arm s) in
  returns (load_firmware arm s) = true /\
  tx (uart2 (final (boot_firmware s'))) = tx (uart2 s') ++ [104; 105; 33].
Proof.
  intros s s'.
  pose (meta := [7; 0; 5; 0; 3; 0]).
  pose (rest := drop 38 (sent release_upload)).
  assert (H1 : load_firmware_metadata arm s =
               Ok (map to_char meta, 7, 5, 3, 0)
                  (emit UART1 [OK] (with_rx1 rest (bolt_printed s)))).
  { rewrite (load_firmware_metadata_sent arm s meta (stub_hmac meta) rest
               eq_refl eq_refl eq_refl).
    replace (negb _) with false by (vm_compute; reflexivity).
    replace (_ && _) with false by (vm_compute; reflexivity).
    replace (_ >? _) with false by (vm_compute; reflexivity).
    replace (_ >? _) with false by (vm_compute; reflexivity).
    reflexivity. }
  assert (H2 : returns (load_firmware arm s) = true)
    by (vm_compute; reflexivity).
  split; [exact H2|].
  destruct (boot_after_update_prints_its_message arm s _ _ _ _ _ _ H1 H2
              (length_replicate _ _) (length_replicate _ _)) as [_ Hboot].
  fold s' in Hboot. rewrite Hboot.
  cbn [final emit set_port get_port uart2 tx]. f_equal.
Defined.

(** ** [load_initial_firmware] *)

(** The word [load_initial_firmware] tests, as a number. *)
Lemma flash_read32_eq addr s :
  flash_read32 addr s =
  Ok (to_u8 (flash s addr) + 256 * to_u8 (flash s (addr + 1)) +
      65536 * to_u8 (flash s (addr + 2)) +
      16777216 * to_u8 (flash s (addr + 3))) s.
Proof.
  unfold flash_read32. f_equal.
  pose proof (to_u8_range (flash s addr)) as R0.
  pose proof (to_u8_range (flash s (addr + 1))) as R1.
  pose proof (to_u8_range (flash s (addr + 2))) as R2.
  pose proof (to_u8_range (flash s (addr + 3))) as R3.
  set (b0 := to_u8 (flash s addr)) in *.
  set (b1 := to_u8 (flash s (addr + 1))) in *.
  set (b2 := to_u8 (flash s (addr + 2))) in *.
  set (b3 := to_u8 (flash s (addr + 3))) in *.
  rewrite !Z.shiftl_mul_pow2 by lia.
  rewrite (lor_disjoint_add (b2 * 2 ^ 16) b3 24)
    by (change (2 ^ 16) with 65536; change (2 ^ 24) with 16777216; lia).
  replace (b2 * 2 ^ 16 + b3 * 2 ^ 24) with ((b2 + b3 * 256) * 2 ^ 16)
    by (change (2 ^ 16) with 65536; change (2 ^ 24) with 16777216; lia).
  rewrite (lor_disjoint_add (b1 * 2 ^ 8) (b2 + b3 * 256) 16)
    by (change (2 ^ 16) with 65536; change (2 ^ 8) with 256; lia).
  replace (b1 * 2 ^ 8 + (b2 + b3 * 256) * 2 ^ 16)
    with ((b1 + (b2 + b3 * 256) * 256) * 2 ^ 8)
    by (change (2 ^ 16) with 65536; change (2 ^ 8) with 256; lia).
  rewrite (lor_disjoint_add b0 _ 8) by (change (2 ^ 8) with 256; lia).
  change (2 ^ 8) with 256. lia.
Qed.

(** The metadata page reads as erased in its first word. *)
Definition metadata_erased (s : state) : Prop :=
  forall k, 0 <= k < 4 -> to_u8 (flash s (METADATA_BASE + k)) = 0xFF.

Lemma flash_read32_erased s :
  metadata_erased s <->
  flash_read32 METADATA_BASE s = Ok 0xFFFFFFFF s.
Proof.
  rewrite flash_read32_eq.
  pose proof (to_u8_range (flash s METADATA_BASE)) as R0.
  pose proof (to_u8_range (flash s (METADATA_BASE + 1))) as R1.
  pose proof (to_u8_range (flash s (METADATA_BASE + 2))) as R2.
  pose proof (to_u8_range (flash s (METADATA_BASE + 3))) as R3.
  split.
  - intros H. pose proof (H 0 ltac:(lia)) as H0.
    replace (METADATA_BASE + 0) with METADATA_BASE in H0 by lia.
    rewrite H0, (H 1), (H 2), (H 3) by lia. reflexivity.
  - intros H. injection H as H. intros k Hk.
    assert (Hc : k = 0 \/ k = 1 \/ k = 2 \/ k = 3) by lia.
    destruct Hc as [->|[->|[->| ->]]];
      rewrite ?Z.add_0_r; lia.
Qed.

(** Every program call still to come succeeds. *)
Definition all_ok (s : state) : Prop :=
  Forall (fun st => st = 0) (flash_status s).

Lemma all_ok_hd s : all_ok s -> hd 0 (flash_status s) = 0.
Proof.
  unfold all_ok. destruct (flash_status s) as [|st l]; [reflexivity|].
  intros H. apply Forall_inv in H. exact H.
Qed.

Lemma all_ok_tl l : Forall (fun st : Z => st = 0) l ->
  Forall (fun st : Z => st = 0) (tl l).
Proof.
  destruct l as [|st l]; [auto|]. intros H. apply Forall_inv_tail in H. exact H.
Qed.

(** [program_flash] always returns, with the UARTs and the buffers as
    they were; with a driver that succeeds it returns 0. *)
Lemma program_flash_status page_addr src len s :
  exists r s',
    program_flash page_addr src len s = Ok r s' /\
    (all_ok s -> r = 0 /\ all_ok s') /\
    uart0 s' = uart0 s /\ uart1 s' = uart1 s /\ uart2 s' = uart2 s /\
    data s' = data s /\ fw_release_message s' = fw_release_message s.
Proof.
  unfold program_flash, bind, FlashErase.
  destruct (negb (len mod FLASH_WRITESIZE =? 0)).
  - unfold FlashProgram at 1. cbn [flash flash_status set_flash flash_log].
    destruct (negb (hd 0 (flash_status s) =? 0)) eqn:Hst.
    + eexists _, _. split; [reflexivity|].
      split; [|repeat split].
      intros Hok. rewrite (all_ok_hd s Hok) in Hst. discriminate Hst.
    + unfold FlashProgram. cbn [flash flash_status set_flash flash_log].
      eexists _, _. split; [reflexivity|].
      split; [|repeat split].
      intros Hok. unfold all_ok in *. cbn [flash_status set_flash].
      pose proof (all_ok_tl _ (all_ok_tl _ Hok)) as H2. split; [|exact H2].
      pose proof (all_ok_tl _ Hok) as H1.
      destruct (tl (flash_status s)) as [|st l]; [reflexivity|].
      apply Forall_inv in H1. exact H1.
  - unfold FlashProgram. cbn [flash flash_status set_flash flash_log].
    eexists _, _. split; [reflexivity|].
    split; [|repeat split].
    intros Hok. split; [apply all_ok_hd, Hok|].
    unfold all_ok in *. cbn [flash_status set_flash]. apply all_ok_tl, Hok.
Qed.

(** With a driver that succeeds, the page ends up as [src] padded with
    [0xFF]. *)
Lemma program_flash_good page_addr src len s :
  all_ok s -> 0 <= len <= FLASH_PAGESIZE -> (Z.to_nat len <= length src)%nat ->
  exists s',
    program_flash page_addr src len s = Ok 0 s' /\ all_ok s' /\
    (forall k, 0 <= k < len -> flash s' (page_addr + k) = to_u8 (at_ src k)) /\
    (forall k, len <= k < FLASH_PAGESIZE -> flash s' (page_addr + k) = 0xFF) /\
    (forall a, ~ (page_addr <= a < page_addr + FLASH_PAGESIZE) ->
       flash s' a = flash s a) /\
    uart0 s' = uart0 s /\ uart1 s' = uart1 s /\ uart2 s' = uart2 s /\
    data s' = data s /\ fw_release_message s' = fw_release_message s.
Proof.
  intros Hok Hlen Hsrc.
  destruct (program_flash_status page_addr src len s)
    as (r & s' & Hrun & Hst & Hu).
  destruct (Hst Hok) as [-> Hok'].
  destruct (program_flash_ok _ _ _ _ _ Hrun Hlen Hsrc) as (Hin & Hout & _).
  destruct (program_flash_page page_addr src len s Hlen)
    as (r & s'' & Hrun' & _ & Hrest & _).
  rewrite Hrun in Hrun'. injection Hrun' as _ <-.
  exists s'. split; [exact Hrun|]. split; [exact Hok'|].
  split; [exact Hin|]. split; [exact Hrest|]. split; [exact Hout | exact Hu].
Qed.

(** The same UARTs and buffers. *)
Definition silent (s s' : state) : Prop :=
  uart0 s' = uart0 s /\ uart1 s' = uart1 s /\ uart2 s' = uart2 s /\
  data s' = data s /\ fw_release_message s' = fw_release_message s.

Lemma silent_refl s : silent s s.
Proof. repeat split. Qed.

Lemma silent_trans s1 s2 s3 : silent s1 s2 -> silent s2 s3 -> silent s1 s3.
Proof.
  unfold silent. intros (a1 & a2 & a3 & a4 & a5) (b1 & b2 & b3 & b4 & b5).
  repeat split; congruence.
Qed.

Section Initial.
Variable bin : list Z.

(** The loop over the full pages of the image. *)
Definition initial_pages (n : nat) (i : Z) : M unit :=
  for_range n i (fun i =>
    program_flash (to_u32 (FW_BASE + i * FLASH_PAGESIZE))
      (drop (Z.to_nat (i * FLASH_PAGESIZE)) bin) FLASH_PAGESIZE ;;
    ret tt).

Lemma initial_pages_silent n : forall i s,
  exists s', initial_pages n i s = Ok tt s' /\ silent s s'.
Proof.
  induction n as [|n IH]; intros i s.
  - exists s. split; [reflexivity | apply silent_refl].
  - unfold initial_pages. cbn [for_range]. unfold bind at 1. unfold bind at 1.
    destruct (program_flash_status (to_u32 (FW_BASE + i * FLASH_PAGESIZE))
                (drop (Z.to_nat (i * FLASH_PAGESIZE)) bin) FLASH_PAGESIZE s)
      as (r & s1 & Hrun & _ & Hs1).
    rewrite Hrun. unfold ret at 1.
    destruct (IH (i + 1) s1) as (s2 & Hrun2 & Hs2).
    exists s2. split; [exact Hrun2|].
    eapply silent_trans; [exact Hs1 | exact Hs2].
Qed.

Lemma initial_pages_log n : forall i s,
  exists s', initial_pages n i s = Ok tt s' /\ log_grows s s'.
Proof.
  induction n as [|n IH]; intros i s.
  - exists s. split; [reflexivity | apply log_grows_refl].
  - unfold initial_pages. cbn [for_range]. unfold bind at 1. unfold bind at 1.
    destruct (program_flash_returns (to_u32 (FW_BASE + i * FLASH_PAGESIZE))
                (drop (Z.to_nat (i * FLASH_PAGESIZE)) bin) FLASH_PAGESIZE s)
      as (r & s1 & Hrun & Hl & _).
    rewrite Hrun. unfold ret at 1.
    destruct (IH (i + 1) s1) as (s2 & Hrun2 & Hl2).
    exists s2. split; [exact Hrun2|].
    apply logs_program_grows. eapply logs_program_then; eassumption.
Qed.

Lemma initial_pages_good n : forall i s,
  all_ok s -> 0 <= i ->
  FW_BASE + (i + Z.of_nat n) * FLASH_PAGESIZE <= 4294967296 ->
  (i + Z.of_nat n) * FLASH_PAGESIZE <= Z.of_nat (length bin) ->
  exists s',
    initial_pages n i s = Ok tt s' /\ all_ok s' /\
    (forall k, i * FLASH_PAGESIZE <= k < (i + Z.of_nat n) * FLASH_PAGESIZE ->
       flash s' (FW_BASE + k) = to_u8 (at_ bin k)) /\
    (forall a, a < FW_BASE + i * FLASH_PAGESIZE \/
               FW_BASE + (i + Z.of_nat n) * FLASH_PAGESIZE <= a ->
       flash s' a = flash s a).
Proof.
  induction n as [|n IH]; intros i s Hok Hi Hmax Hbin.
  - exists s. split; [reflexivity|]. split; [exact Hok|].
    split; [intros k Hk; lia | auto].
  - unfold initial_pages. cbn [for_range]. unfold bind at 1. unfold bind at 1.
    unfold FLASH_PAGESIZE, FW_BASE in *.
    assert (Hp : to_u32 (65536 + i * 1024) = 65536 + i * 1024)
      by (unfold to_u32; rewrite Z.mod_small; lia).
    rewrite Hp.
    destruct (program_flash_good (65536 + i * 1024)
                (drop (Z.to_nat (i * 1024)) bin) 1024 s Hok)
      as (s1 & Hrun & Hok1 & Hin & _ & Hout & _).
    { unfold FLASH_PAGESIZE. lia. }
    { rewrite length_drop. lia. }
    rewrite Hrun. unfold ret at 1.
    destruct (IH (i + 1) s1 Hok1) as (s2 & Hrun2 & Hok2 & Hin2 & Hout2);
      try lia.
    exists s2. split; [exact Hrun2|]. split; [exact Hok2|]. split.
    + intros k Hk. destruct (Z.lt_ge_cases k ((i + 1) * 1024)) as [Hk1|Hk1].
      * rewrite Hout2 by lia.
        replace (65536 + k) with (65536 + i * 1024 + (k - i * 1024)) by lia.
        rewrite Hin by lia. rewrite at_drop by lia. f_equal. f_equal. lia.
      * apply Hin2. lia.
    + intros a Ha. rewrite Hout2 by lia. apply Hout.
      unfold FLASH_PAGESIZE. lia.
Qed.

End Initial.

(** [load_initial_firmware] on an erased metadata page is the
    provisioning sequence. *)
Lemma load_initial_firmware_erased bin size s :
  metadata_erased s ->
  load_initial_firmware bin size s =
  void_fn (
    program_flash METADATA_BASE (initial_metadata 2 size 36)
      FW_METADATA_SIZE ;;
    program_flash RELEASE_BASE (str_bytes initial_message) 36 ;;
    initial_pages bin (Z.to_nat (Z.quot size FLASH_PAGESIZE)) 0 ;;
    program_flash
      (to_u32 (FW_BASE + Z.max 0 (Z.quot size FLASH_PAGESIZE) * FLASH_PAGESIZE))
      (drop (Z.to_nat (Z.max 0 (Z.quot size FLASH_PAGESIZE) * FLASH_PAGESIZE))
         bin)
      (to_u32 (Z.rem size FLASH_PAGESIZE)) ;;
    ret tt) s.
Proof.
  intros He. apply flash_read32_erased in He.
  unfold load_initial_firmware, void_fn. unfold bind at 1. rewrite He.
  reflexivity.
Qed.

Lemma load_initial_firmware_skip bin size s :
  ~ metadata_erased s -> load_initial_firmware bin size s = Ok tt s.
Proof.
  intros Hne. unfold load_initial_firmware, void_fn. unfold bind at 1.
  rewrite flash_read32_eq.
  destruct (_ =? 0xFFFFFFFF) eqn:Hw; [|reflexivity].
  exfalso. apply Hne. apply flash_read32_erased.
  rewrite flash_read32_eq. apply Z.eqb_eq in Hw. rewrite Hw. reflexivity.
Qed.

(** X12. [load_initial_firmware] writes the flash exactly when the first
    word of the metadata page reads [0xFFFFFFFF]: with any other word
    there it returns at once and the state is as before; with that word
    it returns after driver calls that begin with the erase of the
    metadata page. *)
Theorem load_initial_firmware_skips_installed (bin : list Z) (size : Z)
    (s : state) :
  (~ metadata_erased s -> load_initial_firmware bin size s = Ok tt s) /\
  (metadata_erased s ->
     exists s' more,
       load_initial_firmware bin size s = Ok tt s' /\
       flash_log s' = flash_log s ++ Erase METADATA_BASE :: more).
Proof.
  split; [apply load_initial_firmware_skip|].
  intros He. rewrite (load_initial_firmware_erased bin size s He).
  destruct (program_flash_run METADATA_BASE (initial_metadata 2 size 36)
              FW_METADATA_SIZE s) as (r1 & s1 & ops & H1 & L1 & _).
  destruct (program_flash_returns RELEASE_BASE (str_bytes initial_message) 36
              s1) as (r2 & s2 & H2 & L2 & _).
  destruct (initial_pages_log bin (Z.to_nat (Z.quot size FLASH_PAGESIZE)) 0 s2)
    as (s3 & H3 & L3).
  destruct (program_flash_returns
      (to_u32 (FW_BASE + Z.max 0 (Z.quot size FLASH_PAGESIZE) * FLASH_PAGESIZE))
      (drop (Z.to_nat (Z.max 0 (Z.quot size FLASH_PAGESIZE) * FLASH_PAGESIZE))
         bin)
      (to_u32 (Z.rem size FLASH_PAGESIZE)) s3) as (r4 & s4 & H4 & L4 & _).
  apply logs_program_grows in L2, L4.
  destruct L2 as (l2 & L2), L3 as (l3 & L3), L4 as (l4 & L4).
  exists s4, (ops ++ l2 ++ l3 ++ l4). split.
  - apply void_fn_Ok.
    rewrite (bind_Ok _ _ _ _ _ H1), (bind_Ok _ _ _ _ _ H2),
      (bind_Ok _ _ _ _ _ H3), (bind_Ok _ _ _ _ _ H4). reflexivity.
  - rewrite L4, L3, L2, L1. rewrite <- !app_assoc. reflexivity.
Qed.

Lemma load_initial_firmware_skips_installed_witness :
  let s := device [] [] [] in
  load_initial_firmware [1; 2; 3] 3 s = Ok tt s.
Proof.
  intros s. apply (proj1 (load_initial_firmware_skips_installed [1; 2; 3] 3 s)).
  intros H. specialize (H 0 ltac:(lia)). vm_compute in H. discriminate H.
Defined.

(** X13. [load_initial_firmware] has no error path: whatever the flash
    holds and whatever the driver reports it returns, and it neither
    reads nor writes a UART nor touches the two buffers. *)
Theorem load_initial_firmware_always_returns (bin : list Z) (size : Z)
    (s : state) :
  exists s',
    load_initial_firmware bin size s = Ok tt s' /\
    uart0 s' = uart0 s /\ uart1 s' = uart1 s /\ uart2 s' = uart2 s /\
    data s' = data s /\ fw_release_message s' = fw_release_message s.
Proof.
  destruct (flash_read32 METADATA_BASE s) as [w s0|e s0] eqn:Hw.
  2:{ rewrite flash_read32_eq in Hw. discriminate Hw. }
  destruct (w =? 0xFFFFFFFF) eqn:E.
  2:{ exists s. split; [|repeat split].
      unfold load_initial_firmware, void_fn. unfold bind at 1.
      rewrite Hw. rewrite flash_read32_eq in Hw. injection Hw as _ <-.
      rewrite E. reflexivity. }
  apply Z.eqb_eq in E. subst w.
  assert (He : metadata_erased s).
  { apply flash_read32_erased. rewrite Hw. rewrite flash_read32_eq in Hw.
    injection Hw as _ <-. reflexivity. }
  rewrite (load_initial_firmware_erased bin size s He).
  destruct (program_flash_status METADATA_BASE (initial_metadata 2 size 36)
              FW_METADATA_SIZE s) as (r1 & s1 & H1 & _ & S1).
  destruct (program_flash_status RELEASE_BASE (str_bytes initial_message) 36 s1)
    as (r2 & s2 & H2 & _ & S2).
  destruct (initial_pages_silent bin
              (Z.to_nat (Z.quot size FLASH_PAGESIZE)) 0 s2)
    as (s3 & H3 & S3).
  destruct (program_flash_status
      (to_u32 (FW_BASE + Z.max 0 (Z.quot size FLASH_PAGESIZE) * FLASH_PAGESIZE))
      (drop (Z.to_nat (Z.max 0 (Z.quot size FLASH_PAGESIZE) * FLASH_PAGESIZE))
         bin)
      (to_u32 (Z.rem size FLASH_PAGESIZE)) s3) as (r4 & s4 & H4 & _ & S4).
  exists s4. split.
  - apply void_fn_Ok.
    rewrite (bind_Ok _ _ _ _ _ H1), (bind_Ok _ _ _ _ _ H2),
      (bind_Ok _ _ _ _ _ H3), (bind_Ok _ _ _ _ _ H4). reflexivity.
  - apply (silent_trans s s3 s4); [|exact S4].
    apply (silent_trans s s2 s3); [|exact S3].
    apply (silent_trans s s1 s2); [exact S1 | exact S2].
Qed.

Lemma initial_metadata_bytes v size msz :
  Forall is_byte (initial_metadata v size msz).
Proof.
  unfold initial_metadata. repeat constructor; apply to_u8_range.
Qed.

Lemma shiftr8_byte x :
  to_u8 (Z.shiftr (to_u16 x) 8) = to_u16 x / 256.
Proof.
  unfold to_u8, to_u16. rewrite Z.shiftr_div_pow2 by lia.
  change (2 ^ 8) with 256.
  pose proof (Z.mod_pos_bound x 65536 ltac:(lia)).
  apply Z.mod_small. Z.div_mod_to_equations. lia.
Qed.

Lemma le16_pair x k l :
  at_ l k = to_u8 x -> at_ l (k + 1) = to_u8 (Z.shiftr (to_u16 x) 8) ->
  le16 l k = to_u16 x.
Proof.
  intros H0 H1. rewrite le16_bytes; rewrite ?H0, ?H1; try apply to_u8_range.
  rewrite shiftr8_byte. unfold to_u8, to_u16.
  pose proof (Z.mod_pos_bound x 65536 ltac:(lia)).
  Z.div_mod_to_equations. lia.
Qed.

(** X14. The metadata bytes [load_initial_firmware] builds decode, with
    the field extraction of [load_firmware], to the version, the size and
    the message size it was given, each modulo 2^16: sizes below 65536
    come back as they are, and an image of 65536 bytes gets the size
    field 0. *)
Theorem initial_metadata_round_trip (version size msg_size : Z) :
  let m := initial_metadata version size msg_size in
  length m = 6%nat /\ Forall is_byte m /\
  le16 m 0 = version mod 65536 /\
  le16 m 2 = size mod 65536 /\
  le16 m 4 = msg_size mod 65536 /\
  le16 (initial_metadata 2 65536 36) 2 = 0.
Proof.
  intros m. split; [reflexivity|]. split; [apply initial_metadata_bytes|].
  split; [apply (le16_pair version); reflexivity|].
  split; [apply (le16_pair size); reflexivity|].
  split; [apply (le16_pair msg_size); reflexivity|].
  reflexivity.
Qed.

(** What a successful provisioning leaves in the flash. *)
Lemma load_initial_firmware_flash bin size s :
  metadata_erased s -> all_ok s ->
  0 <= size < 2147483648 -> Z.of_nat (length bin) = size ->
  let last := (size / FLASH_PAGESIZE + 1) * FLASH_PAGESIZE in
  exists s',
    load_initial_firmware bin size s = Ok tt s' /\
    (forall k, 0 <= k < 6 ->
       flash s' (METADATA_BASE + k) = at_ (initial_metadata 2 size 36) k) /\
    (forall k, 0 <= k < 36 ->
       flash s' (RELEASE_BASE + k) = to_u8 (at_ (str_bytes initial_message) k)) /\
    (forall k, 0 <= k < size -> flash s' (FW_BASE + k) = to_u8 (at_ bin k)) /\
    (forall k, size <= k < last -> flash s' (FW_BASE + k) = 0xFF) /\
    (forall a, a < RELEASE_BASE \/ FW_BASE + last <= a -> flash s' a = flash s a).
Proof.
  intros He Hok Hsize Hbin last.
  rewrite (load_initial_firmware_erased bin size s He).
  unfold FLASH_PAGESIZE in *.
  rewrite Z.quot_div_nonneg, Z.rem_mod_nonneg by lia.
  set (pages := size / 1024) in *.
  assert (Hpages : 0 <= pages /\ pages * 1024 <= size < (pages + 1) * 1024)
    by (unfold pages; Z.div_mod_to_equations; lia).
  rewrite Z.max_r by lia.
  assert (Hp : to_u32 (FW_BASE + pages * 1024) = FW_BASE + pages * 1024)
    by (unfold to_u32, FW_BASE; rewrite Z.mod_small; lia).
  assert (Hl : to_u32 (size mod 1024) = size mod 1024)
    by (unfold to_u32; rewrite Z.mod_small; Z.div_mod_to_equations; lia).
  rewrite Hp, Hl.
  destruct (program_flash_good METADATA_BASE (initial_metadata 2 size 36)
              FW_METADATA_SIZE s Hok) as (s1 & H1 & Ok1 & In1 & _ & Out1 & _).
  { unfold FW_METADATA_SIZE, FLASH_PAGESIZE. lia. }
  { unfold FW_METADATA_SIZE, initial_metadata. cbn [length]. lia. }
  destruct (program_flash_good RELEASE_BASE (str_bytes initial_message) 36 s1
              Ok1) as (s2 & H2 & Ok2 & In2 & _ & Out2 & _).
  { unfold FLASH_PAGESIZE. lia. }
  { change (length (str_bytes initial_message)) with 36%nat. lia. }
  destruct (initial_pages_good bin (Z.to_nat pages) 0 s2 Ok2)
    as (s3 & H3 & Ok3 & In3 & Out3).
  { lia. }
  { unfold FW_BASE, FLASH_PAGESIZE. lia. }
  { unfold FLASH_PAGESIZE. lia. }
  destruct (program_flash_good (FW_BASE + pages * 1024)
              (drop (Z.to_nat (pages * 1024)) bin) (size mod 1024) s3 Ok3)
    as (s4 & H4 & _ & In4 & Rest4 & Out4 & _).
  { unfold FLASH_PAGESIZE. Z.div_mod_to_equations. lia. }
  { rewrite length_drop. Z.div_mod_to_equations. lia. }
  unfold FLASH_PAGESIZE, FW_BASE, METADATA_BASE, RELEASE_BASE,
    FW_METADATA_SIZE in *.
  rewrite Z2Nat.id in In3 by lia.
  assert (Hmod : size mod 1024 = size - pages * 1024)
    by (unfold pages; Z.div_mod_to_equations; lia).
  exists s4. split.
  - apply void_fn_Ok.
    rewrite (bind_Ok _ _ _ _ _ H1), (bind_Ok _ _ _ _ _ H2),
      (bind_Ok _ _ _ _ _ H3), (bind_Ok _ _ _ _ _ H4). reflexivity.
  - split; [|split; [|split; [|split]]].
    + intros k Hk. rewrite Out4, Out3, Out2 by lia. rewrite In1 by lia.
      apply to_u8_byte, at_byte, initial_metadata_bytes.
    + intros k Hk. rewrite Out4, Out3 by lia. apply In2. lia.
    + intros k Hk. destruct (Z.lt_ge_cases k (pages * 1024)) as [Hlt|Hge].
      * rewrite Out4 by lia. apply In3. lia.
      * replace (65536 + k) with (65536 + pages * 1024 + (k - pages * 1024))
          by lia.
        rewrite In4 by lia. rewrite at_drop by lia. f_equal. f_equal. lia.
    + intros k Hk. unfold last in Hk.
      replace (65536 + k) with (65536 + pages * 1024 + (k - pages * 1024))
        by lia.
      apply Rest4. lia.
    + intros a Ha. unfold last in Ha.
      rewrite Out4, Out3, Out2, Out1 by lia. reflexivity.
Qed.

(** X15. On a device whose metadata page is erased, with a flash driver
    that succeeds, [load_initial_firmware] installs the image: afterwards
    the stored version is 2 and the stored message size 36, the message
    page holds the initial release message, the firmware region holds the
    [size] bytes of the image followed by [0xFF] up to the end of the
    page after its last full page (a whole further page when [size] is a
    multiple of the page size), and no byte below the message page or
    behind that page has changed. *)
Theorem load_initial_firmware_installs (bin : list Z) (size : Z) (s : state) :
  metadata_erased s -> all_ok s ->
  0 <= size < 2147483648 -> Z.of_nat (length bin) = size ->
  let last := (size / FLASH_PAGESIZE + 1) * FLASH_PAGESIZE in
  exists s',
    load_initial_firmware bin size s = Ok tt s' /\
    stored_version s' = 2 /\ stored_msg_size s' = 36 /\
    stored_message s' 0 36 = str_bytes initial_message /\
    (forall k, 0 <= k < size -> flash s' (FW_BASE + k) = to_u8 (at_ bin k)) /\
    (forall k, size <= k < last -> flash s' (FW_BASE + k) = 0xFF) /\
    (forall a, a < RELEASE_BASE \/ FW_BASE + last <= a -> flash s' a = flash s a).
Proof.
  intros He Hok Hsize Hbin last.
  destruct (load_initial_firmware_flash bin size s He Hok Hsize Hbin)
    as (s' & Hrun & Hmd & Hmsg & Hfw & Hff & Hout).
  exists s'. split; [exact Hrun|].
  split; [|split; [|split; [|split; [exact Hfw | split; [exact Hff | exact Hout]]]]].
  - rewrite stored_version_eq.
    replace METADATA_BASE with (METADATA_BASE + 0) at 1 by lia.
    rewrite (Hmd 0), (Hmd 1) by lia. reflexivity.
  - rewrite stored_msg_size_eq, (Hmd 4), (Hmd 5) by lia. reflexivity.
  - rewrite (stored_message_take s' (str_bytes initial_message) 36);
      [reflexivity | lia
      | change (length (str_bytes initial_message)) with 36%nat; lia
      | exact Hmsg].
Qed.

Lemma load_initial_firmware_installs_witness :
  let bin := replicate 1024 7 ++ [1; 2; 3] in
  let s := mkState idle_port idle_port idle_port (fun _ => 0xFF) [] []
             (replicate (Z.to_nat DATA_SIZE) 0)
             (replicate (Z.to_nat RELEASE_MAX_SIZE) 0) in
  exists s',
    load_initial_firmware bin 1027 s = Ok tt s' /\
    stored_version s' = 2 /\ stored_msg_size s' = 36 /\
    stored_message s' 0 36 = str_bytes initial_message /\
    (forall k, 0 <= k < 1027 -> flash s' (FW_BASE + k) = to_u8 (at_ bin k)) /\
    (forall k, 1027 <= k < 2048 -> flash s' (FW_BASE + k) = 0xFF) /\
    (forall a, a < RELEASE_BASE \/ FW_BASE + 2048 <= a -> flash s' a = flash s a).
Proof.
  intros bin s.
  apply (load_initial_firmware_installs bin 1027 s).
  - intros k Hk. reflexivity.
  - constructor.
  - lia.
  - unfold bin. rewrite length_app, length_replicate. reflexivity.
Defined.

(** X16. Provisioning happens once: after [load_initial_firmware] has
    installed the image, a second call changes nothing; and
    [boot_firmware] then sends the initial release message. *)
Theorem load_initial_firmware_once (bin : list Z) (size : Z) (s : state) :
  metadata_erased s -> all_ok s ->
  0 <= size < 2147483648 -> Z.of_nat (length bin) = size ->
  exists s',
    load_initial_firmware bin size s = Ok tt s' /\
    load_initial_firmware bin size s' = Ok tt s' /\
    boot_firmware s' =
      Ok tt (emit UART2 (str_bytes initial_message) s').
Proof.
  intros He Hok Hsize Hbin.
  destruct (load_initial_firmware_flash bin size s He Hok Hsize Hbin)
    as (s' & Hrun & Hmd & Hmsg & _).
  exists s'. split; [exact Hrun|]. split.
  - apply load_initial_firmware_skip. intros H.
    specialize (H 0 ltac:(lia)). rewrite (Hmd 0) in H by lia.
    vm_compute in H. discriminate H.
  - rewrite boot_firmware_emits.
    assert (Hsz : stored_msg_size s' = 36)
      by (rewrite stored_msg_size_eq, (Hmd 4), (Hmd 5) by lia; reflexivity).
    rewrite Hsz. change (Z.min 36 RELEASE_MAX_SIZE) with 36.
    rewrite (stored_message_take s' (str_bytes initial_message) 36);
      [reflexivity | lia
      | change (length (str_bytes initial_message)) with 36%nat; lia
      | exact Hmsg].
Qed.

Lemma load_initial_firmware_once_witness :
  let bin := [1; 2; 3] in
  let s := mkState idle_port idle_port idle_port (fun _ => 0xFF) [] []
             (replicate (Z.to_nat DATA_SIZE) 0)
             (replicate (Z.to_nat RELEASE_MAX_SIZE) 0) in
  exists s',
    load_initial_firmware bin 3 s = Ok tt s' /\
    load_initial_firmware bin 3 s' = Ok tt s' /\
    boot_firmware s' =
      Ok tt (emit UART2 (str_bytes initial_message) s').
Proof.
  intros bin s.
  apply (load_initial_firmware_once bin 3 s).
  - intros k Hk. reflexivity.
  - constructor.
  - lia.
  - reflexivity.
Defined.

(** ** [main] *)

(** The three welcome lines, as bytes. *)
Definition welcome_bytes : list Z :=
  concat (map (fun l => map to_u8 (str_bytes l)) welcome).

Lemma write_lines_emit u (lines : list string) s :
  fold_right (fun line k => uart_write_str u line ;; k) (ret tt) lines s =
  Ok tt (emit u (concat (map (fun l => map to_u8 (str_bytes l)) lines)) s).
Proof.
  revert s. induction lines as [|x l IH]; intros s; cbn [fold_right map concat].
  - unfold ret. rewrite <- (emit_nil u s) at 1. reflexivity.
  - unfold bind. rewrite uart_write_str_emit, IH, emit_emit. reflexivity.
Qed.

(** On a device that holds an image, [main] up to its loop prints the
    welcome lines and nothing else happens. *)
Lemma main_init_installed bin size s :
  ~ metadata_erased s ->
  main_init bin size s = Ok tt (emit UART2 welcome_bytes s).
Proof.
  intros H. unfold main_init, uart_init, IntEnable, IntMasterEnable.
  unfold bind at 1. unfold ret at 1. unfold bind at 1. unfold ret at 1.
  unfold bind at 1. unfold ret at 1. unfold bind at 1. unfold ret at 1.
  unfold bind at 1. unfold ret at 1. unfold bind at 1.
  rewrite (load_initial_firmware_skip bin size s H).
  apply write_lines_emit.
Qed.

Section MainLoop.
Context (X : Extern).

(** A command byte: neither ['U'] nor ['B']. *)
Definition unknown_command (p : Z * bool) : Prop :=
  to_u32 (fst p) <> UPDATE /\ to_u32 (fst p) <> BOOT.

Lemma main_loop_unknown fuel p rest s :
  rx (uart1 s) = p :: rest -> unknown_command p ->
  main_loop X (S fuel) s = main_loop X fuel (with_rx1 rest s).
Proof.
  destruct p as [b ok]. intros Hrx [Hu Hb]. cbn [fst] in Hu, Hb.
  cbn [main_loop]. rewrite (uart_read_cons b ok rest) by exact Hrx.
  replace (to_u32 b =? UPDATE) with false by (symmetry; apply Z.eqb_neq; exact Hu).
  replace (to_u32 b =? BOOT) with false by (symmetry; apply Z.eqb_neq; exact Hb).
  reflexivity.
Qed.

Lemma main_loop_unknowns l : forall fuel s,
  rx (uart1 s) = l -> Forall unknown_command l -> (length l < fuel)%nat ->
  main_loop X fuel s = Halted Blocked (with_rx1 [] s).
Proof.
  induction l as [|p l IH]; intros fuel s Hrx Hl Hfuel;
    (destruct fuel as [|fuel]; [cbn [length] in Hfuel; lia|]).
  - cbn [main_loop]. rewrite uart_read_nil by exact Hrx.
    rewrite <- Hrx, with_rx1_id. reflexivity.
  - rewrite (main_loop_unknown fuel p l s Hrx (Forall_inv Hl)).
    rewrite (IH fuel (with_rx1 l s)); [reflexivity | reflexivity | |].
    + apply (Forall_inv_tail Hl).
    + cbn [length] in Hfuel. lia.
Qed.

Lemma main_loop_boot fuel b ok rest s :
  rx (uart1 s) = (b, ok) :: rest -> to_u32 b = BOOT ->
  main_loop X (S fuel) s =
  Booted (emit UART2
            (stored_message s 0 (Z.min (stored_msg_size s) RELEASE_MAX_SIZE))
            (emit UART1 [BOOT] (with_rx1 rest s))).
Proof.
  intros Hrx Hb. cbn [main_loop].
  rewrite (uart_read_cons b ok rest) by exact Hrx. rewrite Hb.
  change (BOOT =? UPDATE) with false. change (BOOT =? BOOT) with true.
  cbv iota. unfold bind. rewrite uart_write_str_emit.
  change (map to_u8 (str_bytes "B")) with [BOOT].
  rewrite boot_firmware_emits. reflexivity.
Qed.

Lemma main_loop_update fuel b ok rest s :
  rx (uart1 s) = (b, ok) :: rest -> to_u32 b = UPDATE ->
  main_loop X (S fuel) s =
  match load_firmware X (emit UART1 [UPDATE] (with_rx1 rest s)) with
  | Ok _ s2 => main_loop X fuel s2
  | Stop e s2 => Halted e s2
  end.
Proof.
  intros Hrx Hb. cbn [main_loop].
  rewrite (uart_read_cons b ok rest) by exact Hrx. rewrite Hb.
  change (UPDATE =? UPDATE) with true. cbv iota.
  unfold bind. rewrite uart_write_str_emit. reflexivity.
Qed.

End MainLoop.

Lemma returns_Ok (r : result unit) :
  returns r = true -> r = Ok tt (final r).
Proof. destruct r as [[] s|e s]; [reflexivity | discriminate]. Qed.

(** X17. On a device that holds an image, [main] prints its three
    welcome lines on UART2 and then ignores every byte from the host that
    is neither ['U'] nor ['B'], whatever read status comes with it: the
    bytes are consumed, nothing is answered, the flash is not touched,
    and the loop waits for the next byte. *)
Theorem main_ignores_unknown_commands (X : Extern) (bin : list Z) (size : Z)
    (fuel : nat) (s : state) :
  ~ metadata_erased s ->
  Forall unknown_command (rx (uart1 s)) ->
  (length (rx (uart1 s)) < fuel)%nat ->
  let s' := with_rx1 [] (emit UART2 welcome_bytes s) in
  main X bin size fuel s = Halted Blocked s' /\
  tx (uart1 s') = tx (uart1 s) /\
  tx (uart2 s') = tx (uart2 s) ++ welcome_bytes /\
  flash s' = flash s /\ flash_log s' = flash_log s.
Proof.
  intros Hi Hl Hfuel s'. split; [|repeat split].
  unfold main. rewrite (main_init_installed bin size s Hi).
  apply (main_loop_unknowns X (rx (uart1 s))); [reflexivity | exact Hl | exact Hfuel].
Qed.

Lemma main_ignores_unknown_commands_witness :
  let s := device [(120, true); (85 + 256, false); (0, true)] [] [] in
  main arm [1; 2; 3] 3 4 s =
    Halted Blocked (with_rx1 [] (emit UART2 welcome_bytes s)).
Proof.
  intros s.
  apply (main_ignores_unknown_commands arm [1; 2; 3] 3 4 s).
  - intros H. specialize (H 0 ltac:(lia)). vm_compute in H. discriminate H.
  - repeat constructor; vm_compute; discriminate.
  - cbn. lia.
Defined.

(** X18. The byte ['B'] makes [main] echo it on UART1, send the stored
    release message on UART2 and jump to the firmware, whatever read
    status came with the byte; the flash is not written. *)
Theorem main_boot_command (X : Extern) (fuel : nat) (b : Z) (ok : bool)
    (rest : list (Z * bool)) (s : state) :
  rx (uart1 s) = (b, ok) :: rest -> to_u32 b = BOOT ->
  exists s',
    main_loop X (S fuel) s = Booted s' /\
    tx (uart1 s') = tx (uart1 s) ++ [BOOT] /\
    rx (uart1 s') = rest /\
    tx (uart2 s') =
      tx (uart2 s) ++
      stored_message s 0 (Z.min (stored_msg_size s) RELEASE_MAX_SIZE) /\
    flash s' = flash s /\ flash_log s' = flash_log s.
Proof.
  intros Hrx Hb. eexists. split; [apply (main_loop_boot X fuel b ok rest s Hrx Hb)|].
  repeat split.
Qed.

Lemma main_boot_command_witness :
  let s := device [(66, false); (1, true)] [] [] in
  exists s',
    main_loop arm 1 s = Booted s' /\
    tx (uart1 s') = tx (uart1 s) ++ [BOOT] /\
    rx (uart1 s') = [(1, true)] /\
    tx (uart2 s') =
      tx (uart2 s) ++
      stored_message s 0 (Z.min (stored_msg_size s) RELEASE_MAX_SIZE) /\
    flash s' = flash s /\ flash_log s' = flash_log s.
Proof.
  intros s.
  apply (main_boot_command arm 0 66 false [(1, true)] s); reflexivity.
Defined.

(** X19. An update and a boot in one session: when the byte ['U'] is
    followed by an update that [load_firmware] accepts and then by the
    byte ['B'], [main] echoes both, does not reset in between, and ends
    with the jump to the firmware after sending the release message of
    that update on UART2. *)
Theorem main_update_then_boot (X : Extern) (fuel : nat) (b b' : Z)
    (ok ok' : bool) (up rest : list (Z * bool)) (s : state)
    (m : list Z) (v size r fn : Z) (s1 : state) :
  rx (uart1 s) = (b, ok) :: up -> to_u32 b = UPDATE ->
  let s0 := emit UART1 [UPDATE] (with_rx1 up s) in
  load_firmware_metadata X s0 = Ok (m, v, size, r, fn) s1 ->
  returns (load_firmware X s0) = true ->
  length (data s) = Z.to_nat DATA_SIZE ->
  length (fw_release_message s) = Z.to_nat RELEASE_MAX_SIZE ->
  let s2 := final (load_firmware X s0) in
  rx (uart1 s2) = (b', ok') :: rest -> to_u32 b' = BOOT ->
  main_loop X (S (S fuel)) s =
    Booted (emit UART2 (map to_u8 (take (Z.to_nat r) (fw_release_message s2)))
              (emit UART1 [BOOT] (with_rx1 rest s2))).
Proof.
  intros Hrx Hb s0 Hmeta Hret Hdata Hmsg.
  destruct (accepted_message X s0 m v size r fn s1 Hmeta Hret Hdata Hmsg)
    as (Hsz & Br & Hmsg').
  rewrite (main_loop_update X (S fuel) b ok up s Hrx Hb). fold s0.
  rewrite (returns_Ok _ Hret).
  cbv zeta. revert Hsz Hmsg'.
  generalize (final (load_firmware X s0)). intros s2 Hsz Hmsg' Hrx2 Hb2.
  rewrite (main_loop_boot X fuel b' ok' rest s2 Hrx2 Hb2).
  rewrite Hsz, Z.min_l, Hmsg' by lia. reflexivity.
Qed.

Lemma main_update_then_boot_witness :
  let s := device (sent ([85] ++ release_upload ++ [66])) [] [] in
  let s0 := emit UART1 [UPDATE] (with_rx1 (sent (release_upload ++ [66])) s) in
  let s2 := final (load_firmware arm s0) in
  returns (load_firmware arm s0) = true /\
  rx (uart1 s2) = [(66, true)] /\
  main_loop arm 2 s =
    Booted (emit UART2 (map to_u8 (take 3 (fw_release_message s2)))
              (emit UART1 [BOOT] (with_rx1 [] s2))).
Proof.
  intros s s0 s2.
  pose (meta := [7; 0; 5; 0; 3; 0]).
  pose (rest := drop 38 (sent (release_upload ++ [66]))).
  assert (H1 : load_firmware_metadata arm s0 =
               Ok (map to_char meta, 7, 5, 3, 0)
                  (emit UART1 [OK] (with_rx1 rest (bolt_printed s0)))).
  { rewrite (load_firmware_metadata_sent arm s0 meta (stub_hmac meta) rest
               eq_refl eq_refl eq_refl).
    replace (negb _) with false by (vm_compute; reflexivity).
    replace (_ && _) with false by (vm_compute; reflexivity).
    replace (_ >? _) with false by (vm_compute; reflexivity).
    replace (_ >? _) with false by (vm_compute; reflexivity).
    reflexivity. }
  assert (H2 : returns (load_firmware arm s0) = true)
    by (vm_compute; reflexivity).
  assert (H3 : rx (uart1 s2) = [(66, true)]) by (vm_compute; reflexivity).
  split; [exact H2|]. split; [exact H3|].
  exact (main_update_then_boot arm 0 85 66 true true
           (sent (release_upload ++ [66])) [] s _ _ _ _ _ _
           eq_refl eq_refl H1 H2 (length_replicate _ _) (length_replicate _ _)
           H3 eq_refl).
Defined.

(** ** What the host is sent during an update *)

(** Between [s] and [s'] the host was sent acknowledgements only. *)
Definition acks (s s' : state) : Prop :=
  exists l, tx (uart1 s') = tx (uart1 s) ++ l /\ Forall (fun b => b = OK) l.

(** A stop after acknowledgements only, with [ERROR] as the last byte
    exactly when it is the chip reset. *)
Definition acks_stop (s : state) (e : exit) (s' : state) : Prop :=
  (e <> Reset /\ acks s s') \/
  (e = Reset /\
   exists l, tx (uart1 s') = tx (uart1 s) ++ l ++ [ERROR] /\
             Forall (fun b => b = OK) l).

Definition acked {A} (m : M A) : Prop :=
  forall s, post m s (fun _ s' => acks s s') (acks_stop s).

Lemma acks_same s s' : tx (uart1 s') = tx (uart1 s) -> acks s s'.
Proof. intros H. exists []. rewrite app_nil_r. split; [exact H | constructor]. Qed.

Lemma acks_refl s : acks s s.
Proof. apply acks_same. reflexivity. Qed.

Lemma acks_trans s1 s2 s3 : acks s1 s2 -> acks s2 s3 -> acks s1 s3.
Proof.
  intros (l1 & H1 & F1) (l2 & H2 & F2). exists (l1 ++ l2).
  rewrite H2, H1, app_assoc. split; [reflexivity | apply Forall_app; auto].
Qed.

Lemma acks_stop_trans s1 s2 e s3 :
  acks s1 s2 -> acks_stop s2 e s3 -> acks_stop s1 e s3.
Proof.
  intros H12 [[He H]|[He (l & H & F)]].
  - left. split; [exact He | eapply acks_trans; eassumption].
  - right. split; [exact He|]. destruct H12 as (l1 & H1 & F1).
    exists (l1 ++ l). rewrite H, H1, <- !app_assoc.
    split; [reflexivity | apply Forall_app; auto].
Qed.

Lemma acks_error_exit s s1 : acks s s1 -> acks_stop s Reset (error_exit s1).
Proof.
  intros (l & H & F). right. split; [reflexivity|]. exists l.
  rewrite error_exit_uart1. cbn [tx]. rewrite H, app_assoc.
  split; [reflexivity | exact F].
Qed.

Lemma reads_acks s s' : reads s s' -> acks s s'.
Proof. intros [k ->]. apply acks_same. reflexivity. Qed.

Lemma halts_acks_stop s e s' : halts s e s' -> acks_stop s e s'.
Proof.
  intros [[-> H]|[-> (s1 & H & ->)]].
  - left. split; [discriminate | apply reads_acks, H].
  - apply acks_error_exit, reads_acks, H.
Qed.

Lemma acked_ret {A} (a : A) : acked (ret a).
Proof. intros s. apply acks_refl. Qed.

Lemma acked_stop {A} e : e <> Reset -> acked (@stop A e).
Proof. intros He s. left. split; [exact He | apply acks_refl]. Qed.

Lemma acked_return {A} : acked (@return_ A).
Proof. apply acked_stop. discriminate. Qed.

Lemma acked_bind {A B} (m : M A) (f : A -> M B) :
  acked m -> (forall a, acked (f a)) -> acked (bind m f).
Proof.
  intros Hm Hf s. specialize (Hm s). unfold post, bind in *.
  destruct (m s) as [a s1|e s1]; [|exact Hm].
  specialize (Hf a s1). unfold post in Hf.
  destruct (f a s1) as [b s2|e s2].
  - eapply acks_trans; eassumption.
  - eapply acks_stop_trans; eassumption.
Qed.

Lemma acked_send_err {A} (k : M A) : acked (send_err ;; k).
Proof.
  intros s. unfold post. rewrite send_err_then.
  apply acks_error_exit, acks_refl.
Qed.

(** A step that returns and leaves what UART1 has sent alone. *)
Lemma acked_quiet {A} (m : M A) :
  (forall s, exists a s', m s = Ok a s' /\ tx (uart1 s') = tx (uart1 s)) ->
  acked m.
Proof.
  intros H s. destruct (H s) as (a & s' & Hm & Ht).
  unfold post. rewrite Hm. apply acks_same, Ht.
Qed.

Lemma acked_get_data : acked get_data.
Proof. apply acked_quiet. intros s. eexists _, _. split; reflexivity. Qed.

Lemma acked_get_fw_release_message : acked get_fw_release_message.
Proof. apply acked_quiet. intros s. eexists _, _. split; reflexivity. Qed.

Lemma acked_flash_read8 a : acked (flash_read8 a).
Proof. apply acked_quiet. intros s. eexists _, _. split; reflexivity. Qed.

Lemma acked_print_bolt : acked print_bolt.
Proof.
  apply acked_quiet. intros s. eexists _, _.
  split; [apply print_bolt_ok|]. rewrite bolt_printed_uart1. reflexivity.
Qed.

Lemma acked_uart_write_OK : acked (uart_write UART1 OK).
Proof.
  intros s. unfold post. rewrite uart_write_emit.
  exists [OK]. split; [reflexivity | repeat constructor].
Qed.

Lemma acked_program_flash page_addr src len :
  acked (program_flash page_addr src len).
Proof.
  apply acked_quiet. intros s.
  destruct (program_flash_status page_addr src len s)
    as (r & s' & Hrun & _ & _ & H1 & _).
  exists r, s'. split; [exact Hrun|]. rewrite H1. reflexivity.
Qed.

Lemma acked_uart_read1 bl : acked (uart_read UART1 bl).
Proof.
  intros s. unfold post.
  destruct (rx (uart1 s)) as [|[b ok] rest] eqn:Hrx.
  - rewrite uart_read_nil by exact Hrx.
    left. split; [discriminate | apply acks_refl].
  - rewrite (uart_read_cons b ok rest) by exact Hrx.
    apply acks_same. reflexivity.
Qed.

Lemma acked_check_read r : acked (check_read r).
Proof.
  intros s. unfold post, check_read. destruct (r =? 0).
  - unfold bind. rewrite send_err_stop. apply acks_error_exit, acks_refl.
  - apply acks_refl.
Qed.

Lemma acked_data_store k v : acked (data_store k v).
Proof.
  intros s. unfold post, data_store.
  destruct ((0 <=? k) && (k <? DATA_SIZE)).
  - apply acks_same. reflexivity.
  - left. split; [discriminate | apply acks_refl].
Qed.

Lemma acked_for_range (body : Z -> M unit) n : forall i,
  (forall j, acked (body j)) -> acked (for_range n i body).
Proof.
  induction n as [|n IH]; intros i Hb.
  - apply acked_ret.
  - cbn [for_range]. apply acked_bind; [apply Hb|]. intros _. apply IH, Hb.
Qed.

Lemma acked_uart_read_variable u bl da len :
  acked (uart_read_variable u bl da len).
Proof.
  intros s. eapply post_weaken; [apply uart_read_variable_post | |]; cbv beta.
  - intros da' s' [H _]. apply reads_acks, H.
  - intros e s' H. apply halts_acks_stop, H.
Qed.

Lemma acked_message_store k v : acked (message_store k v).
Proof. apply acked_quiet. intros s. eexists _, _. split; reflexivity. Qed.

Lemma acked_read_release_loop n : forall i, acked (read_release_loop n i).
Proof.
  induction n as [|n IH]; intros i.
  - apply acked_ret.
  - cbn [read_release_loop].
    apply acked_bind; [apply acked_uart_read1|]. intros b.
    apply acked_bind; [apply acked_message_store|]. intros _.
    apply acked_bind; [apply acked_check_read|]. intros r.
    destruct (negb (r =? 0)); [apply acked_ret | apply IH].
Qed.

Lemma acked_read_release_message n : acked (read_release_message n).
Proof.
  unfold read_release_message.
  apply acked_bind; [apply acked_read_release_loop|]. intros _.
  apply acked_get_fw_release_message.
Qed.

Section Acked.
Context (X : Extern).

Lemma acked_sha_hmac data len : acked (sha_hmac X data len).
Proof.
  intros s. eapply post_weaken; [apply sha_hmac_post | |]; cbv beta.
  - intros r s' [_ H]. apply reads_acks, H.
  - intros e s' H. apply halts_acks_stop, H.
Qed.

Lemma acked_gcm_decrypt_and_verify ct_len :
  acked (gcm_decrypt_and_verify X ct_len).
Proof.
  unfold gcm_decrypt_and_verify.
  apply acked_bind; [apply acked_uart_read_variable|]. intros iv.
  apply acked_bind; [apply acked_uart_read_variable|]. intros tag.
  apply acked_bind; [apply acked_get_data|]. intros ct.
  apply acked_bind.
  { apply acked_quiet. intros s. eexists _, _. split; reflexivity. }
  intros _. destruct (_ =? 0); [apply acked_send_err | apply acked_ret].
Qed.

Lemma acked_read_frame_loop index size n : forall i br,
  acked (read_frame_loop n i index size br).
Proof.
  induction n as [|n IH]; intros i br.
  - apply acked_ret.
  - cbn [read_frame_loop].
    apply acked_bind; [apply acked_uart_read1|]. intros b.
    apply acked_bind; [apply acked_data_store|]. intros _. cbv zeta.
    apply acked_bind; [apply acked_check_read|]. intros r.
    destruct (negb (r =? 0)); [apply acked_return|].
    destruct (_ >? size); [apply acked_send_err | apply IH].
Qed.

Lemma acked_frame_payload f index frame_length size br :
  acked (frame_payload X f index frame_length size br).
Proof.
  unfold frame_payload.
  apply acked_bind; [apply acked_read_frame_loop|]. intros ib. cbv zeta.
  apply acked_bind.
  { apply acked_for_range. intros j. apply acked_data_store. }
  intros _.
  apply acked_bind; [apply acked_get_data|]. intros d.
  apply acked_bind; [apply acked_sha_hmac|]. intros r.
  destruct (r =? 0); [apply acked_return|].
  apply acked_bind; [apply acked_uart_write_OK|]. intros _. apply acked_ret.
Qed.

Lemma acked_frames_loop version size frame_number fuel : forall ic br,
  acked (frames_loop X fuel version size frame_number ic br).
Proof.
  induction fuel as [|fuel IH]; intros ic br.
  - apply acked_stop. discriminate.
  - cbn [frames_loop].
    apply acked_bind; [apply acked_uart_read_variable|]. intros f.
    apply acked_bind; [apply acked_sha_hmac|]. intros r.
    destruct (r =? 0); [apply acked_return|]. cbv zeta.
    destruct (_ || _); [apply acked_send_err|].
    destruct (_ >? _); [apply acked_send_err|].
    destruct (_ || _); [apply acked_send_err|].
    apply acked_bind; [apply acked_frame_payload|]. intros br'.
    destruct (_ =? frame_number); [apply acked_ret | apply IH].
Qed.

Lemma acked_load_firmware_metadata : acked (load_firmware_metadata X).
Proof.
  unfold load_firmware_metadata.
  apply acked_bind; [apply acked_print_bolt|]. intros _.
  apply acked_bind; [apply acked_uart_read_variable|]. intros m.
  apply acked_bind; [apply acked_sha_hmac|]. intros r.
  destruct (r =? 0); [apply acked_return|]. cbv zeta.
  apply acked_bind; [apply acked_flash_read8|]. intros hi.
  apply acked_bind; [apply acked_flash_read8|]. intros lo.
  destruct (_ && _); [apply acked_send_err|].
  destruct (_ >? _); [apply acked_send_err|].
  destruct (_ >? _); [apply acked_send_err|].
  apply acked_bind; [apply acked_uart_write_OK|]. intros _. apply acked_ret.
Qed.

Lemma acked_load_firmware_receive c : acked (load_firmware_receive X c).
Proof.
  destruct c as [[[[m v] size] r] fn]. unfold load_firmware_receive.
  apply acked_bind; [apply acked_frames_loop|]. intros br.
  destruct (negb _); [apply acked_send_err|].
  apply acked_bind; [apply acked_get_data|]. intros d.
  apply acked_bind; [apply acked_sha_hmac|]. intros r1.
  destruct (r1 =? 0); [apply acked_return|].
  apply acked_bind; [apply acked_uart_write_OK|]. intros _.
  apply acked_bind; [apply acked_read_release_message|]. intros msg.
  apply acked_bind; [apply acked_sha_hmac|]. intros r2.
  destruct (r2 =? 0); [apply acked_return|].
  apply acked_bind; [apply acked_uart_write_OK|]. intros _.
  apply acked_bind.
  { apply acked_for_range. intros j. apply acked_data_store. }
  intros _.
  apply acked_bind.
  { apply acked_for_range. intros j.
    apply acked_bind; [apply acked_get_fw_release_message|]. intros m'.
    apply acked_data_store. }
  intros _.
  apply acked_bind; [apply acked_get_data|]. intros d'.
  apply acked_bind; [apply acked_sha_hmac|]. intros r3.
  destruct (r3 =? 0); [apply acked_return|].
  apply acked_bind.
  { apply acked_for_range. intros j. apply acked_data_store. }
  intros _.
  apply acked_bind; [apply acked_uart_write_OK|]. intros _.
  apply acked_bind; [apply acked_gcm_decrypt_and_verify|]. intros r4.
  destruct (r4 =? 0); [apply acked_return|].
  apply acked_bind; [apply acked_uart_write_OK|]. intros _. apply acked_ret.
Qed.

End Acked.

Lemma acked_flash_firmware_loop size fuel : forall i page_addr,
  acked (flash_firmware_loop fuel i page_addr size).
Proof.
  induction fuel as [|fuel IH]; intros i page_addr.
  - apply acked_stop. discriminate.
  - rewrite flash_firmware_loop_S.
    destruct (i <? size); [|apply acked_ret]. cbv zeta.
    apply acked_bind; [apply acked_get_data|]. intros d.
    apply acked_bind; [apply acked_program_flash|]. intros r.
    destruct (negb _); [apply acked_send_err | apply IH].
Qed.

Lemma acked_load_firmware_flash c : acked (load_firmware_flash c).
Proof.
  destruct c as [[[m v] size] r]. unfold load_firmware_flash.
  apply acked_bind; [apply acked_flash_firmware_loop|]. intros _.
  apply acked_bind.
  { destruct (v =? 0); [|apply acked_ret].
    apply acked_bind; [apply acked_flash_read8|]. intros b0.
    apply acked_bind; [apply acked_flash_read8|]. intros b1.
    apply acked_ret. }
  intros m'.
  apply acked_bind; [apply acked_program_flash|]. intros r1.
  destruct (negb _); [apply acked_send_err|].
  apply acked_bind; [apply acked_get_fw_release_message|]. intros msg.
  apply acked_bind; [apply acked_program_flash|]. intros r2.
  destruct (negb _); [apply acked_send_err | apply acked_ret].
Qed.

Lemma acked_void_fn body : acked body -> acked (void_fn body).
Proof.
  intros Hb s. specialize (Hb s). unfold post, void_fn in *.
  destruct (body s) as [u s'|e s']; [exact Hb|].
  destruct e; try exact Hb.
  destruct Hb as [[_ H]|[He _]]; [exact H | discriminate He].
Qed.

Lemma acked_load_firmware X : acked (load_firmware X).
Proof.
  unfold load_firmware. apply acked_void_fn.
  apply acked_bind; [apply acked_load_firmware_metadata|]. intros c.
  apply acked_bind; [apply acked_load_firmware_receive|]. intros c'.
  apply acked_load_firmware_flash.
Qed.

(** X20. All that [load_firmware] sends to the host, for every input and
    every outcome, is a run of [OK] bytes, followed by one [ERROR] byte
    exactly when the update ends on the error path with the chip reset;
    no other byte value is ever sent on UART1. *)
Theorem host_gets_acks_then_error (X : Extern) (s : state) :
  let r := load_firmware X s in
  ((forall s', r <> Stop Reset s') /\
   exists l, tx (uart1 (final r)) = tx (uart1 s) ++ l /\
             Forall (fun b => b = OK) l) \/
  ((exists s', r = Stop Reset s') /\
   exists l, tx (uart1 (final r)) = tx (uart1 s) ++ l ++ [ERROR] /\
             Forall (fun b => b = OK) l).
Proof.
  cbv zeta.
  destruct (load_firmware X s) as [u s'|e s'] eqn:Hrun; cbn [final].
  - pose proof (post_Ok _ _ _ _ _ _ (acked_load_firmware X s) Hrun) as H.
    left. split; [intros s'' Hs; discriminate Hs | exact H].
  - pose proof (post_Stop _ _ _ _ _ _ (acked_load_firmware X s) Hrun) as H.
    destruct H as [[He H]|[He H]].
    + left. split; [|exact H].
      intros s'' Hs. injection Hs as -> _. contradiction.
    + right. split; [|exact H]. exists s'. rewrite He. reflexivity.
Qed.

(** ** A frame in the staging buffer *)

Lemma list_inserts_app {A} (l1 l2 : list A) : forall k d,
  list_inserts (k + length l1) l2 (list_inserts k l1 d) =
  list_inserts k (l1 ++ l2) d.
Proof.
  induction l1 as [|x l1 IH]; intros k d.
  - cbn [length app list_inserts]. rewrite Nat.add_0_r. reflexivity.
  - cbn [length app list_inserts].
    rewrite <- list_insert_inserts_lt by lia.
    replace (k + S (length l1))%nat with (S k + length l1)%nat by lia.
    rewrite IH. reflexivity.
Qed.

Lemma take_drop_inserts {A} (l d : list A) k :
  (k + length l <= length d)%nat ->
  take (length l) (drop k (list_inserts k l d)) = l.
Proof.
  intros H. apply list_eq. intros i.
  destruct (decide (i < length l)%nat) as [Hi|Hi].
  - rewrite lookup_take_lt, lookup_drop by lia.
    rewrite list_lookup_inserts by lia. f_equal. lia.
  - rewrite lookup_take_ge by lia. symmetry. apply lookup_ge_None. lia.
Qed.

(** The payload loop with the bytes pending: they go to
    [data[1024 * index + i ...]] and are counted. *)
Lemma read_frame_loop_sent index size bs : forall i br rest s,
  rx (uart1 s) = sent bs ++ rest ->
  0 <= FLASH_PAGESIZE * index + i ->
  FLASH_PAGESIZE * index + i + Z.of_nat (length bs) <= DATA_SIZE ->
  0 <= br -> br + Z.of_nat (length bs) <= size -> size < 4294967296 ->
  read_frame_loop (length bs) i index size br s =
  Ok (i + Z.of_nat (length bs), br + Z.of_nat (length bs))
     (set_data (list_inserts (Z.to_nat (FLASH_PAGESIZE * index + i))
                  (map to_u8 bs) (data s))
        (with_rx1 rest s)).
Proof.
  induction bs as [|b bs IH]; intros i br rest s Hrx H0 H1 Hbr Hsz Hmax.
  - cbn [length read_frame_loop map list_inserts]. unfold ret.
    rewrite !Z.add_0_r. cbn [sent map app] in Hrx.
    rewrite <- Hrx, with_rx1_id. destruct s; reflexivity.
  - cbn [length] in *. rewrite read_frame_loop_S.
    unfold bind at 1.
    rewrite (uart_read_cons b true (sent bs ++ rest)) by exact Hrx.
    cbn [fst snd]. unfold bind at 1. rewrite data_store_ok by lia.
    unfold bind at 1. rewrite check_read_1. cbn [negb Z.eqb].
    replace (to_u32 (br + 1)) with (br + 1)
      by (unfold to_u32; rewrite Z.mod_small; lia).
    replace (br + 1 >? size) with false
      by (symmetry; rewrite Z.gtb_ltb; apply Z.ltb_ge; lia).
    set (s1 := set_data _ (with_rx1 (sent bs ++ rest) s)).
    rewrite (IH (i + 1) (br + 1) rest s1) by (reflexivity || lia).
    replace (i + 1 + Z.of_nat (length bs))
      with (i + Z.of_nat (S (length bs))) by lia.
    replace (br + 1 + Z.of_nat (length bs))
      with (br + Z.of_nat (S (length bs))) by lia.
    assert (Hd : list_inserts (Z.to_nat (FLASH_PAGESIZE * index + (i + 1)))
                   (map to_u8 bs) (data s1) =
                 list_inserts (Z.to_nat (FLASH_PAGESIZE * index + i))
                   (map to_u8 (b :: bs)) (data s)).
    { unfold s1. cbn [set_data data map list_inserts].
      replace (Z.to_nat (FLASH_PAGESIZE * index + (i + 1)))
        with (S (Z.to_nat (FLASH_PAGESIZE * index + i))) by lia.
      rewrite <- list_insert_inserts_lt by lia.
      f_equal. unfold to_u8, to_u32. apply Z.mod_mod_divide.
      exists 16777216. reflexivity. }
    rewrite Hd. reflexivity.
Qed.

(** A run of stores at consecutive positions. *)
Lemma for_range_store base (f : list Z) n : forall j s,
  0 <= base + j -> base + j + Z.of_nat n <= DATA_SIZE ->
  for_range n j (fun j => data_store (base + j) (at_ f j)) s =
  Ok tt (set_data (list_inserts (Z.to_nat (base + j))
                     (map (fun j => to_u8 (at_ f j)) (seqZ j (Z.of_nat n)))
                     (data s)) s).
Proof.
  induction n as [|n IH]; intros j s H0 H1.
  - cbn [for_range]. unfold ret. destruct s; reflexivity.
  - cbn [for_range]. unfold bind at 1. rewrite data_store_ok by lia.
    rewrite IH by (cbn [set_data data]; lia).
    rewrite (seqZ_cons j (Z.of_nat (S n))) by lia.
    replace (Z.pred (Z.of_nat (S n))) with (Z.of_nat n) by lia.
    replace (Z.succ j) with (j + 1) by lia.
    assert (Hd : list_inserts (Z.to_nat (base + (j + 1)))
                   (map (fun j => to_u8 (at_ f j)) (seqZ (j + 1) (Z.of_nat n)))
                   (<[Z.to_nat (base + j):=to_u8 (at_ f j)]> (data s)) =
                 list_inserts (Z.to_nat (base + j))
                   (map (fun j => to_u8 (at_ f j))
                      (j :: seqZ (j + 1) (Z.of_nat n))) (data s)).
    { cbn [map list_inserts].
      replace (Z.to_nat (base + (j + 1))) with (S (Z.to_nat (base + j))) by lia.
      rewrite list_insert_inserts_lt by lia. reflexivity. }
    cbn [set_data data]. rewrite Hd. reflexivity.
Qed.

(** X21. A frame on the wire lands in the staging buffer at
    [data[1024 * index]], followed by its six header bytes; when the MAC
    that follows is the HMAC of exactly these bytes the frame is
    acknowledged with [OK] and its length added to the byte count, and
    otherwise the update ends on the error path.  Nothing outside these
    [frame_length + 6] bytes of the buffer is written. *)
Theorem frame_is_staged (X : Extern) (f : list Z) (index size br : Z)
    (bs mac : list Z) (rest : list (Z * bool)) (s : state) :
  rx (uart1 s) = sent (bs ++ mac) ++ rest ->
  length mac = 32%nat -> length f = 6%nat ->
  let len := Z.of_nat (length bs) in
  len <= FLASH_PAGESIZE -> 0 <= index ->
  FLASH_PAGESIZE * index + len + 6 <= DATA_SIZE ->
  length (data s) = Z.to_nat DATA_SIZE ->
  0 <= br -> br + len <= size -> size < 65536 ->
  let staged := map to_u8 bs ++ map to_u8 f in
  let d' := list_inserts (Z.to_nat (FLASH_PAGESIZE * index)) staged (data s) in
  let s1 := set_data d' (with_rx1 rest s) in
  take (length staged) (drop (Z.to_nat (FLASH_PAGESIZE * index)) d') = staged /\
  (map to_char mac = hmac_sha256 X staged ->
     frame_payload X f index len size br s = Ok (br + len) (emit UART1 [OK] s1)) /\
  (fst (hmac_compare (map to_char mac) (hmac_sha256 X staged)) <> 0 ->
     frame_payload X f index len size br s = Stop Reset (error_exit s1)).
Proof.
  intros Hrx Hmac Hf len Hlen Hidx Hfit Hdata Hbr Hsz Hmax staged d' s1.
  unfold sent in Hrx. rewrite map_app, <- app_assoc in Hrx.
  fold (sent bs) in Hrx. fold (sent mac) in Hrx.
  assert (Hst : length staged = Z.to_nat (len + 6)).
  { unfold staged, len. rewrite length_app, !length_map, Hf. lia. }
  assert (Htake : take (length staged)
            (drop (Z.to_nat (FLASH_PAGESIZE * index)) d') = staged).
  { apply take_drop_inserts. rewrite Hst, Hdata. unfold FLASH_PAGESIZE in *. lia. }
  assert (Hrun : frame_payload X f index len size br s =
    if fst (hmac_compare (map to_char mac) (hmac_sha256 X staged)) =? 0
    then Ok (br + len) (emit UART1 [OK] s1)
    else Stop Reset (error_exit s1)).
  { unfold frame_payload.
    rewrite Z.min_l by exact Hlen. unfold len at 1. rewrite Nat2Z.id.
    unfold bind at 1.
    rewrite (read_frame_loop_sent index size bs 0 br (sent mac ++ rest) s Hrx)
      by (unfold len, FLASH_PAGESIZE in *; lia).
    cbn [fst snd]. rewrite Z.add_0_l. fold len.
    unfold bind at 1.
    rewrite (for_range_store (FLASH_PAGESIZE * index + len) f 6 0)
      by (unfold FLASH_PAGESIZE in *; lia).
    cbn [set_data data uart0 uart1 uart2 flash flash_status flash_log
         fw_release_message].
    unfold bind at 1, get_data.
    cbn [set_data data uart0 uart1 uart2 flash flash_status flash_log
         fw_release_message].
    rewrite !Z.add_0_r.
    replace (map (fun j => to_u8 (at_ f j)) (seqZ 0 (Z.of_nat 6)))
      with (map to_u8 f)
      by (destruct f as [|a0 [|a1 [|a2 [|a3 [|a4 [|a5 [|]]]]]]];
          try discriminate Hf; reflexivity).
    replace (Z.to_nat (FLASH_PAGESIZE * index + len))
      with (Z.to_nat (FLASH_PAGESIZE * index) + length (map to_u8 bs))%nat
      by (rewrite length_map; unfold len, FLASH_PAGESIZE in *; lia).
    rewrite list_inserts_app. fold staged. fold d'.
    unfold bind at 1.
    rewrite (sha_hmac_sent X _ _ mac rest) by (exact Hmac || reflexivity).
    unfold FR_METADATA_SIZE. rewrite <- Hst, Htake.
    destruct (fst (hmac_compare _ _) =? 0).
    - cbn [Z.eqb]. unfold bind, ret. rewrite uart_write_emit. reflexivity.
    - reflexivity. }
  split; [exact Htake|]. split.
  - intros Hm. rewrite Hrun, Hm.
    replace (fst (hmac_compare _ _) =? 0) with true; [reflexivity|].
    symmetry. apply Z.eqb_eq, hmac_compare_zero. reflexivity.
  - intros Hm. rewrite Hrun.
    replace (fst (hmac_compare _ _) =? 0) with false; [reflexivity|].
    symmetry. apply Z.eqb_neq. exact Hm.
Qed.

Lemma frame_is_staged_witness :
  let f := [0; 0; 3; 0; 7; 0] in
  let bs := [1; 2; 3] in
  let s := device (sent (bs ++ stub_hmac (bs ++ f))) [] [] in
  frame_payload arm f 0 3 10 0 s =
    Ok 3 (emit UART1 [OK]
            (set_data (list_inserts 0 (bs ++ f) (data s)) (with_rx1 [] s))).
Proof.
  intros f bs s.
  assert (H1 : rx (uart1 s) = sent (bs ++ stub_hmac (bs ++ f)) ++ [])
    by (symmetry; apply app_nil_r).
  assert (H2 : Z.of_nat (length bs) <= FLASH_PAGESIZE)
    by (cbn; unfold FLASH_PAGESIZE; lia).
  assert (H3 : FLASH_PAGESIZE * 0 + Z.of_nat (length bs) + 6 <= DATA_SIZE)
    by (vm_compute; discriminate).
  assert (H4 : 0 + Z.of_nat (length bs) <= 10) by (cbn; lia).
  apply (proj1 (proj2 (frame_is_staged arm f 0 10 0 bs (stub_hmac (bs ++ f)) []
                         s H1 eq_refl eq_refl H2 ltac:(lia) H3
                         (length_replicate _ _) ltac:(lia) H4 ltac:(lia)))).
  reflexivity.
Defined.

(** ** How an update can end *)

(** The body of [load_firmware], where a [return;] taken inside a block
    still shows as such. *)
Definition load_firmware_body (X : Extern) : M unit :=
  c <- load_firmware_metadata X ;;
  c <- load_firmware_receive X c ;;
  load_firmware_flash c.

Lemma load_firmware_body_stop X s e s' :
  load_firmware_body X s = Stop e s' -> exits (u16_of_negative X <= 30) e.
Proof.
  intros Hrun.
  assert (Hb : load_firmware_body X s =
               bind (load_firmware_verify X) load_firmware_flash s).
  { unfold load_firmware_body, load_firmware_verify, bind.
    destruct (load_firmware_metadata X s) as [c s1|e1 s1]; reflexivity. }
  rewrite Hb in Hrun.
  destruct (load_firmware_verify X s) as [[[[m v] size] r] s1|e1 s1] eqn:Hv.
  - rewrite (bind_Ok _ _ _ _ _ Hv) in Hrun.
    destruct (framed_Ok _ _ _ _ _ _ (framed_load_firmware_verify X) Hv)
      as [_ Hs].
    destruct (post_Stop _ _ _ _ _ _
                (load_firmware_flash_exits m v size r s1 (proj1 Hs)) Hrun)
      as [-> _].
    left. reflexivity.
  - rewrite (bind_Stop _ _ _ _ _ Hv) in Hrun. injection Hrun as <- <-.
    apply (framed_Stop _ _ _ _ _ _ (framed_load_firmware_verify X) Hv).
Qed.

Lemma load_firmware_unfold X :
  load_firmware X = void_fn (load_firmware_body X).
Proof. unfold load_firmware, load_firmware_body. reflexivity. Qed.

(** X22. Every run of [load_firmware] ends in one of three ways: it
    runs to the end of its body and returns, it takes the error path, or
    it waits for a byte that does not come.  None of the [return;]
    statements inside the body is ever reached, as each stands behind a
    call that resets the chip: the body never stops with [Returned], so
    [load_firmware] returns only after the last flash write.  The frame
    loop and the page loop end within the number of frames and pages.
    The one other end, a store outside the staging buffer, needs a tool
    chain that converts the negative frame count to more than 30. *)
Theorem load_firmware_outcomes (X : Extern) (s : state) :
  load_firmware X = void_fn (load_firmware_body X) /\
  (forall s', load_firmware_body X s <> Stop Returned s') /\
  (forall s', load_firmware_body X s <> Stop OutOfFuel s') /\
  load_firmware X s = load_firmware_body X s /\
  ((exists s', load_firmware X s = Ok tt s') \/
   (exists s', load_firmware X s = Stop Reset s') \/
   (exists s', load_firmware X s = Stop Blocked s') \/
   (exists s', load_firmware X s = Stop Fault s' /\ 30 < u16_of_negative X)).
Proof.
  assert (Hno : forall e s', load_firmware_body X s = Stop e s' ->
                  e = Reset \/ e = Blocked \/
                  (e = Fault /\ 30 < u16_of_negative X)).
  { intros e s' H. apply load_firmware_body_stop in H.
    destruct H as [->|[->|[-> H]]]; [auto | auto |].
    right; right. split; [reflexivity | lia]. }
  assert (Heq : load_firmware X s = load_firmware_body X s).
  { rewrite load_firmware_unfold. unfold void_fn.
    destruct (load_firmware_body X s) as [u s'|e s'] eqn:Hb; [reflexivity|].
    destruct (Hno e s' eq_refl) as [->|[->|[-> _]]]; reflexivity. }
  split; [apply load_firmware_unfold|].
  split.
  { intros s' H. destruct (Hno _ _ H) as [He|[He|[He _]]]; discriminate He. }
  split.
  { intros s' H. destruct (Hno _ _ H) as [He|[He|[He _]]]; discriminate He. }
  split; [exact Heq|].
  rewrite Heq.
  destruct (load_firmware_body X s) as [[] s'|e s'] eqn:Hb.
  - left. exists s'. reflexivity.
  - destruct (Hno e s' eq_refl) as [->|[->|[-> H]]].
    + right; left. exists s'. reflexivity.
    + right; right; left. exists s'. reflexivity.
    + right; right; right. exists s'. split; [reflexivity | exact H].
Qed.

(** When the first program call of the flash phase reports a failure, the
    phase ends on the error path after the erase of the first firmware
    page and that one program call. *)
Lemma flash_phase_first_failure (m : list Z) (v size r : Z) (s : state) :
  1 <= size <= FW_MAX_SIZE -> hd 0 (flash_status s) <> 0 ->
  let len := Z.min size FLASH_PAGESIZE in
  let bytes :=
    map to_u8 (take (Z.to_nat (len - len mod FLASH_WRITESIZE)) (data s)) in
  exists s',
    load_firmware_flash (m, v, size, r) s = Stop Reset s' /\
    tx (uart1 s') = tx (uart1 s) ++ [ERROR] /\
    flash_log s' =
      flash_log s ++ [Erase FW_BASE;
                      Program FW_BASE bytes (hd 0 (flash_status s))] /\
    (forall a, a < FW_BASE -> flash s' a = flash s a).
Proof.
  intros Hsize Hst len bytes. unfold load_firmware_flash. unfold bind at 1.
  rewrite flash_firmware_loop_S.
  replace (0 <? size) with true by (symmetry; apply Z.ltb_lt; lia).
  cbv zeta.
  assert (Hlen' : (if to_u16 (size - 0) >? FLASH_PAGESIZE then FLASH_PAGESIZE
                   else to_u16 (size - 0)) = len).
  { unfold len, to_u16. rewrite Z.sub_0_r.
    rewrite Z.mod_small by (unfold FW_MAX_SIZE in Hsize; lia).
    destruct (size >? FLASH_PAGESIZE) eqn:E;
      [apply Z.gtb_lt in E | rewrite Z.gtb_ltb in E; apply Z.ltb_ge in E];
      lia. }
  rewrite Hlen'.
  assert (Hlen : 0 <= len <= FLASH_PAGESIZE)
    by (unfold len, FLASH_PAGESIZE; lia).
  unfold bind at 1, get_data. unfold bind at 1.
  change (drop (Z.to_nat 0) (data s)) with (data s).
  destruct (program_flash_page FW_BASE (data s) len s Hlen)
    as (r1 & s1 & Hrun & Hout & _ & Hfail & _ & _ & Hu1 & _).
  destruct (program_flash_run FW_BASE (data s) len s)
    as (r1' & s1' & ops & Hrun' & Hlog & H0 & _ & H2).
  rewrite Hrun in Hrun'. injection Hrun' as <- <-.
  destruct (Hfail Hst) as [Hr1 _].
  assert (Hops : ops = [Program FW_BASE bytes (hd 0 (flash_status s))]).
  { destruct (Z.eq_dec (len mod FLASH_WRITESIZE) 0) as [Hr|Hr].
    - destruct (H0 Hr) as [-> _]. unfold bytes. rewrite Hr, Z.sub_0_r.
      reflexivity.
    - destruct (H2 Hr Hst) as [-> _]. reflexivity. }
  rewrite Hrun.
  replace (r1 =? 0) with false by (symmetry; apply Z.eqb_neq; exact Hr1).
  cbn [negb]. rewrite send_err_then.
  exists (error_exit s1). split; [reflexivity|].
  rewrite error_exit_uart1. cbn [tx]. rewrite Hu1.
  split; [reflexivity|].
  rewrite (proj1 (error_exit_flash s1)).
  rewrite (proj1 (proj2 (error_exit_flash s1))).
  split; [rewrite Hlog, Hops; reflexivity|].
  intros a Ha. apply Hout. unfold FW_BASE in *. lia.
Qed.

(** X23. The commit is not atomic.  When an update of at least one byte
    has passed every check and the first program call of the flash phase
    reports a failure, [load_firmware] ends on the error path with the
    first firmware page already erased: the driver was asked to erase the
    page at [FW_BASE] and then to program it, and nothing more, while
    every byte below the firmware region, the stored metadata and release
    message among them, is still the old one. *)
Theorem commit_failure_loses_first_page (X : Extern) (s : state)
    (m : list Z) (v size r : Z) (s1 : state) :
  load_firmware_verify X s = Ok (m, v, size, r) s1 ->
  1 <= size -> hd 0 (flash_status s) <> 0 ->
  let len := Z.min size FLASH_PAGESIZE in
  let bytes :=
    map to_u8 (take (Z.to_nat (len - len mod FLASH_WRITESIZE)) (data s1)) in
  exists s',
    load_firmware X s = Stop Reset s' /\
    tx (uart1 s') = tx (uart1 s1) ++ [ERROR] /\
    flash_log s' =
      flash_log s ++ [Erase FW_BASE;
                      Program FW_BASE bytes (hd 0 (flash_status s))] /\
    (forall a, a < FW_BASE -> flash s' a = flash s a).
Proof.
  intros Hv Hsize Hst len bytes.
  destruct (framed_Ok _ _ _ _ _ _ (framed_load_firmware_verify X) Hv)
    as [(Hf & Hl & Hs & _) Hmax].
  rewrite <- Hs in Hst.
  destruct (flash_phase_first_failure m v size r s1
              (conj Hsize (proj2 Hmax)) Hst)
    as (s' & Hrun & Ht & Hlog & Hlow).
  exists s'. split.
  - rewrite load_firmware_split. apply void_fn_stop; [|discriminate].
    rewrite (bind_Ok _ _ _ _ _ Hv). exact Hrun.
  - split; [exact Ht|]. split.
    + rewrite Hlog, Hl, Hs. reflexivity.
    + intros a Ha. rewrite (Hlow a Ha), Hf. reflexivity.
Qed.

Lemma commit_failure_loses_first_page_witness :
  let s := device (sent release_upload) [] [1] in
  exists s',
    load_firmware arm s = Stop Reset s' /\
    tx (uart1 s') = [OK; OK; OK; OK; OK; OK; ERROR] /\
    flash_log s' = [Erase FW_BASE; Program FW_BASE [26; 36; 46; 56] 1] /\
    (forall a, a < FW_BASE -> flash s' a = flash s a).
Proof.
  intros s.
  assert (Hv : load_firmware_verify arm s =
               Ok ([7; 0; 5; 0; 3; 0], 7, 5, 3)
                  (final (load_firmware_verify arm s)))
    by (apply value_Ok; vm_compute; reflexivity).
  destruct (commit_failure_loses_first_page arm s _ _ _ _ _ Hv)
    as (s' & Hrun & Ht & Hlog & Hlow); [lia | discriminate |].
  exists s'. split; [exact Hrun|].
  split.
  { rewrite Ht.
    replace (tx (uart1 (final (load_firmware_verify arm s))))
      with [OK; OK; OK; OK; OK; OK] by (vm_compute; reflexivity).
    reflexivity. }
  split; [|exact Hlow].
  rewrite Hlog.
  replace (take _ (data (final (load_firmware_verify arm s))))
    with [26; 36; 46; 56] by (vm_compute; reflexivity).
  reflexivity.
Defined.

(** ** The acknowledgements of an accepted update *)

(** When [m] returns it has sent [n] times [OK] to the host, and nothing
    else. *)
Definition sends {A} (m : M A) (n : nat) : Prop :=
  forall s a s', m s = Ok a s' ->
    tx (uart1 s') = tx (uart1 s) ++ replicate n OK.

Lemma sends_ret {A} (a : A) : sends (ret a) 0.
Proof.
  intros s a' s' H. injection H as _ <-. symmetry. apply app_nil_r.
Qed.

Lemma sends_stop {A} e n : sends (@stop A e) n.
Proof. intros s a s' H. discriminate H. Qed.

Lemma sends_send_err {A} (k : M A) n : sends (send_err ;; k) n.
Proof. intros s a s' H. rewrite send_err_then in H. discriminate H. Qed.

Lemma sends_if {A} (b : bool) (m1 m2 : M A) n :
  sends m1 n -> sends m2 n -> sends (if b then m1 else m2) n.
Proof. destruct b; trivial. Qed.

Lemma sends_bind {A B} (m : M A) (f : A -> M B) n1 n2 :
  sends m n1 -> (forall a, sends (f a) n2) -> sends (bind m f) (n1 + n2).
Proof.
  intros Hm Hf s b s' H. apply bind_Ok_inv in H.
  destruct H as (a & s1 & H1 & H2).
  rewrite (Hf a _ _ _ H2), (Hm _ _ _ H1), replicate_add, app_assoc.
  reflexivity.
Qed.

Lemma sends_bind0 {A B} (m : M A) (f : A -> M B) n :
  sends m 0 -> (forall a, sends (f a) n) -> sends (bind m f) n.
Proof. intros Hm Hf. apply (sends_bind m f 0 n Hm Hf). Qed.

(** A step after which UART1 has sent what it had sent before. *)
Lemma sends_quiet {A} (m : M A) :
  (forall s a s', m s = Ok a s' -> tx (uart1 s') = tx (uart1 s)) ->
  sends m 0.
Proof.
  intros H s a s' Hm. rewrite (H s a s' Hm). symmetry. apply app_nil_r.
Qed.

Lemma sends_acked_quiet {A} (m : M A) :
  (forall s, exists a s', m s = Ok a s' /\ tx (uart1 s') = tx (uart1 s)) ->
  sends m 0.
Proof.
  intros H. apply sends_quiet. intros s a s' Hm.
  destruct (H s) as (a' & s'' & Hm' & Ht). rewrite Hm in Hm'.
  injection Hm' as _ <-. exact Ht.
Qed.

Lemma sends_get_data : sends get_data 0.
Proof. apply sends_acked_quiet. intros s. eexists _, _. split; reflexivity. Qed.

Lemma sends_get_fw_release_message : sends get_fw_release_message 0.
Proof. apply sends_acked_quiet. intros s. eexists _, _. split; reflexivity. Qed.

Lemma sends_flash_read8 a : sends (flash_read8 a) 0.
Proof. apply sends_acked_quiet. intros s. eexists _, _. split; reflexivity. Qed.

Lemma sends_print_bolt : sends print_bolt 0.
Proof.
  apply sends_acked_quiet. intros s. eexists _, _.
  split; [apply print_bolt_ok|]. rewrite bolt_printed_uart1. reflexivity.
Qed.

Lemma sends_uart_write_OK : sends (uart_write UART1 OK) 1.
Proof.
  intros s a s' H. rewrite uart_write_emit in H. injection H as _ <-.
  reflexivity.
Qed.

Lemma sends_program_flash page_addr src len :
  sends (program_flash page_addr src len) 0.
Proof.
  apply sends_acked_quiet. intros s.
  destruct (program_flash_status page_addr src len s)
    as (r & s' & Hrun & _ & _ & H1 & _).
  exists r, s'. split; [exact Hrun|]. rewrite H1. reflexivity.
Qed.

Lemma sends_uart_read1 bl : sends (uart_read UART1 bl) 0.
Proof.
  apply sends_quiet. intros s a s' H.
  destruct (rx (uart1 s)) as [|[b ok] rest] eqn:Hrx.
  - rewrite uart_read_nil in H by exact Hrx. discriminate H.
  - rewrite (uart_read_cons b ok rest) in H by exact Hrx.
    injection H as _ <-. reflexivity.
Qed.

Lemma sends_send_err0 : sends send_err 0.
Proof. intros s a s' H. rewrite send_err_stop in H. discriminate H. Qed.

Lemma sends_check_read r : sends (check_read r) 0.
Proof.
  unfold check_read. apply sends_bind0.
  - apply sends_if; [apply sends_send_err0 | apply sends_ret].
  - intros _. apply sends_ret.
Qed.

Lemma sends_data_store k v : sends (data_store k v) 0.
Proof.
  apply sends_quiet. intros s a s' H. unfold data_store in H.
  destruct ((0 <=? k) && (k <? DATA_SIZE)); [|discriminate H].
  injection H as _ <-. reflexivity.
Qed.

Lemma sends_for_range (body : Z -> M unit) n : forall i,
  (forall j, sends (body j) 0) -> sends (for_range n i body) 0.
Proof.
  induction n as [|n IH]; intros i Hb.
  - apply sends_ret.
  - cbn [for_range]. apply sends_bind0; [apply Hb|]. intros _. apply IH, Hb.
Qed.

Lemma reads_tx s s' : reads s s' -> tx (uart1 s') = tx (uart1 s).
Proof. intros [k ->]. reflexivity. Qed.

Lemma sends_uart_read_variable u bl da len :
  sends (uart_read_variable u bl da len) 0.
Proof.
  apply sends_quiet. intros s a s' H.
  apply reads_tx.
  apply (post_Ok _ _ _ _ _ _ (uart_read_variable_post u bl da len s) H).
Qed.

Lemma sends_message_store k v : sends (message_store k v) 0.
Proof. apply sends_acked_quiet. intros s. eexists _, _. split; reflexivity. Qed.

Lemma sends_read_release_loop n : forall i, sends (read_release_loop n i) 0.
Proof.
  induction n as [|n IH]; intros i.
  - apply sends_ret.
  - cbn [read_release_loop].
    apply sends_bind0; [apply sends_uart_read1|]. intros b.
    apply sends_bind0; [apply sends_message_store|]. intros _.
    apply sends_bind0; [apply sends_check_read|]. intros r.
    apply sends_if; [apply sends_ret | apply IH].
Qed.

Lemma sends_read_release_message n : sends (read_release_message n) 0.
Proof.
  unfold read_release_message.
  apply sends_bind0; [apply sends_read_release_loop|]. intros _.
  apply sends_get_fw_release_message.
Qed.

Section Sends.
Context (X : Extern).

Lemma sends_sha_hmac data len : sends (sha_hmac X data len) 0.
Proof.
  apply sends_quiet. intros s a s' H. apply reads_tx.
  apply (post_Ok _ _ _ _ _ _ (sha_hmac_post X data len s) H).
Qed.

Lemma sends_gcm_decrypt_and_verify ct_len :
  sends (gcm_decrypt_and_verify X ct_len) 0.
Proof.
  unfold gcm_decrypt_and_verify.
  apply sends_bind0; [apply sends_uart_read_variable|]. intros iv.
  apply sends_bind0; [apply sends_uart_read_variable|]. intros tag.
  apply sends_bind0; [apply sends_get_data|]. intros ct.
  apply sends_bind0.
  { apply sends_acked_quiet. intros s. eexists _, _. split; reflexivity. }
  intros _. destruct (_ =? 0); [apply sends_send_err | apply sends_ret].
Qed.

Lemma sends_read_frame_loop index size n : forall i br,
  sends (read_frame_loop n i index size br) 0.
Proof.
  induction n as [|n IH]; intros i br.
  - apply sends_ret.
  - cbn [read_frame_loop].
    apply sends_bind0; [apply sends_uart_read1|]. intros b.
    apply sends_bind0; [apply sends_data_store|]. intros _. cbv zeta.
    apply sends_bind0; [apply sends_check_read|]. intros r.
    apply sends_if; [apply sends_stop|].
    destruct (_ >? size); [apply sends_send_err | apply IH].
Qed.

Lemma sends_frame_payload f index frame_length size br :
  sends (frame_payload X f index frame_length size br) 1.
Proof.
  unfold frame_payload.
  apply sends_bind0; [apply sends_read_frame_loop|]. intros ib. cbv zeta.
  apply sends_bind0.
  { apply sends_for_range. intros j. apply sends_data_store. }
  intros _.
  apply sends_bind0; [apply sends_get_data|]. intros d.
  apply sends_bind0; [apply sends_sha_hmac|]. intros r.
  apply sends_if; [apply sends_stop|].
  apply (sends_bind _ _ 1 0); [apply sends_uart_write_OK|]. intros _.
  apply sends_ret.
Qed.

(** One [OK] for each frame from [index_check] to [frame_number]. *)
Lemma sends_frames_loop version size frame_number fuel : forall ic br,
  0 <= ic -> frame_number < 65536 ->
  sends (frames_loop X fuel version size frame_number ic br)
    (Z.to_nat (frame_number - ic + 1)).
Proof.
  induction fuel as [|fuel IH]; intros ic br Hic Hfn.
  - apply sends_stop.
  - cbn [frames_loop].
    apply sends_bind0; [apply sends_uart_read_variable|]. intros f.
    apply sends_bind0; [apply sends_sha_hmac|]. intros r.
    apply sends_if; [apply sends_stop|]. cbv zeta.
    destruct (le16 f 0 =? ic) eqn:E1; cbn [negb orb]; [|apply sends_send_err].
    destruct (le16 f 0 >? frame_number) eqn:E2; [apply sends_send_err|].
    apply sends_if; [apply sends_send_err|].
    apply sends_if; [apply sends_send_err|].
    apply Z.eqb_eq in E1. rewrite Z.gtb_ltb in E2. apply Z.ltb_ge in E2.
    rewrite E1 in *.
    destruct (ic =? frame_number) eqn:E4.
    + apply Z.eqb_eq in E4.
      replace (Z.to_nat (frame_number - ic + 1)) with (1 + 0)%nat by lia.
      apply sends_bind; [apply sends_frame_payload|]. intros br'.
      apply sends_ret.
    + apply Z.eqb_neq in E4.
      replace (Z.to_nat (frame_number - ic + 1))
        with (1 + Z.to_nat (frame_number - (ic + 1) + 1))%nat by lia.
      apply sends_bind; [apply sends_frame_payload|]. intros br'.
      replace (to_u16 (ic + 1)) with (ic + 1)
        by (unfold to_u16; rewrite Z.mod_small; lia).
      apply IH; lia.
Qed.

Lemma sends_load_firmware_metadata : sends (load_firmware_metadata X) 1.
Proof.
  unfold load_firmware_metadata.
  apply sends_bind0; [apply sends_print_bolt|]. intros _.
  apply sends_bind0; [apply sends_uart_read_variable|]. intros m.
  apply sends_bind0; [apply sends_sha_hmac|]. intros r.
  apply sends_if; [apply sends_stop|]. cbv zeta.
  apply sends_bind0; [apply sends_flash_read8|]. intros hi.
  apply sends_bind0; [apply sends_flash_read8|]. intros lo.
  apply sends_if; [apply sends_send_err|].
  apply sends_if; [apply sends_send_err|].
  apply sends_if; [apply sends_send_err|].
  apply (sends_bind _ _ 1 0); [apply sends_uart_write_OK|]. intros _.
  apply sends_ret.
Qed.

Lemma sends_load_firmware_receive m v size r fn :
  0 <= fn < 65536 ->
  sends (load_firmware_receive X (m, v, size, r, fn)) (Z.to_nat (fn + 5)).
Proof.
  intros Hfn. unfold load_firmware_receive.
  replace (Z.to_nat (fn + 5))
    with (Z.to_nat (fn - 0 + 1) + (1 + (1 + (1 + (1 + 0)))))%nat by lia.
  apply sends_bind; [apply sends_frames_loop; lia|]. intros br.
  apply sends_if; [apply sends_send_err|].
  apply sends_bind0; [apply sends_get_data|]. intros d.
  apply sends_bind0; [apply sends_sha_hmac|]. intros r1.
  apply sends_if; [apply sends_stop|].
  apply sends_bind; [apply sends_uart_write_OK|]. intros _.
  apply sends_bind0; [apply sends_read_release_message|]. intros msg.
  apply sends_bind0; [apply sends_sha_hmac|]. intros r2.
  apply sends_if; [apply sends_stop|].
  apply sends_bind; [apply sends_uart_write_OK|]. intros _.
  apply sends_bind0.
  { apply sends_for_range. intros j. apply sends_data_store. }
  intros _.
  apply sends_bind0.
  { apply sends_for_range. intros j.
    apply sends_bind0; [apply sends_get_fw_release_message|]. intros m'.
    apply sends_data_store. }
  intros _.
  apply sends_bind0; [apply sends_get_data|]. intros d'.
  apply sends_bind0; [apply sends_sha_hmac|]. intros r3.
  apply sends_if; [apply sends_stop|].
  apply sends_bind0.
  { apply sends_for_range. intros j. apply sends_data_store. }
  intros _.
  apply sends_bind; [apply sends_uart_write_OK|]. intros _.
  apply sends_bind0; [apply sends_gcm_decrypt_and_verify|]. intros r4.
  apply sends_if; [apply sends_stop|].
  apply sends_bind; [apply sends_uart_write_OK|]. intros _.
  apply sends_ret.
Qed.

End Sends.

Lemma sends_flash_firmware_loop size fuel : forall i page_addr,
  sends (flash_firmware_loop fuel i page_addr size) 0.
Proof.
  induction fuel as [|fuel IH]; intros i page_addr.
  - apply sends_stop.
  - rewrite flash_firmware_loop_S.
    apply sends_if; [|apply sends_ret]. cbv zeta.
    apply sends_bind0; [apply sends_get_data|]. intros d.
    apply sends_bind0; [apply sends_program_flash|]. intros r.
    apply sends_if; [apply sends_send_err | apply IH].
Qed.

Lemma sends_load_firmware_flash c : sends (load_firmware_flash c) 0.
Proof.
  destruct c as [[[m v] size] r]. unfold load_firmware_flash.
  apply sends_bind0; [apply sends_flash_firmware_loop|]. intros _.
  apply sends_bind0.
  { apply sends_if; [|apply sends_ret].
    apply sends_bind0; [apply sends_flash_read8|]. intros b0.
    apply sends_bind0; [apply sends_flash_read8|]. intros b1.
    apply sends_ret. }
  intros m'.
  apply sends_bind0; [apply sends_program_flash|]. intros r1.
  apply sends_if; [apply sends_send_err|].
  apply sends_bind0; [apply sends_get_fw_release_message|]. intros msg.
  apply sends_bind0; [apply sends_program_flash|]. intros r2.
  apply sends_if; [apply sends_send_err | apply sends_ret].
Qed.

(** X24. An accepted update is acknowledged with exactly
    [frame_number + 6] bytes [OK]: one for the metadata, one for each
    frame, and one each for the firmware MAC, the release message, the
    MAC over all that is staged, and the decryption.  The flash writes
    that follow are not acknowledged. *)
Theorem accepted_update_acknowledgements (X : Extern) (s : state)
    (m : list Z) (v size r fn : Z) (s1 : state) :
  load_firmware_metadata X s = Ok (m, v, size, r, fn) s1 ->
  returns (load_firmware X s) = true ->
  tx (uart1 (final (load_firmware X s))) =
    tx (uart1 s) ++ replicate (Z.to_nat (fn + 6)) OK.
Proof.
  intros Hmeta Hret.
  destruct (load_firmware_returns_inv X s Hret)
    as (c & s1' & c' & s2 & Hm & Hr & Hf).
  rewrite Hmeta in Hm. injection Hm as <- <-.
  revert Hf. generalize (final (load_firmware X s)). intros s' Hf.
  destruct (framed_Ok _ _ _ _ _ _ (framed_load_firmware_metadata X) Hmeta)
    as [_ (_ & _ & _ & Hfn & _)].
  assert (Hrange : 0 <= fn < 65536)
    by (rewrite Hfn; apply frame_number_of_range).
  rewrite (sends_load_firmware_flash c' _ _ _ Hf).
  rewrite (sends_load_firmware_receive X m v size r fn Hrange _ _ _ Hr).
  rewrite (sends_load_firmware_metadata X _ _ _ Hmeta).
  rewrite <- !app_assoc, <- !replicate_add. f_equal. f_equal. lia.
Qed.

Lemma accepted_update_acknowledgements_witness :
  let s := device (sent release_upload) [] [] in
  returns (load_firmware arm s) = true /\
  tx (uart1 (final (load_firmware arm s))) =
    tx (uart1 s) ++ [OK; OK; OK; OK; OK; OK].
Proof.
  intros s.
  pose (meta := [7; 0; 5; 0; 3; 0]).
  pose (rest := drop 38 (sent release_upload)).
  assert (H1 : load_firmware_metadata arm s =
               Ok (map to_char meta, 7, 5, 3, 0)
                  (emit UART1 [OK] (with_rx1 rest (bolt_printed s)))).
  { rewrite (load_firmware_metadata_sent arm s meta (stub_hmac meta) rest
               eq_refl eq_refl eq_refl).
    replace (negb _) with false by (vm_compute; reflexivity).
    replace (_ && _) with false by (vm_compute; reflexivity).
    replace (_ >? _) with false by (vm_compute; reflexivity).
    replace (_ >? _) with false by (vm_compute; reflexivity).
    reflexivity. }
  assert (H2 : returns (load_firmware arm s) = true)
    by (vm_compute; reflexivity).
  split; [exact H2|].
  exact (accepted_update_acknowledgements arm s _ _ _ _ _ _ H1 H2).
Defined.

(** ** The bounds, during an update *)

Section Rounds.
Context (X : Extern).

(** One pass of the body of the [while (1)] loop, up to the exit test:
    the header with its checks, then the payload.  Returns [index] and
    [bytes_recieved]. *)
Definition frame_round (version size frame_number index_check
    bytes_recieved : Z) : M (Z * Z) :=
  fr_metadata <- uart_read_variable UART2 BLOCKING (replicate 6 0)
                   FR_METADATA_SIZE ;;
  r <- sha_hmac X fr_metadata FR_METADATA_SIZE ;;
  if r =? 0 then return_ else
  let index := le16 fr_metadata 0 in
  let frame_length := le16 fr_metadata 2 in
  let frame_version := le16 fr_metadata 4 in
  if negb (index =? index_check) || (index >? frame_number)
  then send_err ;; return_ else
  if frame_length >? FLASH_PAGESIZE then send_err ;; return_ else
  if negb (version =? frame_version) || (frame_version =? 1)
  then send_err ;; return_ else
  bytes_recieved <- frame_payload X fr_metadata index frame_length size
                      bytes_recieved ;;
  ret (index, bytes_recieved).

Lemma bind_bind {A B C} (m : M A) (f : A -> M B) (g : B -> M C) s :
  bind (bind m f) g s = bind m (fun a => bind (f a) g) s.
Proof. unfold bind. destruct (m s); reflexivity. Qed.

Lemma bind_ext {A B} (m : M A) (f g : A -> M B) s :
  (forall a s', f a s' = g a s') -> bind m f s = bind m g s.
Proof. intros H. unfold bind. destruct (m s); [apply H | reflexivity]. Qed.

Lemma bind_if {A B} (b : bool) (m1 m2 : M A) (g : A -> M B) s :
  bind (if b then m1 else m2) g s =
  (if b then bind m1 g else bind m2 g) s.
Proof. destruct b; reflexivity. Qed.

Lemma bind_return {A B} (g : A -> M B) s : bind return_ g s = return_ s.
Proof. reflexivity. Qed.

Lemma bind_send_err_return {A B} (g : A -> M B) s :
  bind (send_err ;; return_) g s = (send_err ;; return_) s.
Proof. rewrite bind_bind, !send_err_then. reflexivity. Qed.

(** [frames_loop] is [frame_round] followed by the exit test. *)
Lemma frames_loop_round fuel version size frame_number index_check
    bytes_recieved s :
  frames_loop X (S fuel) version size frame_number index_check
    bytes_recieved s =
  bind (frame_round version size frame_number index_check bytes_recieved)
    (fun ib =>
       if fst ib =? frame_number then ret (snd ib)
       else frames_loop X fuel version size frame_number
              (to_u16 (index_check + 1)) (snd ib)) s.
Proof.
  cbn [frames_loop]. unfold frame_round.
  rewrite bind_bind. apply bind_ext. intros f s1.
  rewrite bind_bind. apply bind_ext. intros r s2.
  rewrite bind_if. destruct (r =? 0); [reflexivity|]. cbv zeta.
  rewrite bind_if. destruct (_ || _); [symmetry; apply bind_send_err_return|].
  rewrite bind_if. destruct (_ >? _); [symmetry; apply bind_send_err_return|].
  rewrite bind_if. destruct (_ || _); [symmetry; apply bind_send_err_return|].
  rewrite bind_bind. apply bind_ext. intros br' s3. reflexivity.
Qed.

(** The states at the top of the frame loop, in a run that entered the
    loop in [s1]: the entry, and the state after each frame that was
    accepted and was not the last, with [index_check] and
    [bytes_recieved] as they are there. *)
Inductive loop_at (version size frame_number : Z) (s1 : state)
    : Z -> Z -> state -> Prop :=
| loop_entry : loop_at version size frame_number s1 0 0 s1
| loop_next index_check bytes_recieved s index bytes_recieved' s' :
    loop_at version size frame_number s1 index_check bytes_recieved s ->
    frame_round version size frame_number index_check bytes_recieved s =
      Ok (index, bytes_recieved') s' ->
    index <> frame_number ->
    loop_at version size frame_number s1 (to_u16 (index_check + 1))
      bytes_recieved' s'.

Lemma read_frame_loop_count index size n : forall i br s ib s',
  read_frame_loop n i index size br s = Ok ib s' ->
  0 <= br <= size -> 0 <= snd ib <= size.
Proof.
  induction n as [|n IH]; intros i br s ib s' H Hbr.
  - injection H as <- _. exact Hbr.
  - rewrite read_frame_loop_S in H.
    apply bind_Ok_inv in H. destruct H as (b & s1 & _ & H).
    apply bind_Ok_inv in H. destruct H as (u & s2 & _ & H).
    apply bind_Ok_inv in H. destruct H as (r & s3 & _ & H).
    apply if_negb_inv in H. destruct H as [[_ H]|[_ H]]; [discriminate H|].
    apply if_inv in H. destruct H as [[_ H]|[Hc H]].
    + rewrite send_err_then in H. discriminate H.
    + apply (IH _ _ _ _ _ H).
      rewrite Z.gtb_ltb in Hc. apply Z.ltb_ge in Hc.
      pose proof (Z.mod_pos_bound (br + 1) 4294967296 ltac:(lia)) as Hm.
      fold (to_u32 (br + 1)) in Hm. lia.
Qed.

Lemma frame_payload_count f index frame_length size br s br' s' :
  frame_payload X f index frame_length size br s = Ok br' s' ->
  0 <= br <= size -> 0 <= br' <= size.
Proof.
  intros H Hbr. unfold frame_payload in H.
  apply bind_Ok_inv in H. destruct H as (ib & s1 & Hloop & H).
  cbv zeta in H.
  apply bind_Ok_inv in H. destruct H as (u & s2 & _ & H).
  apply bind_Ok_inv in H. destruct H as (d & s3 & _ & H).
  apply bind_Ok_inv in H. destruct H as (r & s4 & _ & H).
  apply if_inv in H. destruct H as [[_ H]|[_ H]]; [discriminate H|].
  apply bind_Ok_inv in H. destruct H as (u' & s5 & _ & H).
  injection H as <- _.
  apply (read_frame_loop_count _ _ _ _ _ _ _ _ Hloop Hbr).
Qed.

(** A round that is accepted had the expected index, at most the frame
    number, and keeps the count of bytes within the size. *)
Lemma frame_round_Ok_inv version size frame_number index_check br s
    index br' s' :
  frame_round version size frame_number index_check br s =
    Ok (index, br') s' ->
  index = index_check /\ index <= frame_number /\
  (0 <= br <= size -> 0 <= br' <= size).
Proof.
  intros H. unfold frame_round in H.
  apply bind_Ok_inv in H. destruct H as (f & s1 & _ & H).
  apply bind_Ok_inv in H. destruct H as (r & s2 & _ & H).
  apply if_inv in H. destruct H as [[_ H]|[_ H]]; [discriminate H|].
  cbv zeta in H.
  apply if_inv in H. destruct H as [[_ H]|[Hc1 H]];
    [rewrite send_err_then in H; discriminate H|].
  apply if_inv in H. destruct H as [[_ H]|[Hc2 H]];
    [rewrite send_err_then in H; discriminate H|].
  apply if_inv in H. destruct H as [[_ H]|[Hc3 H]];
    [rewrite send_err_then in H; discriminate H|].
  apply bind_Ok_inv in H. destruct H as (b & s3 & Hp & H).
  injection H as <- <- _.
  apply orb_false_iff in Hc1. destruct Hc1 as [Hi Hn].
  apply negb_false_iff, Z.eqb_eq in Hi.
  rewrite Z.gtb_ltb in Hn. apply Z.ltb_ge in Hn.
  split; [exact Hi|]. split; [exact Hn|].
  apply (frame_payload_count _ _ _ _ _ _ _ _ Hp).
Qed.

(** At the top of the loop [index_check] is at most the frame number and
    the count of bytes at most the size; and the loop as entered is the
    loop from there. *)
Lemma loop_at_inv version size frame_number s1 index_check br s :
  0 <= frame_number < 65536 -> 0 <= size ->
  loop_at version size frame_number s1 index_check br s ->
  0 <= index_check <= frame_number /\ 0 <= br <= size /\
  frames_loop X (S (Z.to_nat frame_number)) version size frame_number 0 0 s1 =
  frames_loop X (S (Z.to_nat (frame_number - index_check))) version size
    frame_number index_check br s.
Proof.
  intros Hfn Hsize Hat.
  induction Hat as [|ic br s index br' s' Hat IH Hround Hlast].
  - split; [lia|]. split; [lia|]. rewrite Z.sub_0_r. reflexivity.
  - destruct IH as (Hic & Hbr & Heq).
    destruct (frame_round_Ok_inv _ _ _ _ _ _ _ _ _ Hround) as (Hi & Hle & Hc).
    subst index.
    replace (to_u16 (ic + 1)) with (ic + 1)
      by (unfold to_u16; rewrite Z.mod_small; lia).
    split; [lia|]. split; [apply Hc, Hbr|].
    rewrite Heq, frames_loop_round, (bind_Ok _ _ _ _ _ Hround).
    cbn [fst snd].
    replace (ic =? frame_number) with false
      by (symmetry; apply Z.eqb_neq; exact Hlast).
    replace (to_u16 (ic + 1)) with (ic + 1)
      by (unfold to_u16; rewrite Z.mod_small; lia).
    replace (Z.to_nat (frame_number - ic))
      with (S (Z.to_nat (frame_number - (ic + 1)))) by lia.
    reflexivity.
Qed.

(** A stop on the error path in the frame loop, at whatever round, is the
    outcome of [load_firmware], with the flash untouched. *)
Lemma loop_reset_is_outcome s m version size r frame_number s1
    index_check br s2 s' :
  load_firmware_metadata X s = Ok (m, version, size, r, frame_number) s1 ->
  loop_at version size frame_number s1 index_check br s2 ->
  (forall fuel,
     frames_loop X (S fuel) version size frame_number index_check br s2 =
     Stop Reset s') ->
  load_firmware X s = Stop Reset s' /\
  flash s' = flash s /\ flash_log s' = flash_log s.
Proof.
  intros Hmeta Hat Hstop.
  destruct (framed_Ok _ _ _ _ _ _ (framed_load_firmware_metadata X) Hmeta)
    as [_ (_ & _ & _ & Hfn & Hsize & _)].
  assert (Hrange : 0 <= frame_number < 65536)
    by (rewrite Hfn; apply frame_number_of_range).
  destruct (loop_at_inv _ _ _ _ _ _ _ Hrange (proj1 Hsize) Hat)
    as (_ & _ & Heq).
  assert (Hv : load_firmware_verify X s = Stop Reset s').
  { rewrite load_firmware_verify_eq, (bind_Ok _ _ _ _ _ Hmeta).
    unfold load_firmware_receive. apply bind_Stop.
    rewrite Heq. apply Hstop. }
  split; [apply load_firmware_verify_stop; [exact Hv | discriminate]|].
  destruct (framed_Stop _ _ _ _ _ _ (framed_load_firmware_verify X) Hv)
    as [Hf _].
  split; apply Hf.
Qed.

(** With the header received and all its checks passed, the round goes on
    to the payload. *)
Lemma frame_round_header_accepted version size frame_number index_check
    br s frm mac rest :
  rx (uart1 s) = sent (frm ++ mac) ++ rest ->
  length frm = 6%nat -> length mac = 32%nat ->
  ~ header_fails X version frame_number index_check
      (map to_char frm) (map to_char mac) ->
  let f := map to_char frm in
  frame_round version size frame_number index_check br s =
  bind (frame_payload X f (le16 f 0) (le16 f 2) size br)
    (fun br' => ret (le16 f 0, br')) (with_rx1 rest s).
Proof.
  intros Hrx Hfrm Hmac Hacc f.
  unfold sent in Hrx. rewrite map_app, <- app_assoc in Hrx.
  fold (sent frm) in Hrx. fold (sent mac) in Hrx.
  unfold frame_round. unfold bind at 1.
  rewrite (uart_read_variable_sent _ _ _ _ frm (sent mac ++ rest));
    [ | exact Hrx | rewrite Hfrm; reflexivity
      | unfold FLASH_PAGESIZE, FR_METADATA_SIZE; lia ].
  rewrite list_inserts_0_full by (rewrite length_map, Hfrm; reflexivity).
  fold f. unfold bind at 1.
  rewrite (sha_hmac_sent X _ _ mac rest) by (exact Hmac || reflexivity).
  rewrite with_rx1_twice.
  replace (take (Z.to_nat FR_METADATA_SIZE) f) with f
    by (symmetry; apply take_ge; unfold f; rewrite length_map, Hfrm;
        unfold FR_METADATA_SIZE; lia).
  unfold header_fails in Hacc. fold f in Hacc.
  replace (fst (hmac_compare (map to_char mac) (hmac_sha256 X f)) =? 0)
    with true by (symmetry; apply Z.eqb_eq; lia).
  cbn [Z.eqb]. cbv zeta.
  replace (le16 f 0 =? index_check) with true
    by (symmetry; apply Z.eqb_eq; lia).
  replace (le16 f 0 >? frame_number) with false
    by (symmetry; rewrite Z.gtb_ltb; apply Z.ltb_ge; lia).
  replace (le16 f 2 >? FLASH_PAGESIZE) with false
    by (symmetry; rewrite Z.gtb_ltb; apply Z.ltb_ge; lia).
  replace (version =? le16 f 4) with true
    by (symmetry; apply Z.eqb_eq; lia).
  replace (le16 f 4 =? 1) with false
    by (symmetry; apply Z.eqb_neq; lia).
  reflexivity.
Qed.

(** A payload that takes the count of bytes above [size] ends on the
    error path at the byte that exceeds it, however many more bytes the
    header announced. *)
Lemma read_frame_loop_exceeds index size bs : forall n i br rest s,
  rx (uart1 s) = sent bs ++ rest ->
  (length bs <= n)%nat ->
  0 <= FLASH_PAGESIZE * index + i ->
  FLASH_PAGESIZE * index + i + Z.of_nat (length bs) <= DATA_SIZE ->
  0 <= br <= size -> size < 65536 ->
  Z.of_nat (length bs) = size - br + 1 ->
  exists s', read_frame_loop n i index size br s = Stop Reset s' /\
    tx (uart1 s') = tx (uart1 s) ++ [ERROR] /\
    rx (uart1 s') = rest.
Proof.
  induction bs as [|b bs IH]; intros n i br rest s Hrx Hn H0 H1 Hbr Hsz Hlen.
  - exfalso. cbn [length] in Hlen. lia.
  - cbn [length] in *. destruct n as [|n]; [lia|].
    rewrite read_frame_loop_S.
    unfold bind at 1.
    rewrite (uart_read_cons b true (sent bs ++ rest)) by exact Hrx.
    cbn [fst snd]. unfold bind at 1. rewrite data_store_ok by lia.
    unfold bind at 1. rewrite check_read_1. cbn [negb Z.eqb].
    replace (to_u32 (br + 1)) with (br + 1)
      by (unfold to_u32; rewrite Z.mod_small; lia).
    destruct (br + 1 >? size) eqn:Hgt.
    + rewrite send_err_then. eexists. split; [reflexivity|].
      rewrite error_exit_uart1. cbn [tx rx].
      split; [reflexivity|].
      apply Z.gtb_lt in Hgt.
      destruct bs as [|b' bs]; [reflexivity | cbn [length] in Hlen; lia].
    + rewrite Z.gtb_ltb in Hgt. apply Z.ltb_ge in Hgt.
      set (s1 := set_data _ (with_rx1 (sent bs ++ rest) s)).
      destruct (IH n (i + 1) (br + 1) rest s1) as (s' & Hrun & Ht & Hr);
        try lia; [reflexivity|].
      exists s'. split; [exact Hrun|]. split; [exact Ht | exact Hr].
Qed.

End Rounds.

(** C6. Each bound is enforced by a stop of [load_firmware] on the error
    path, with [ERROR] the last byte sent to the host and the flash
    untouched: a firmware size above [FW_MAX_SIZE] and a message size
    above [RELEASE_MAX_SIZE] in the metadata stage, whatever MAC comes
    with them; a frame length above [FLASH_PAGESIZE] in the header of any
    round of the frame loop, whatever the other fields and the MAC; and a
    count of payload bytes above the firmware size in any round, at the
    byte that exceeds it, whether or not the rest of the frame follows.
    For a size of zero the frame number is the converted -1, which may
    let the loop run on; the last part then holds in rounds 0 to 31,
    after which the byte itself would be stored outside the buffer. *)
Theorem size_bounds_are_enforced (X : Extern) :
  (forall s meta mac rest,
     rx (uart1 s) = sent (meta ++ mac) ++ rest ->
     length meta = 6%nat -> length mac = 32%nat ->
     FW_MAX_SIZE < le16 (map to_char meta) 2 ->
     exists s', load_firmware X s = Stop Reset s' /\
       tx (uart1 s') = tx (uart1 s) ++ [ERROR] /\
       flash s' = flash s /\ flash_log s' = flash_log s) /\
  (forall s meta mac rest,
     rx (uart1 s) = sent (meta ++ mac) ++ rest ->
     length meta = 6%nat -> length mac = 32%nat ->
     RELEASE_MAX_SIZE < le16 (map to_char meta) 4 ->
     exists s', load_firmware X s = Stop Reset s' /\
       tx (uart1 s') = tx (uart1 s) ++ [ERROR] /\
       flash s' = flash s /\ flash_log s' = flash_log s) /\
  (forall s m version size r frame_number s1 index_check bytes_recieved s2
          frm mac rest,
     load_firmware_metadata X s = Ok (m, version, size, r, frame_number) s1 ->
     loop_at X version size frame_number s1 index_check bytes_recieved s2 ->
     rx (uart1 s2) = sent (frm ++ mac) ++ rest ->
     length frm = 6%nat -> length mac = 32%nat ->
     FLASH_PAGESIZE < le16 (map to_char frm) 2 ->
     exists s', load_firmware X s = Stop Reset s' /\
       tx (uart1 s') = tx (uart1 s2) ++ [ERROR] /\
       rx (uart1 s') = rest /\
       flash s' = flash s /\ flash_log s' = flash_log s) /\
  (forall s m version size r frame_number s1 index_check bytes_recieved s2
          frm mac bs rest,
     load_firmware_metadata X s = Ok (m, version, size, r, frame_number) s1 ->
     loop_at X version size frame_number s1 index_check bytes_recieved s2 ->
     rx (uart1 s2) = sent (frm ++ mac) ++ sent bs ++ rest ->
     length frm = 6%nat -> length mac = 32%nat ->
     ~ header_fails X version frame_number index_check
         (map to_char frm) (map to_char mac) ->
     Z.of_nat (length bs) = size - bytes_recieved + 1 ->
     size - bytes_recieved + 1 <= le16 (map to_char frm) 2 ->
     (size = 0 -> index_check <= 31) ->
     exists s', load_firmware X s = Stop Reset s' /\
       tx (uart1 s') = tx (uart1 s2) ++ [ERROR] /\
       rx (uart1 s') = rest /\
       flash s' = flash s /\ flash_log s' = flash_log s).
Proof.
  split; [|split; [|split]].
  - intros s meta mac rest Hrx Hmeta Hmac Hb.
    destruct (metadata_rejection X s rest) as (s' & H1 & H2 & _ & H3 & H4).
    { rewrite (load_firmware_metadata_sent X s meta mac rest Hrx Hmeta Hmac).
      destruct (negb _); [reflexivity|].
      destruct (_ && _); [reflexivity|].
      replace (le16 (map to_char meta) 2 >? FW_MAX_SIZE) with true
        by (symmetry; apply Z.gtb_lt; lia).
      reflexivity. }
    exists s'. split; [exact H1|]. split; [exact H2|]. split; assumption.
  - intros s meta mac rest Hrx Hmeta Hmac Hb.
    destruct (metadata_rejection X s rest) as (s' & H1 & H2 & _ & H3 & H4).
    { rewrite (load_firmware_metadata_sent X s meta mac rest Hrx Hmeta Hmac).
      destruct (negb _); [reflexivity|].
      destruct (_ && _); [reflexivity|].
      destruct (_ >? FW_MAX_SIZE); [reflexivity|].
      replace (le16 (map to_char meta) 4 >? RELEASE_MAX_SIZE) with true
        by (symmetry; apply Z.gtb_lt; lia).
      reflexivity. }
    exists s'. split; [exact H1|]. split; [exact H2|]. split; assumption.
  - intros s m v size r fn s1 ic br s2 frm mac rest
      Hmeta Hat Hrx Hfrm Hmac Hb.
    exists (error_exit (with_rx1 rest s2)).
    destruct (loop_reset_is_outcome X s m v size r fn s1 ic br s2
                (error_exit (with_rx1 rest s2)) Hmeta Hat)
      as (Hrun & Hf & Hl).
    { intros fuel.
      apply (frames_loop_header_rejected X fuel v size fn ic br s2
               frm mac rest Hrx Hfrm Hmac).
      unfold header_fails. right; right; right; left. lia. }
    split; [exact Hrun|]. rewrite error_exit_uart1. cbn [tx rx].
    split; [reflexivity|]. split; [reflexivity|]. split; assumption.
  - intros s m v size r fn s1 ic br s2 frm mac bs rest
      Hmeta Hat Hrx Hfrm Hmac Hacc Hlen Hdecl Hzero.
    destruct (framed_Ok _ _ _ _ _ _ (framed_load_firmware_metadata X) Hmeta)
      as [_ (_ & _ & _ & Hfn & Hsize & _)].
    assert (Hrange : 0 <= fn < 65536)
      by (rewrite Hfn; apply frame_number_of_range).
    destruct (loop_at_inv X _ _ _ _ _ _ _ Hrange (proj1 Hsize) Hat)
      as (Hic & Hbr & _).
    set (f := map to_char frm) in *.
    assert (Hhdr : le16 f 0 = ic /\ le16 f 2 <= FLASH_PAGESIZE)
      by (unfold header_fails in Hacc; lia).
    destruct Hhdr as [Hidx Hlen2].
    assert (Hstore : FLASH_PAGESIZE * ic + Z.of_nat (length bs) <= DATA_SIZE).
    { unfold FLASH_PAGESIZE, DATA_SIZE, FW_MAX_SIZE, FW_METADATA_SIZE,
        RELEASE_MAX_SIZE in *.
      destruct (Z.eq_dec size 0) as [Hz|Hne].
      - specialize (Hzero Hz). lia.
      - rewrite Hfn, frame_number_of_pos in Hic by lia.
        Z.div_mod_to_equations. lia. }
    destruct (read_frame_loop_exceeds (le16 f 0) size bs
                (Z.to_nat (Z.min (le16 f 2) FLASH_PAGESIZE)) 0 br rest
                (with_rx1 (sent bs ++ rest) s2))
      as (s' & Hloop & Ht & Hr).
    { reflexivity. }
    { lia. }
    { rewrite Hidx. unfold FLASH_PAGESIZE. lia. }
    { rewrite Hidx. lia. }
    { exact Hbr. }
    { unfold FW_MAX_SIZE in Hsize. lia. }
    { exact Hlen. }
    exists s'.
    destruct (loop_reset_is_outcome X s m v size r fn s1 ic br s2 s'
                Hmeta Hat) as (Hrun & Hf & Hl).
    { intros fuel. rewrite frames_loop_round. apply bind_Stop.
      rewrite (frame_round_header_accepted X v size fn ic br s2 frm mac
                 (sent bs ++ rest) Hrx Hfrm Hmac Hacc).
      fold f. apply bind_Stop. unfold frame_payload. apply bind_Stop.
      exact Hloop. }
    split; [exact Hrun|]. split; [exact Ht|]. split; [exact Hr|].
    split; assumption.
Qed.

(** What a host sends for an update of 1025 bytes, up to the end of its
    first frame: the metadata, the header of frame 0 and its 1024 bytes,
    each followed by its MAC under [stub_extern]; then [tail]. *)
Definition two_frame_start (tail : list Z) : list Z :=
  let meta := [7; 0; 1; 4; 3; 0] in
  let frm := [0; 0; 0; 4; 7; 0] in
  let ct := replicate 1024 9 in
  meta ++ stub_hmac meta ++ frm ++ stub_hmac frm ++
  ct ++ stub_hmac (ct ++ frm) ++ tail.

(** The state in which [load_firmware] is at the top of the frame loop for
    the second time, on that input. *)
Definition second_round (tail : list Z) : state :=
  let s := device (sent (two_frame_start tail)) [] [] in
  let s1 := emit UART1 [OK]
              (with_rx1 (sent (drop 38 (two_frame_start tail)))
                 (bolt_printed s)) in
  final (frame_round arm 7 1025 1 0 0 s1).

Lemma two_frame_start_run (tail : list Z) :
  let s := device (sent (two_frame_start tail)) [] [] in
  exists s1,
    load_firmware_metadata arm s =
      Ok (map to_char [7; 0; 1; 4; 3; 0], 7, 1025, 3, 1) s1 /\
    loop_at arm 7 1025 1 s1 1 1024 (second_round tail) /\
    rx (uart1 (second_round tail)) = sent tail /\
    tx (uart1 (second_round tail)) = [OK; OK].
Proof.
  intros s.
  pose (meta := [7; 0; 1; 4; 3; 0]).
  pose (rest := sent (drop 38 (two_frame_start tail))).
  set (s1 := emit UART1 [OK] (with_rx1 rest (bolt_printed s))).
  exists s1.
  split.
  { rewrite (load_firmware_metadata_sent arm s meta (stub_hmac meta) rest
               eq_refl eq_refl eq_refl).
    replace (negb _) with false by (vm_compute; reflexivity).
    replace (_ && _) with false by (vm_compute; reflexivity).
    replace (_ >? _) with false by (vm_compute; reflexivity).
    replace (_ >? _) with false by (vm_compute; reflexivity).
    reflexivity. }
  split.
  { refine (loop_next arm 7 1025 1 s1 0 0 s1 0 1024 (second_round tail)
              (loop_entry arm 7 1025 1 s1) _ _); [|discriminate].
    apply (value_Ok (frame_round arm 7 1025 1 0 0 s1)).
    vm_compute. reflexivity. }
  split; vm_compute; reflexivity.
Qed.

Lemma size_bounds_are_enforced_witness :
  (let meta := [7; 0; 1; 120; 3; 0] in
   let s := device (sent (meta ++ stub_hmac meta)) [] [] in
   FW_MAX_SIZE < le16 (map to_char meta) 2 /\
   exists s', load_firmware arm s = Stop Reset s' /\
     tx (uart1 s') = [ERROR] /\ flash s' = flash s) /\
  (let meta := [7; 0; 5; 0; 1; 4] in
   let s := device (sent (meta ++ stub_hmac meta)) [] [] in
   RELEASE_MAX_SIZE < le16 (map to_char meta) 4 /\
   exists s', load_firmware arm s = Stop Reset s' /\
     tx (uart1 s') = [ERROR] /\ flash s' = flash s) /\
  (let frm := [1; 0; 1; 4; 7; 0] in
   let s := device (sent (two_frame_start (frm ++ stub_hmac frm))) [] [] in
   FLASH_PAGESIZE < le16 (map to_char frm) 2 /\
   exists s', load_firmware arm s = Stop Reset s' /\
     tx (uart1 s') = [OK; OK; ERROR] /\ rx (uart1 s') = [] /\
     flash s' = flash s) /\
  (let frm := [1; 0; 5; 0; 7; 0] in
   let bs := [1; 2] in
   let s := device (sent (two_frame_start (frm ++ stub_hmac frm ++ bs)))
              [] [] in
   le16 (map to_char frm) 2 = 5 /\
   exists s', load_firmware arm s = Stop Reset s' /\
     tx (uart1 s') = [OK; OK; ERROR] /\ rx (uart1 s') = [] /\
     flash s' = flash s).
Proof.
  split; [|split; [|split]].
  - intros meta s.
    assert (H : FW_MAX_SIZE < le16 (map to_char meta) 2) by reflexivity.
    split; [exact H|].
    destruct (proj1 (size_bounds_are_enforced arm) s meta (stub_hmac meta) []
                eq_refl eq_refl eq_refl H) as (s' & H1 & H2 & H3 & _).
    exists s'. split; [exact H1|]. split; [exact H2 | exact H3].
  - intros meta s.
    assert (H : RELEASE_MAX_SIZE < le16 (map to_char meta) 4) by reflexivity.
    split; [exact H|].
    destruct (proj1 (proj2 (size_bounds_are_enforced arm)) s meta
                (stub_hmac meta) [] eq_refl eq_refl eq_refl H)
      as (s' & H1 & H2 & H3 & _).
    exists s'. split; [exact H1|]. split; [exact H2 | exact H3].
  - intros frm s.
    assert (H : FLASH_PAGESIZE < le16 (map to_char frm) 2) by reflexivity.
    split; [exact H|].
    destruct (two_frame_start_run (frm ++ stub_hmac frm))
      as (s1 & Hmeta & Hat & Hrx & Htx).
    assert (Hrx' : rx (uart1 (second_round (frm ++ stub_hmac frm))) =
                   sent (frm ++ stub_hmac frm) ++ [])
      by (rewrite app_nil_r; exact Hrx).
    destruct (proj1 (proj2 (proj2 (size_bounds_are_enforced arm)))
                s _ _ _ _ _ s1 _ _ _ frm (stub_hmac frm) []
                Hmeta Hat Hrx' eq_refl eq_refl H)
      as (s' & H1 & H2 & H3 & H4 & _).
    exists s'. split; [exact H1|]. rewrite H2, Htx.
    split; [reflexivity|]. split; [exact H3 | exact H4].
  - intros frm bs s.
    split; [reflexivity|].
    destruct (two_frame_start_run (frm ++ stub_hmac frm ++ bs))
      as (s1 & Hmeta & Hat & Hrx & Htx).
    assert (Hrx' : rx (uart1 (second_round (frm ++ stub_hmac frm ++ bs))) =
                   sent (frm ++ stub_hmac frm) ++ sent bs ++ [])
      by (rewrite Hrx; reflexivity).
    assert (Hacc : ~ header_fails arm 7 1 1 (map to_char frm)
                       (map to_char (stub_hmac frm))).
    { unfold header_fails. intros [H|[H|[H|[H|[H|H]]]]].
      - apply H. vm_compute. reflexivity.
      - apply H. reflexivity.
      - vm_compute in H. discriminate H.
      - vm_compute in H. discriminate H.
      - apply H. reflexivity.
      - vm_compute in H. discriminate H. }
    destruct (proj2 (proj2 (proj2 (size_bounds_are_enforced arm)))
                s _ _ _ _ _ s1 _ _ _ frm (stub_hmac frm) bs []
                Hmeta Hat Hrx' eq_refl eq_refl Hacc eq_refl)
      as (s' & H1 & H2 & H3 & H4 & _).
    + vm_compute. discriminate.
    + intros H. discriminate H.
    + exists s'. split; [exact H1|]. rewrite H2, Htx.
      split; [reflexivity|]. split; [exact H3 | exact H4].
Defined.
